(** * Human Curve: measurement pipeline, percentile engine and capture loop

    A shallow embedding of the TypeScript sources

      - [lib/stats.ts] (in [src/lib/badges.ts], second part): [erf],
        [normalCDF], [computePercentile], [normalCurvePoints];
      - [lib/measurements.ts] ([src/lib/measurements.ts], first part):
        quality checks, extraction, scaling, averaging, ellipse
        circumference;
      - [lib/scanMode.ts] (in [src/lib/storage.ts], second part): the scan
        and camera modes;
      - [components/CameraView.tsx] (in [src/components/ShareCard.tsx],
        second part): the per-frame [tick] of the pose-detection loop, with
        its good-frame counter, ready flag and two frame buffers, and
        [handleCapture];
      - [lib/stats.ts]: [ordinalSuffix]; [lib/badges.ts]
        ([src/lib/badges.ts], first part): [computeBadges];
      - [lib/scanMode.ts]: [SCAN_MODE_OPTIONS], [getScanModeOption];
      - [components/MetricChart.tsx] ([src/unnamed/part_005]): the index
        [closestIdx] of the chart's marker.

    Numbers.  A TypeScript [number] is an IEEE-754 binary64 value.  The
    functions that only add, subtract, multiply, divide, compare, take a
    square root or an absolute value and call [Math.round] (the frame
    averager, [scaleMeasurements], [computeChestCircumference], the
    chart's [closestIdx]) are written once over an interface ([Arith],
    [Number]) and read at two instances: the real numbers [R], which is
    exact arithmetic, and the kernel's binary64 floats, the arithmetic the
    program runs on, on which they can be evaluated.  The statistics, the
    validators and the extractors are embedded over [R]: [+ - * /] are
    exact, [Math.sqrt], [Math.exp] and [Math.PI] are [sqrt], [exp] and
    [PI], and [Math.round x] is [floor (x + 1/2)].  NaN and the infinities
    have no counterpart in [R]; a JavaScript division by zero is therefore
    outside the real model, and every theorem below that goes through a
    division carries the guard under which the source divides by a
    non-zero number.  The theorems over [R] are theorems of exact
    arithmetic; several about thresholds and roundings are stated with a
    margin that leaves room for the rounding of binary64, and the
    lemmas on the kernel's floats show where the two arithmetics part.

    Exceptions.  Reading a property of [undefined] (an out-of-range array
    access followed by [.x]) and [throw new Error(..)] are modelled by the
    result type [Js]: [Ok v] is a normal return, [Throw msg] an uncaught
    exception. *)

From Stdlib Require Import Reals Lra Lia ZArith Psatz.
From Stdlib Require Import List Bool String Permutation.
From Stdlib Require Floats Uint63.
From Stdlib Require DecimalString.
From Stdlib Require Machin.
Import ListNotations.

Set Implicit Arguments.

(* ------------------------------------------------------------------ *)
(** ** JavaScript numbers over [R] *)

Module Num.
Local Open Scope R_scope.

(** [x < y], [x <= y] as the booleans the source branches on. *)
Definition ltb (x y : R) : bool := if Rlt_dec x y then true else false.
Definition leb (x y : R) : bool := if Rle_dec x y then true else false.
Definition gtb (x y : R) : bool := ltb y x.
Definition geb (x y : R) : bool := leb y x.

(** [Math.round]: nearest integer, ties towards +infinity. *)
Definition Math_round (x : R) : R := IZR (Zfloor (x + / 2)).

Definition Math_abs (x : R) : R := Rabs x.
Definition Math_min (x y : R) : R := Rmin x y.
Definition Math_max (x y : R) : R := Rmax x y.
Definition Math_sqrt (x : R) : R := sqrt x.
Definition Math_exp (x : R) : R := exp x.
Definition Math_PI : R := PI.

(** [parseFloat(x.toFixed(digits))].  [toFixed] prints the magnitude
    rounded to [digits] decimals (the integer [n] with [n / 10^digits]
    closest to [|x|], the larger one on a tie) behind the sign of [x];
    from 1e21 upwards it prints the number itself. *)
Definition toFixed (x : R) (digits : nat) : R :=
  let a := Rabs x in
  let scale := 10 ^ digits in
  if leb 1e21 a then x
  else
    let n := IZR (Zfloor (a * scale + / 2)) in
    if ltb x 0 then - (n / scale) else n / scale.
End Num.

Infix "<?" := Num.ltb (at level 70, no associativity) : R_scope.
Infix "<=?" := Num.leb (at level 70, no associativity) : R_scope.
Infix ">?" := Num.gtb (at level 70, no associativity) : R_scope.
Infix ">=?" := Num.geb (at level 70, no associativity) : R_scope.

(* ------------------------------------------------------------------ *)
(** ** Percentile engine ([lib/stats.ts]) *)

Module Stats.
Import Num.
Local Open Scope R_scope.

(** Abramowitz-Stegun 7.1.26, evaluated by Horner's rule. *)
Definition erf (x0 : R) : R :=
  let sign := if x0 >=? 0 then 1 else -1 in
  let x := Math_abs x0 in
  let a1 := 0.254829592 in
  let a2 := -0.284496736 in
  let a3 := 1.421413741 in
  let a4 := -1.453152027 in
  let a5 := 1.061405429 in
  let p := 0.3275911 in
  let t := 1.0 / (1.0 + p * x) in
  let y := 1.0 - (((((a5 * t + a4) * t) + a3) * t + a2) * t + a1) * t
                  * Math_exp (- x * x) in
  sign * y.

Definition normalCDF (z : R) : R :=
  0.5 * (1 + erf (z / Math_sqrt 2)).

Definition computePercentile (value mean stddev : R) : R :=
  if stddev <=? 0 then 50
  else
    let z := (value - mean) / stddev in
    Math_round (normalCDF z * 100).

Record Point := { pt_x : R; pt_y : R }.

(** The abscissa of sample [i] and the Gaussian density at [x], as the loop
    body of [normalCurvePoints] computes them before rounding. *)
Definition curveX (mean stddev : R) (numPoints i : nat) : R :=
  let minX := mean - 3.5 * stddev in
  let maxX := mean + 3.5 * stddev in
  let step := (maxX - minX) / (INR numPoints - 1) in
  minX + INR i * step.

Definition density (mean stddev x : R) : R :=
  let exponent := - ((x - mean) ^ 2) / (2 * stddev ^ 2) in
  (1 / (stddev * Math_sqrt (2 * Math_PI))) * Math_exp exponent.

Definition normalCurvePoints (mean stddev : R) (numPoints : nat)
  : list Point :=
  map (fun i =>
         let x := curveX mean stddev numPoints i in
         let y := density mean stddev x in
         {| pt_x := toFixed x 4; pt_y := toFixed y 6 |})
      (seq 0 numPoints).
End Stats.

(* ------------------------------------------------------------------ *)
(** ** Results of JavaScript calls *)

Inductive Js (A : Type) : Type :=
| Ok (a : A)
| Throw (msg : string).
Arguments Throw {A} msg.

Definition bind {A B : Type} (c : Js A) (k : A -> Js B) : Js B :=
  match c with
  | Ok a => k a
  | Throw msg => Throw msg
  end.

Notation "x <- c ;; k" := (bind c (fun x => k))
  (at level 61, c at next level, right associativity).

(* ------------------------------------------------------------------ *)
(** ** Scan modes ([lib/scanMode.ts]) *)

Inductive ScanMode : Type :=
| scan_face | scan_upper_body | scan_full_body | scan_chest.

(** [CameraMode = ScanMode | "chest-front" | "chest-side"]. *)
Inductive CameraMode : Type :=
| of_scan (m : ScanMode) | chest_front | chest_side.

(* ------------------------------------------------------------------ *)
(** ** Arithmetic interface of the frame averager *)

Class Arith (N : Type) : Type := {
  num_zero : N;
  num_add : N -> N -> N;
  num_div : N -> N -> N;
  (** the conversion of [frames.length] to a number *)
  num_of_nat : nat -> N
}.

#[export] Instance Arith_R : Arith R := {
  num_zero := 0%R;
  num_add := Rplus;
  num_div := Rdiv;
  num_of_nat := INR
}.

(** binary64, round-to-nearest-even: what the program runs on.  A length
    below 2^53 converts exactly. *)
#[export] Instance Arith_binary64 : Arith PrimFloat.float := {
  num_zero := PrimFloat.zero;
  num_add := PrimFloat.add;
  num_div := PrimFloat.div;
  num_of_nat := fun n => PrimFloat.of_uint63 (Uint63.of_Z (Z.of_nat n))
}.

(* ------------------------------------------------------------------ *)
(** ** Arithmetic interface of scaling, circumference and chart marker

    The functions that only add, subtract, multiply, divide, compare, take
    a square root or an absolute value and call [Math.round] are written
    once over this interface.  They are read at the reals, which is exact
    arithmetic, and at binary64, which is the arithmetic the program runs
    on and which the kernel's floats evaluate. *)

Class Number (N : Type) : Type := {
  num_arith :: Arith N;
  num_sub : N -> N -> N;
  num_mul : N -> N -> N;
  (** [Math.abs], [Math.sqrt], [Math.round] *)
  num_abs : N -> N;
  num_sqrt : N -> N;
  num_round : N -> N;
  (** [x < y], [x <= y] *)
  num_ltb : N -> N -> bool;
  num_leb : N -> N -> bool;
  (** an integer literal *)
  num_of_Z : Z -> N;
  (** [Math.PI] *)
  num_PI : N
}.

(** The decimal literal [m / d] for a power of ten [d], as in [0.56 =
    56 / 100].  In binary64 the division of two integers below 2^53 is the
    binary64 number nearest to the quotient, which is what the literal
    denotes. *)
Definition num_decimal {N : Type} `{Number N} (m d : Z) : N :=
  num_div (num_of_Z m) (num_of_Z d).

Declare Scope num_scope.
Delimit Scope num_scope with num.
Infix "+" := num_add : num_scope.
Infix "-" := num_sub : num_scope.
Infix "*" := num_mul : num_scope.
Infix "/" := num_div : num_scope.
Notation "x <? y" := (num_ltb x y) (at level 70, no associativity)
  : num_scope.
Notation "x <=? y" := (num_leb x y) (at level 70, no associativity)
  : num_scope.
Notation "x >? y" := (num_ltb y x) (at level 70, no associativity)
  : num_scope.
Notation "x >=? y" := (num_leb y x) (at level 70, no associativity)
  : num_scope.

#[export] Instance Number_R : Number R := {
  num_arith := Arith_R;
  num_sub := Rminus;
  num_mul := Rmult;
  num_abs := Num.Math_abs;
  num_sqrt := Num.Math_sqrt;
  num_round := Num.Math_round;
  num_ltb := Num.ltb;
  num_leb := Num.leb;
  num_of_Z := IZR;
  num_PI := Num.Math_PI
}.

(** *** binary64 *)

Module Binary64.
Import PrimFloat.
#[local] Set Warnings "-inexact-float".
Local Open Scope float_scope.

(** From 2^52 on every binary64 number is an integer. *)
Definition TWO_52 : float := 4503599627370496.

(** The largest integer not above [a], for [0 <= a < 2^52]: adding and
    subtracting 2^52 rounds [a] to the nearest integer, exactly. *)
Definition floor_of_small (a : float) : float :=
  let nearest := (a + TWO_52) - TWO_52 in
  if a <? nearest then nearest - 1 else nearest.

(** [Math.round]: NaN, the infinities and the integers are returned as they
    are; every other number goes to the nearest integer, a tie to the one
    towards +infinity; a result of zero keeps the sign of the argument. *)
Definition Math_round (x : float) : float :=
  let a := abs x in
  if negb (a <? TWO_52) then x
  else
    let below := floor_of_small a in
    if below =? a then x
    else if 0 <? x then
      if 0.5 <=? a - below then below + 1 else below
    else
      - (if 0.5 <? a - below then below + 1 else below).

(** An integer literal (below 2^63 in magnitude; exact up to 2^53). *)
Definition of_Z (z : Z) : float :=
  match z with
  | Z0 => 0
  | Zpos _ => of_uint63 (Uint63.of_Z z)
  | Zneg p => - of_uint63 (Uint63.of_Z (Zpos p))
  end.

(** [Math.PI], the binary64 number nearest to pi. *)
Definition Math_PI : float := 0x1.921fb54442d18p+1.

(** Half of [Number.MAX_VALUE], 8.98846567431158e307. *)
Definition HALF_MAX : float := 0x1.fffffffffffffp+1022.

(** The real number a finite binary64 number stands for (0 for NaN and the
    infinities). *)
Definition to_R (x : float) : R :=
  match FloatOps.Prim2SF x with
  | SpecFloat.S754_finite s m e =>
      ((if s then -1 else 1) * IZR (Zpos m) * powerRZ 2 e)%R
  | _ => 0%R
  end.
End Binary64.

#[export] Instance Number_binary64 : Number PrimFloat.float := {
  num_arith := Arith_binary64;
  num_sub := PrimFloat.sub;
  num_mul := PrimFloat.mul;
  num_abs := PrimFloat.abs;
  num_sqrt := PrimFloat.sqrt;
  num_round := Binary64.Math_round;
  num_ltb := PrimFloat.ltb;
  num_leb := PrimFloat.leb;
  num_of_Z := Binary64.of_Z;
  num_PI := Binary64.Math_PI
}.

(** Reading the interface at the reals. *)
Ltac num_R :=
  cbv [num_sub num_mul num_abs num_sqrt num_round num_ltb num_leb num_of_Z
       num_PI num_arith num_add num_div num_zero num_of_nat num_decimal
       Number_R Arith_R] in *.

(* ------------------------------------------------------------------ *)
(** ** Measurements ([lib/measurements.ts]) *)

Record Landmark : Type := {
  lm_x : R;
  lm_y : R;
  lm_z : option R;
  lm_visibility : option R
}.

Record FaceMeasurements (N : Type) : Type := {
  earToEarPx : N;
  innerEyeSpacingPx : N;
  faceHeightPx : N;
  interocularRatio : N;
  facialWidthRatio : N
}.

Record RawMeasurements (N : Type) : Type := {
  shoulderWidthPx : N;
  hipWidthPx : N;
  legLengthPx : N;
  torsoLengthPx : N;
  armLengthPx : N;
  wingspanPx : N;
  bodyHeightPx : N
}.

Record Measurements (N : Type) : Type := {
  shoulderWidthCm : N;
  hipWidthCm : N;
  legLengthCm : N;
  torsoLengthCm : N;
  armLengthCm : N;
  wingspanCm : N;
  shoulderToHipRatio : N;
  legToTorsoRatio : N;
  armspanToHeightRatio : N;
  scaleFactor : N;
  face : option (FaceMeasurements N);
  chestCircumferenceCm : option N;
  waistCircumferenceCm : option N;
  scanMode : option ScanMode
}.

Record FrameQuality : Type := { valid : bool; reason : string }.

Module Measure.
Import Num.
Local Open Scope string_scope.
Local Open Scope R_scope.

Definition VISIBILITY_THRESHOLD : R := 0.5.

Definition FULL_BODY_LANDMARKS : list nat := [0; 11; 12; 23; 24; 27; 28]%nat.
Definition UPPER_BODY_LANDMARKS : list nat := [11; 12; 23; 24; 15; 16]%nat.
Definition FACE_LANDMARKS : list nat := [0; 7; 8; 1; 4]%nat.

(** [landmarks[idx]]: [None] is [undefined]. *)
Definition at_index (landmarks : list Landmark) (idx : nat)
  : option Landmark := nth_error landmarks idx.

(** Property access [lm.f]; on [undefined] it throws. *)
Definition prop (f : Landmark -> R) (lm : option Landmark) : Js R :=
  match lm with
  | Some l => Ok (f l)
  | None => Throw "TypeError"
  end.

Definition dist (a b : option Landmark) (width height : R) : Js R :=
  ax <- prop lm_x a;; bx <- prop lm_x b;;
  let dx := (ax - bx) * width in
  ay <- prop lm_y a;; by_ <- prop lm_y b;;
  let dy := (ay - by_) * height in
  Ok (Math_sqrt (dx * dx + dy * dy)).

Definition midpoint (a b : option Landmark) : Js (option Landmark) :=
  ax <- prop lm_x a;; bx <- prop lm_x b;;
  ay <- prop lm_y a;; by_ <- prop lm_y b;;
  Ok (Some {| lm_x := (ax + bx) / 2; lm_y := (ay + by_) / 2;
              lm_z := None; lm_visibility := None |}).

Definition isVisible (lm : Landmark) : bool :=
  match lm_visibility lm with
  | None => true
  | Some v => v >=? VISIBILITY_THRESHOLD
  end.

(** The loop [for (const idx of REQUIRED) { if (!lm || !isVisible(lm))
    return ... }] runs to its end exactly when this holds. *)
Definition allVisible (landmarks : list Landmark) (required : list nat)
  : bool :=
  forallb (fun idx => match at_index landmarks idx with
                      | Some lm => isVisible lm
                      | None => false
                      end) required.

Definition reject (msg : string) : Js FrameQuality :=
  Ok {| valid := false; reason := msg |}.
Definition accept (msg : string) : Js FrameQuality :=
  Ok {| valid := true; reason := msg |}.

Definition checkFaceQuality (landmarks : list Landmark) : Js FrameQuality :=
  if negb (allVisible landmarks FACE_LANDMARKS)
  then reject "Face not fully visible"
  else
    let nose := at_index landmarks 0 in
    let leftEar := at_index landmarks 7 in
    let rightEar := at_index landmarks 8 in
    lex <- prop lm_x leftEar;; rex <- prop lm_x rightEar;;
    let faceWidth := Math_abs (lex - rex) in
    if faceWidth <? 0.12 then reject "Move closer to the camera"
    else if faceWidth >? 0.70 then reject "Move back from the camera"
    else
      nx <- prop lm_x nose;;
      if (nx <? 0.12) || (nx >? 0.88) then reject "Centre your face in frame"
      else
        ny <- prop lm_y nose;;
        if ny <? 0.08 then reject "Tilt face down slightly"
        else if ny >? 0.88 then reject "Tilt face up slightly"
        else accept "Good — hold still".

Definition checkUpperBodyQuality (landmarks : list Landmark)
  : Js FrameQuality :=
  if negb (allVisible landmarks UPPER_BODY_LANDMARKS)
  then reject "Upper body not fully visible"
  else
    let leftShoulder := at_index landmarks 11 in
    let rightShoulder := at_index landmarks 12 in
    let leftHip := at_index landmarks 23 in
    let rightHip := at_index landmarks 24 in
    let margin := 0.05 in
    lsy <- prop lm_y leftShoulder;; rsy <- prop lm_y rightShoulder;;
    let shoulderY := Math_min lsy rsy in
    if shoulderY <? margin then reject "Move back — shoulders cut off"
    else
      lhy <- prop lm_y leftHip;; rhy <- prop lm_y rightHip;;
      let hipY := Math_max lhy rhy in
      if hipY >? 1 - margin then reject "Move back — hips cut off"
      else
        let torsoFraction := hipY - shoulderY in
        if torsoFraction <? 0.22 then reject "Move closer to the camera"
        else accept "Good framing — hold still".

Definition checkSideProfileQuality (landmarks : list Landmark)
  : Js FrameQuality :=
  if negb (allVisible landmarks UPPER_BODY_LANDMARKS)
  then reject "Upper body not fully visible"
  else
    let nose := at_index landmarks 0 in
    let leftShoulder := at_index landmarks 11 in
    let rightShoulder := at_index landmarks 12 in
    let leftHip := at_index landmarks 23 in
    let rightHip := at_index landmarks 24 in
    let margin := 0.05 in
    lsy <- prop lm_y leftShoulder;; rsy <- prop lm_y rightShoulder;;
    if Math_min lsy rsy <? margin
    then reject "Move back — shoulders cut off"
    else
      lhy <- prop lm_y leftHip;; rhy <- prop lm_y rightHip;;
      if Math_max lhy rhy >? 1 - margin
      then reject "Move back — hips cut off"
      else
        lsx <- prop lm_x leftShoulder;; rsx <- prop lm_x rightShoulder;;
        let shoulderMidX := (lsx + rsx) / 2 in
        nx <- prop lm_x nose;;
        let noseDeviation := Math_abs (nx - shoulderMidX) in
        if noseDeviation <? 0.08
        then reject "Turn sideways — show your profile"
        else if Math_abs (lsx - rsx) <? 0.02
        then reject "Rotate slightly so both shoulders are detected"
        else accept "Good profile — hold still".

Definition checkFullBodyQuality (landmarks : list Landmark)
  : Js FrameQuality :=
  if negb (allVisible landmarks FULL_BODY_LANDMARKS)
  then reject "Key body parts not visible"
  else
    let margin := 0.08 in
    let nose := at_index landmarks 0 in
    let leftAnkle := at_index landmarks 27 in
    let rightAnkle := at_index landmarks 28 in
    ny <- prop lm_y nose;;
    if ny <? margin then reject "Move back — head cut off"
    else
      lay <- prop lm_y leftAnkle;; ray <- prop lm_y rightAnkle;;
      if Math_max lay ray >? 1 - margin
      then reject "Move back — feet cut off"
      else
        let bodyHeightFraction := Math_max lay ray - ny in
        if bodyHeightFraction <? 0.4
        then reject "Move closer — too far away"
        else if bodyHeightFraction >? 0.98
        then reject "Move back — too close"
        else accept "Good framing — hold still".

Definition checkLandmarkQualityForMode
    (landmarks : list Landmark) (frameWidth frameHeight : R)
    (mode : CameraMode) : Js FrameQuality :=
  if (List.length landmarks <? 33)%nat then reject "Body not detected"
  else
    match mode with
    | of_scan scan_face => checkFaceQuality landmarks
    | of_scan scan_upper_body | chest_front =>
        checkUpperBodyQuality landmarks
    | chest_side => checkSideProfileQuality landmarks
    | _ => checkFullBodyQuality landmarks
    end.

(** *** Extraction *)

Definition extractFaceMeasurements
    (landmarks : list Landmark) (frameWidth frameHeight : R)
  : Js (FaceMeasurements R) :=
  let lm := landmarks in
  let w := frameWidth in
  let h := frameHeight in
  let leftEar := at_index lm 7 in
  let rightEar := at_index lm 8 in
  let leftEyeInner := at_index lm 1 in
  let rightEyeInner := at_index lm 4 in
  let mouthLeft := at_index lm 9 in
  let mouthRight := at_index lm 10 in
  earToEarPx <- dist leftEar rightEar w h;;
  innerEyeSpacingPx <- dist leftEyeInner rightEyeInner w h;;
  earMid <- midpoint leftEar rightEar;;
  mouthMid <- midpoint mouthLeft mouthRight;;
  d <- dist earMid mouthMid w h;;
  let faceHeightPx := d * 1.4 in
  Ok {| earToEarPx := earToEarPx;
        innerEyeSpacingPx := innerEyeSpacingPx;
        faceHeightPx := faceHeightPx;
        interocularRatio :=
          Math_round ((innerEyeSpacingPx / earToEarPx) * 1000) / 1000;
        facialWidthRatio :=
          Math_round ((earToEarPx / faceHeightPx) * 1000) / 1000 |}.

Definition extractRawMeasurements
    (landmarks : list Landmark) (frameWidth frameHeight : R)
  : Js (RawMeasurements R) :=
  let lm := landmarks in
  let w := frameWidth in
  let h := frameHeight in
  let leftShoulder := at_index lm 11 in
  let rightShoulder := at_index lm 12 in
  let leftHip := at_index lm 23 in
  let rightHip := at_index lm 24 in
  let leftAnkle := at_index lm 27 in
  let rightAnkle := at_index lm 28 in
  let leftWrist := at_index lm 15 in
  let rightWrist := at_index lm 16 in
  let nose := at_index lm 0 in
  shoulderMid <- midpoint leftShoulder rightShoulder;;
  hipMid <- midpoint leftHip rightHip;;
  ankleMid <- midpoint leftAnkle rightAnkle;;
  shoulderWidthPx <- dist leftShoulder rightShoulder w h;;
  hipWidthPx <- dist leftHip rightHip w h;;
  legLengthPx <- dist hipMid ankleMid w h;;
  torsoLengthPx <- dist shoulderMid hipMid w h;;
  leftArmLen <- dist leftShoulder leftWrist w h;;
  rightArmLen <- dist rightShoulder rightWrist w h;;
  let armLengthPx := (leftArmLen + rightArmLen) / 2 in
  wingspanPx <- dist leftWrist rightWrist w h;;
  let leftEar := at_index lm 7 in
  let rightEar := at_index lm 8 in
  earMid <- midpoint leftEar rightEar;;
  earToNosePx <- dist earMid nose w h;;
  ny <- prop lm_y nose;;
  let headTopY := ny - (earToNosePx / h) * 1.3 in
  nx <- prop lm_x nose;;
  let headTop := Some {| lm_x := nx; lm_y := headTopY;
                         lm_z := None; lm_visibility := None |} in
  bodyHeightPx <- dist headTop ankleMid w h;;
  Ok {| shoulderWidthPx := shoulderWidthPx;
        hipWidthPx := hipWidthPx;
        legLengthPx := legLengthPx;
        torsoLengthPx := torsoLengthPx;
        armLengthPx := armLengthPx;
        wingspanPx := wingspanPx;
        bodyHeightPx := bodyHeightPx |}.

(** Upper body: like full body but skips the ankle-dependent fields. *)
Definition extractUpperBodyMeasurements
    (landmarks : list Landmark) (frameWidth frameHeight : R)
  : Js (RawMeasurements R) :=
  let lm := landmarks in
  let w := frameWidth in
  let h := frameHeight in
  let leftShoulder := at_index lm 11 in
  let rightShoulder := at_index lm 12 in
  let leftHip := at_index lm 23 in
  let rightHip := at_index lm 24 in
  let leftWrist := at_index lm 15 in
  let rightWrist := at_index lm 16 in
  let nose := at_index lm 0 in
  shoulderMid <- midpoint leftShoulder rightShoulder;;
  hipMid <- midpoint leftHip rightHip;;
  shoulderWidthPx <- dist leftShoulder rightShoulder w h;;
  hipWidthPx <- dist leftHip rightHip w h;;
  torsoLengthPx <- dist shoulderMid hipMid w h;;
  leftArmLen <- dist leftShoulder leftWrist w h;;
  rightArmLen <- dist rightShoulder rightWrist w h;;
  let armLengthPx := (leftArmLen + rightArmLen) / 2 in
  wingspanPx <- dist leftWrist rightWrist w h;;
  let leftEar := at_index lm 7 in
  let rightEar := at_index lm 8 in
  earMid <- midpoint leftEar rightEar;;
  earToNosePx <- dist earMid nose w h;;
  ny <- prop lm_y nose;;
  let headTopY := ny - (earToNosePx / h) * 1.3 in
  nx <- prop lm_x nose;;
  let headTop := Some {| lm_x := nx; lm_y := headTopY;
                         lm_z := None; lm_visibility := None |} in
  bodyHeightPx <- dist headTop hipMid w h;;
  Ok {| shoulderWidthPx := shoulderWidthPx;
        hipWidthPx := hipWidthPx;
        legLengthPx := 0;
        torsoLengthPx := torsoLengthPx;
        armLengthPx := armLengthPx;
        wingspanPx := wingspanPx;
        bodyHeightPx := bodyHeightPx |}.

(** *** Scaling *)

Section Scaling.
Context {N : Type} `{Number N}.
Local Open Scope num_scope.

Definition r (n : N) : N := num_round (n * num_of_Z 10) / num_of_Z 10.
Definition r2 (n : N) : N := num_round (n * num_of_Z 100) / num_of_Z 100.

Definition scaleMeasurements
    (raw : RawMeasurements N) (userHeightCm : N) (mode : ScanMode)
  : Measurements N :=
  let effectiveHeight :=
    match mode with
    | scan_upper_body => userHeightCm * num_decimal 56 100
    | _ => userHeightCm
    end in
  let scaleFactor :=
    if bodyHeightPx raw >? num_of_Z 0
    then effectiveHeight / bodyHeightPx raw
    else num_of_Z 1 in
  let shoulderWidthCm := r (shoulderWidthPx raw * scaleFactor) in
  let hipWidthCm := r (hipWidthPx raw * scaleFactor) in
  let legLengthCm := r (legLengthPx raw * scaleFactor) in
  let torsoLengthCm := r (torsoLengthPx raw * scaleFactor) in
  let armLengthCm := r (armLengthPx raw * scaleFactor) in
  let wingspanCm := r (wingspanPx raw * scaleFactor) in
  {| shoulderWidthCm := shoulderWidthCm;
     hipWidthCm := hipWidthCm;
     legLengthCm := legLengthCm;
     torsoLengthCm := torsoLengthCm;
     armLengthCm := armLengthCm;
     wingspanCm := wingspanCm;
     shoulderToHipRatio :=
       if hipWidthCm >? num_of_Z 0
       then r2 (shoulderWidthCm / hipWidthCm) else num_of_Z 0;
     legToTorsoRatio :=
       if torsoLengthCm >? num_of_Z 0
       then r2 (legLengthCm / torsoLengthCm) else num_of_Z 0;
     armspanToHeightRatio :=
       if userHeightCm >? num_of_Z 0
       then r2 (wingspanCm / userHeightCm) else num_of_Z 0;
     scaleFactor := scaleFactor;
     face := None;
     chestCircumferenceCm := None;
     waistCircumferenceCm := None;
     scanMode := Some mode |}.
End Scaling.

(** *** Smoothing *)

Section Averaging.
Context {N : Type} `{Arith N}.

(** One turn of [for (const f of frames) { sum.field += f.field; .. }]. *)
Definition addFrame (sum f : RawMeasurements N) : RawMeasurements N :=
  {| shoulderWidthPx := num_add (shoulderWidthPx sum) (shoulderWidthPx f);
     hipWidthPx := num_add (hipWidthPx sum) (hipWidthPx f);
     legLengthPx := num_add (legLengthPx sum) (legLengthPx f);
     torsoLengthPx := num_add (torsoLengthPx sum) (torsoLengthPx f);
     armLengthPx := num_add (armLengthPx sum) (armLengthPx f);
     wingspanPx := num_add (wingspanPx sum) (wingspanPx f);
     bodyHeightPx := num_add (bodyHeightPx sum) (bodyHeightPx f) |}.

Definition averageRawMeasurements (frames : list (RawMeasurements N))
  : Js (RawMeasurements N) :=
  if (List.length frames =? 0)%nat then Throw "No frames to average"
  else
    let sum0 :=
      {| shoulderWidthPx := num_zero; hipWidthPx := num_zero;
         legLengthPx := num_zero; torsoLengthPx := num_zero;
         armLengthPx := num_zero; wingspanPx := num_zero;
         bodyHeightPx := num_zero |} in
    let sum := fold_left addFrame frames sum0 in
    let n := num_of_nat (List.length frames) in
    Ok {| shoulderWidthPx := num_div (shoulderWidthPx sum) n;
          hipWidthPx := num_div (hipWidthPx sum) n;
          legLengthPx := num_div (legLengthPx sum) n;
          torsoLengthPx := num_div (torsoLengthPx sum) n;
          armLengthPx := num_div (armLengthPx sum) n;
          wingspanPx := num_div (wingspanPx sum) n;
          bodyHeightPx := num_div (bodyHeightPx sum) n |}.
End Averaging.

Definition averageFaceMeasurements (frames : list (FaceMeasurements R))
  : Js (FaceMeasurements R) :=
  if (List.length frames =? 0)%nat then Throw "No frames to average"
  else
    let n := INR (List.length frames) in
    let sum :=
      fold_left
        (fun acc f =>
           {| earToEarPx := earToEarPx acc + earToEarPx f;
              innerEyeSpacingPx :=
                innerEyeSpacingPx acc + innerEyeSpacingPx f;
              faceHeightPx := faceHeightPx acc + faceHeightPx f;
              interocularRatio := interocularRatio acc + interocularRatio f;
              facialWidthRatio :=
                facialWidthRatio acc + facialWidthRatio f |})
        frames
        {| earToEarPx := 0; innerEyeSpacingPx := 0; faceHeightPx := 0;
           interocularRatio := 0; facialWidthRatio := 0 |} in
    Ok {| earToEarPx := earToEarPx sum / n;
          innerEyeSpacingPx := innerEyeSpacingPx sum / n;
          faceHeightPx := faceHeightPx sum / n;
          interocularRatio :=
            Math_round ((interocularRatio sum / n) * 1000) / 1000;
          facialWidthRatio :=
            Math_round ((facialWidthRatio sum / n) * 1000) / 1000 |}.

(** *** Ellipse circumference (Ramanujan) *)

Section Circumference.
Context {N : Type} `{Number N}.
Local Open Scope num_scope.

(** [x ** 2] is the product [x * x]. *)
Definition computeChestCircumference (semiWidthCm semiDepthCm : N) : N :=
  if (semiWidthCm <=? num_of_Z 0) || (semiDepthCm <=? num_of_Z 0)
  then num_of_Z 0
  else
    let a := semiWidthCm in
    let b := semiDepthCm in
    let h := ((a - b) * (a - b)) / ((a + b) * (a + b)) in
    num_round
      (num_PI * (a + b)
       * (num_of_Z 1
          + (num_of_Z 3 * h)
            / (num_of_Z 10 + num_sqrt (num_of_Z 4 - num_of_Z 3 * h)))
       * num_of_Z 10)
    / num_of_Z 10.

Definition computeWaistCircumference (frontHipWidthCm sideDepthCm : N) : N :=
  let semiWidth := (frontHipWidthCm * num_decimal 88 100) / num_of_Z 2 in
  let semiDepth := sideDepthCm / num_of_Z 2 in
  computeChestCircumference semiWidth semiDepth.
End Circumference.
End Measure.

(* ------------------------------------------------------------------ *)
(** ** The pose-detection loop ([components/CameraView.tsx])

    One call of [tick] that gets as far as [processFrame] is a processed
    frame.  The component state the loop writes is kept in [CameraState];
    [goodFrameCount] (the rendered copy of [goodFrameCountRef.current]) and
    [landmarks] (the overlay) are written but never read by the loop and are
    left out. *)

Record CameraState : Type := {
  goodFrameCountRef : Z;
  canCapture : bool;
  isGoodFrame : bool;
  qualityMsg : string;
  rawFrameBuffer : list (RawMeasurements R);
  faceFrameBuffer : list (FaceMeasurements R)
}.

(** What one processed frame reads from the outside: the live video size
    and the result of [processFrame] ([None] is [null]: no pose). *)
Record Frame : Type := {
  liveW : R;
  liveH : R;
  result : option (list Landmark)
}.

Module Camera.
Import Num Measure.
Local Open Scope string_scope.
Local Open Scope Z_scope.

Definition MAX_BUFFER : nat := 60.
Definition AUTO_CAPTURE_COUNTDOWN : Z := 3.

(** The state a freshly mounted component starts the loop in. *)
Definition initial : CameraState :=
  {| goodFrameCountRef := 0;
     canCapture := false;
     isGoodFrame := false;
     qualityMsg := "Position yourself in frame";
     rawFrameBuffer := [];
     faceFrameBuffer := [] |}.

(** [buf.push(x); if (buf.length > MAX_BUFFER) buf.shift();] *)
Definition pushBounded {A : Type} (buf : list A) (x : A) : list A :=
  let pushed := (buf ++ [x])%list in
  if (MAX_BUFFER <? List.length pushed)%nat then tl pushed else pushed.

Definition tick (mode : CameraMode) (requiredGoodFrames : Z)
    (st : CameraState) (frame : Frame) : Js CameraState :=
  match result frame with
  | None =>
      Ok {| goodFrameCountRef := 0;
            canCapture := false;
            isGoodFrame := false;
            qualityMsg := "Body not detected — face the camera";
            rawFrameBuffer := [];
            faceFrameBuffer := [] |}
  | Some landmarks =>
      q <- checkLandmarkQualityForMode
             landmarks (liveW frame) (liveH frame) mode;;
      let msg := if valid q then "Good — hold still" else reason q in
      if valid q then
        buffers <-
          match mode with
          | of_scan scan_face =>
              f <- extractFaceMeasurements
                     landmarks (liveW frame) (liveH frame);;
              Ok (rawFrameBuffer st, pushBounded (faceFrameBuffer st) f)
          | _ =>
              raw <-
                match mode with
                | of_scan scan_full_body =>
                    extractRawMeasurements
                      landmarks (liveW frame) (liveH frame)
                | _ =>
                    extractUpperBodyMeasurements
                      landmarks (liveW frame) (liveH frame)
                end;;
              Ok (pushBounded (rawFrameBuffer st) raw, faceFrameBuffer st)
          end;;
        let count :=
          Z.min (goodFrameCountRef st + 1) requiredGoodFrames in
        Ok {| goodFrameCountRef := count;
              canCapture :=
                if count >=? requiredGoodFrames then true
                else canCapture st;
              isGoodFrame := true;
              qualityMsg := msg;
              rawFrameBuffer := fst buffers;
              faceFrameBuffer := snd buffers |}
      else
        let count := Z.max 0 (goodFrameCountRef st - 2) in
        Ok {| goodFrameCountRef := count;
              canCapture :=
                if count <? requiredGoodFrames then false
                else canCapture st;
              isGoodFrame := false;
              qualityMsg := msg;
              rawFrameBuffer := rawFrameBuffer st;
              faceFrameBuffer := faceFrameBuffer st |}
  end.

(** A scan session: the frames of one mounted component, in order. *)
Fixpoint run (mode : CameraMode) (requiredGoodFrames : Z)
    (st : CameraState) (frames : list Frame) : Js CameraState :=
  match frames with
  | [] => Ok st
  | frame :: rest =>
      st' <- tick mode requiredGoodFrames st frame;;
      run mode requiredGoodFrames st' rest
  end.

(** How the loop treats a frame: no pose, a pose the validator rejects,
    or a pose it accepts. *)
Inductive Verdict : Type := NoPose | Rejected | Accepted.

Definition verdict (mode : CameraMode) (frame : Frame) : Verdict :=
  match result frame with
  | None => NoPose
  | Some landmarks =>
      match checkLandmarkQualityForMode
              landmarks (liveW frame) (liveH frame) mode with
      | Ok q => if valid q then Accepted else Rejected
      | Throw _ => Rejected
      end
  end.
End Camera.

(* ------------------------------------------------------------------ *)
(** ** Vocabulary of the statements, and sample inputs *)

Section Vocabulary.
Import Num Measure Camera.
Local Open Scope string_scope.
Local Open Scope R_scope.

(** [y] is [x] rounded to one decimal: a whole number of tenths, the
    nearest one to [x] (the upper one on a tie). *)
Definition rounded_to_1_decimal (x y : R) : Prop :=
  exists k : Z, y = IZR k / 10 /\ x - 0.05 < y <= x + 0.05.

(** A frame that measures only a shoulder width. *)
Definition frameOfWidth {N : Type} `{Arith N} (w : N) : RawMeasurements N :=
  {| shoulderWidthPx := w; hipWidthPx := num_zero; legLengthPx := num_zero;
     torsoLengthPx := num_zero; armLengthPx := num_zero;
     wingspanPx := num_zero; bodyHeightPx := num_zero |}.

(** A frame that measures a shoulder width and a body height. *)
Definition shoulderShot {N : Type} `{Arith N} (w bodyHeight : N)
  : RawMeasurements N :=
  {| shoulderWidthPx := w; hipWidthPx := num_zero; legLengthPx := num_zero;
     torsoLengthPx := num_zero; armLengthPx := num_zero;
     wingspanPx := num_zero; bodyHeightPx := bodyHeight |}.

(** The height [scaleMeasurements] scales to. *)
Definition effectiveHeight {N : Type} `{Number N}
    (userHeightCm : N) (mode : ScanMode) : N :=
  match mode with
  | scan_upper_body => num_mul userHeightCm (num_decimal 56 100)
  | _ => userHeightCm
  end.

(** A full-body capture: 175 cm over a 350 px body height is 0.5 cm/px. *)
Definition sampleRaw : RawMeasurements R :=
  {| shoulderWidthPx := 57.6; hipWidthPx := 50; legLengthPx := 160;
     torsoLengthPx := 100; armLengthPx := 110; wingspanPx := 300;
     bodyHeightPx := 350 |}.

(** A detected landmark with visibility 0.99. *)
Definition seen (x y : R) : Landmark :=
  {| lm_x := x; lm_y := y; lm_z := None; lm_visibility := Some 0.99 |}.

(** 33 landmarks: the nose at height [noseY], every other point at
    [y = 0.8]. *)
Definition poseWithNoseAt (noseY : R) : list Landmark :=
  seen 0.5 noseY :: repeat (seen 0.5 0.8) 32.

Definition headCutFrame : Frame :=
  {| liveW := 640; liveH := 480; result := Some (poseWithNoseAt 0.05) |}.

Definition goodFrame : Frame :=
  {| liveW := 640; liveH := 480; result := Some (poseWithNoseAt 0.1) |}.

Definition noPoseFrame : Frame :=
  {| liveW := 640; liveH := 480; result := None |}.

(** A session at the threshold whose raw buffer is full. *)
Definition fullBufferState : CameraState :=
  {| goodFrameCountRef := 30;
     canCapture := true;
     isGoodFrame := true;
     qualityMsg := "Good — hold still";
     rawFrameBuffer := repeat sampleRaw 60;
     faceFrameBuffer := [] |}.
End Vocabulary.

Section CameraVocabulary.
Import Camera.
Local Open Scope Z_scope.

(** What the state is after one processed frame, by the kind of frame. *)
Definition tick_outcome (mode : CameraMode) (requiredGoodFrames : Z)
    (st : CameraState) (frame : Frame) (st' : CameraState) : Prop :=
  match verdict mode frame with
  | NoPose =>
      goodFrameCountRef st' = 0
      /\ canCapture st' = false
      /\ rawFrameBuffer st' = []
      /\ faceFrameBuffer st' = []
  | Rejected =>
      goodFrameCountRef st' = Z.max 0 (goodFrameCountRef st - 2)
      /\ canCapture st'
         = (if goodFrameCountRef st' <? requiredGoodFrames then false
            else canCapture st)
      /\ rawFrameBuffer st' = rawFrameBuffer st
      /\ faceFrameBuffer st' = faceFrameBuffer st
  | Accepted =>
      goodFrameCountRef st'
      = Z.min (goodFrameCountRef st + 1) requiredGoodFrames
      /\ canCapture st'
         = (if goodFrameCountRef st' >=? requiredGoodFrames then true
            else canCapture st)
      /\ match mode with
         | of_scan scan_face =>
             rawFrameBuffer st' = rawFrameBuffer st
             /\ exists f,
                  faceFrameBuffer st' = pushBounded (faceFrameBuffer st) f
         | _ =>
             faceFrameBuffer st' = faceFrameBuffer st
             /\ exists raw,
                  rawFrameBuffer st' = pushBounded (rawFrameBuffer st) raw
         end
  end.

(** The extractor the loop applies to an accepted frame whose mode is not
    "face": [extractRawMeasurements] in full-body mode,
    [extractUpperBodyMeasurements] otherwise. *)
Definition bodyExtractor (mode : CameraMode)
  : list Landmark -> R -> R -> Js (RawMeasurements R) :=
  match mode with
  | of_scan scan_full_body => Measure.extractRawMeasurements
  | _ => Measure.extractUpperBodyMeasurements
  end.
End CameraVocabulary.

Section StatsVocabulary.
Local Open Scope R_scope.

(** The polynomial factor of [erf], [g t = (a1 + a2 t + .. + a5 t^4) t]. *)
Definition erfPoly (t : R) : R :=
  ((((1.061405429 * t + -1.453152027) * t + 1.421413741) * t
    + -0.284496736) * t + 0.254829592) * t.
End StatsVocabulary.

Module Ordinal.
Local Open Scope string_scope.
Local Open Scope Z_scope.

(** [const s = ["th", "st", "nd", "rd"]]. *)
Definition SUFFIXES : list string := ["th"; "st"; "nd"; "rd"].

(** [s[k]] for an integral number [k]: an element for [k] in 0..3,
    [undefined] for every other index (a negative one included; [-0] is
    the index 0). *)
Definition suffix_at (k : Z) : option string :=
  if k <? 0 then None else nth_error SUFFIXES (Z.to_nat k).

(** [a || b] on an optional string: [undefined] falls through (no suffix is
    the empty string). *)
Definition or_else (a : option string) (b : option string) : option string :=
  match a with
  | Some s => Some s
  | None => b
  end.

(** The integers this model covers: those up to 2^53 in magnitude, which a
    [number] holds exactly and prints digit for digit. *)
Definition MAX_EXACT_INTEGER : Z := 9007199254740992.

(** The decimal digits of an integer, with a leading [-] when negative. *)
Definition digits (n : Z) : string :=
  DecimalString.NilZero.string_of_int (Z.to_int n).

(** The text string concatenation gives a number: the decimal digits of an
    integer up to 2^53 in magnitude.  Larger numbers are not covered (they
    print as the shortest digits that read back as the same binary64 value,
    and with an exponent from 1e21): [None]. *)
Definition toString (n : Z) : option string :=
  if Z.abs n <=? MAX_EXACT_INTEGER then Some (digits n) else None.

(** [s[(v - 20) % 10] || s[v] || s[0]], with [v = n % 100]; [%] is the
    remainder that takes the sign of the dividend. *)
Definition suffixOf (n : Z) : string :=
  let v := Z.rem n 100 in
  match or_else (suffix_at (Z.rem (v - 20) 10))
          (or_else (suffix_at v) (suffix_at 0)) with
  | Some s => s
  | None => EmptyString
  end.

(** [None] only where [toString] does not cover [n]. *)
Definition ordinalSuffix (n : Z) : option string :=
  match toString n with
  | Some text => Some (text ++ suffixOf n)
  | None => None
  end.
End Ordinal.

Section OrdinalVocabulary.
Local Open Scope string_scope.
Local Open Scope Z_scope.

(** The English ordinal suffix of a non-negative integer: "th" when the
    last two digits are 11, 12 or 13, else by the last digit. *)
Definition englishSuffix (n : Z) : string :=
  if (n mod 100 =? 11) || (n mod 100 =? 12) || (n mod 100 =? 13) then "th"
  else if n mod 10 =? 1 then "st"
  else if n mod 10 =? 2 then "nd"
  else if n mod 10 =? 3 then "rd"
  else "th".
End OrdinalVocabulary.

(* ------------------------------------------------------------------ *)
(** ** Badges ([lib/badges.ts], in [src/lib/badges.ts], first part) *)

Record Badge : Type := {
  badge_id : string;
  badge_label : string;
  badge_emoji : string;
  badge_description : string
}.

Module Badges.
Import Num.
Local Open Scope string_scope.
Local Open Scope R_scope.

(** The badge pushed for the shoulder-to-hip ratio. *)
Definition shoulderHipBadge (shr : R) : list Badge :=
  if shr >=? 1.35 then
    [{| badge_id := "broad-shouldered";
        badge_label := "Broad-Shouldered";
        badge_emoji := "🏋️";
        badge_description :=
          "Your shoulders are notably wider relative to your hips." |}]
  else if shr <=? 0.88 then
    [{| badge_id := "wide-hipped";
        badge_label := "Wide-Hipped";
        badge_emoji := "🌊";
        badge_description :=
          "Your hips are notably wider relative to your shoulders." |}]
  else if (shr >=? 1.1) && (shr <? 1.35) then
    [{| badge_id := "athletic-frame";
        badge_label := "Athletic Frame";
        badge_emoji := "⚡";
        badge_description := "You have a classic V-taper proportion." |}]
  else
    [{| badge_id := "balanced-frame";
        badge_label := "Balanced Frame";
        badge_emoji := "⚖️";
        badge_description :=
          "Your shoulders and hips are well-proportioned." |}].

(** The badge pushed for the leg-to-torso ratio. *)
Definition legTorsoBadge (ltr : R) : list Badge :=
  if ltr >=? 1.7 then
    [{| badge_id := "long-legged";
        badge_label := "Long-Legged";
        badge_emoji := "🦒";
        badge_description := "Your legs are long relative to your torso." |}]
  else if ltr <=? 1.25 then
    [{| badge_id := "long-torso";
        badge_label := "Long-Torso";
        badge_emoji := "🐢";
        badge_description :=
          "You have a longer torso relative to your legs." |}]
  else
    [{| badge_id := "proportional-body";
        badge_label := "Proportional Build";
        badge_emoji := "📐";
        badge_description :=
          "Your legs and torso are proportionally balanced." |}].

(** The badge, if any, pushed for the armspan-to-height ratio. *)
Definition armspanBadge (ahr : R) : list Badge :=
  if ahr >=? 1.05 then
    [{| badge_id := "long-reach";
        badge_label := "Long Reach";
        badge_emoji := "🦅";
        badge_description :=
          "Your wingspan exceeds your height — a classic distance-swimmer trait." |}]
  else if ahr <=? 0.95 then
    [{| badge_id := "compact-limbs";
        badge_label := "Compact Build";
        badge_emoji := "🤸";
        badge_description := "Your armspan is shorter than your height." |}]
  else [].

(** The sprinter / long-limb combination. *)
Definition sprinterBadge (ltr ahr : R) : list Badge :=
  if (ltr >=? 1.6) && (ahr >=? 1.02) then
    [{| badge_id := "sprinter-build";
        badge_label := "Sprinter Build";
        badge_emoji := "🏃";
        badge_description :=
          "Long limbs relative to torso — a build associated with speed and reach." |}]
  else [].

(** The four [if] statements push in this order onto the empty array. *)
Definition computeBadges (m : Measurements R) : list Badge :=
  let shr := shoulderToHipRatio m in
  let ltr := legToTorsoRatio m in
  let ahr := armspanToHeightRatio m in
  (shoulderHipBadge shr ++ legTorsoBadge ltr
   ++ armspanBadge ahr ++ sprinterBadge ltr ahr)%list.
End Badges.
Section BadgeVocabulary.
Import Num Badges.
Local Open Scope string_scope.
Local Open Scope R_scope.

(** The ids of the badges, in the order they are pushed. *)
Definition badgeIds (m : Measurements R) : list string :=
  map badge_id (computeBadges m).

(** The ids each of the four [if] statements can push. *)
Definition frameIds (shr : R) : list string :=
  [if shr >=? 1.35 then "broad-shouldered"
   else if shr <=? 0.88 then "wide-hipped"
   else if shr >=? 1.1 then "athletic-frame"
   else "balanced-frame"].

Definition legIds (ltr : R) : list string :=
  [if ltr >=? 1.7 then "long-legged"
   else if ltr <=? 1.25 then "long-torso"
   else "proportional-body"].

Definition armIds (ahr : R) : list string :=
  if ahr >=? 1.05 then ["long-reach"]
  else if ahr <=? 0.95 then ["compact-limbs"] else [].

Definition sprintIds (ltr ahr : R) : list string :=
  if (ltr >=? 1.6) && (ahr >=? 1.02) then ["sprinter-build"] else [].
End BadgeVocabulary.

Section ValidatorVocabulary.
Import Num Measure.
Local Open Scope string_scope.
Local Open Scope R_scope.

(** What the full-body validator demands of the nose and the two ankles,
    each bound loosened by [slack] (tightened by a negative one): the head
    below the top margin, the lower ankle above the bottom margin, and the
    body spanning at least 40% of the frame height. *)
Definition fullBodyFramed (slack : R) (landmarks : list Landmark) : Prop :=
  exists nose leftAnkle rightAnkle,
    at_index landmarks 0 = Some nose
    /\ at_index landmarks 27 = Some leftAnkle
    /\ at_index landmarks 28 = Some rightAnkle
    /\ 0.08 - slack <= lm_y nose
    /\ Rmax (lm_y leftAnkle) (lm_y rightAnkle) <= 0.92 + slack
    /\ 0.4 - slack <= Rmax (lm_y leftAnkle) (lm_y rightAnkle) - lm_y nose.

(** The ears (7, 8) and the corners of the mouth (9, 10) lie in the frame
    and the middle of the mouth is at least 1% of the frame height below
    the middle of the ears. *)
Definition mouthBelowEars (landmarks : list Landmark) : Prop :=
  exists leftEar rightEar mouthLeft mouthRight,
    at_index landmarks 7 = Some leftEar
    /\ at_index landmarks 8 = Some rightEar
    /\ at_index landmarks 9 = Some mouthLeft
    /\ at_index landmarks 10 = Some mouthRight
    /\ 0 <= lm_y leftEar <= 1 /\ 0 <= lm_y rightEar <= 1
    /\ 0 <= lm_y mouthLeft <= 1 /\ 0 <= lm_y mouthRight <= 1
    /\ 0.01 <= (lm_y mouthLeft + lm_y mouthRight) / 2
               - (lm_y leftEar + lm_y rightEar) / 2.

(** 33 landmarks of a face seen from the front: the ears (7, 8) at
    [x = 0.35] and [x = 0.65], the corners of the mouth (9, 10) at
    [y = 0.6], every other point at the centre. *)
Definition facePose : list Landmark :=
  map (fun i => if (i =? 7)%nat then seen 0.35 0.5
                else if (i =? 8)%nat then seen 0.65 0.5
                else if (i =? 9)%nat then seen 0.45 0.6
                else if (i =? 10)%nat then seen 0.55 0.6
                else seen 0.5 0.5) (seq 0 33).

(** Two measurements that agree on every length and ratio (they may differ
    in [scaleFactor]). *)
Definition sameBody (m m' : Measurements R) : Prop :=
  shoulderWidthCm m = shoulderWidthCm m'
  /\ hipWidthCm m = hipWidthCm m'
  /\ legLengthCm m = legLengthCm m'
  /\ torsoLengthCm m = torsoLengthCm m'
  /\ armLengthCm m = armLengthCm m'
  /\ wingspanCm m = wingspanCm m'
  /\ shoulderToHipRatio m = shoulderToHipRatio m'
  /\ legToTorsoRatio m = legToTorsoRatio m'
  /\ armspanToHeightRatio m = armspanToHeightRatio m'.

(** [raw'] is [raw] with every pixel length multiplied by [k]. *)
Definition scaledBy (k : R) (raw raw' : RawMeasurements R) : Prop :=
  shoulderWidthPx raw' = k * shoulderWidthPx raw
  /\ hipWidthPx raw' = k * hipWidthPx raw
  /\ legLengthPx raw' = k * legLengthPx raw
  /\ torsoLengthPx raw' = k * torsoLengthPx raw
  /\ armLengthPx raw' = k * armLengthPx raw
  /\ wingspanPx raw' = k * wingspanPx raw
  /\ bodyHeightPx raw' = k * bodyHeightPx raw.
End ValidatorVocabulary.

Section AveragingVocabulary.

(** The seven fields of a raw frame. *)
Definition rawFields {N : Type} : list (RawMeasurements N -> N) :=
  [@shoulderWidthPx N; @hipWidthPx N; @legLengthPx N; @torsoLengthPx N;
   @armLengthPx N; @wingspanPx N; @bodyHeightPx N].

(** Every field of the frame is at most [HALF_MAX] in magnitude (and is
    not NaN), so that adding the frame to itself does not overflow. *)
Definition doublesWithoutOverflow (a : RawMeasurements PrimFloat.float)
  : Prop :=
  forall p, In p rawFields ->
            PrimFloat.leb (PrimFloat.abs (p a)) Binary64.HALF_MAX = true.
End AveragingVocabulary.

(* ------------------------------------------------------------------ *)
(** ** Capture ([handleCapture] of [components/CameraView.tsx]) *)

Module Capture.
Import Num Measure Camera.
Local Open Scope string_scope.
Local Open Scope Z_scope.

(** [buf.slice(-n)]: [Array.prototype.slice] with the start [-n]; a
    negative start counts from the end (clamped at 0), a non-negative one
    from the front (clamped at the length). *)
Definition sliceLast {A : Type} (buf : list A) (n : Z) : list A :=
  let len := Z.of_nat (List.length buf) in
  let start := - n in
  let k := if start <? 0 then Z.max (len + start) 0 else Z.min start len in
  skipn (Z.to_nat k) buf.

(** The result is the new value of [isCapturing] and the argument of the
    [onCapture] call ([None]: it is not called). *)
Definition handleCapture (mode : CameraMode) (requiredGoodFrames : Z)
    (userHeightCm : R) (isCapturing : bool) (st : CameraState)
  : Js (bool * option (Measurements R)) :=
  if isCapturing then Ok (isCapturing, None)
  else
    match mode with
    | of_scan scan_face =>
        let frames := sliceLast (faceFrameBuffer st) requiredGoodFrames in
        if (List.length frames =? 0)%nat then Ok (false, None)
        else
          avgFace <- averageFaceMeasurements frames;;
          Ok (true,
              Some {| shoulderWidthCm := 0%R; hipWidthCm := 0%R;
                      legLengthCm := 0%R; torsoLengthCm := 0%R;
                      armLengthCm := 0%R; wingspanCm := 0%R;
                      shoulderToHipRatio := 0%R; legToTorsoRatio := 0%R;
                      armspanToHeightRatio := 0%R; scaleFactor := 1%R;
                      face := Some avgFace;
                      chestCircumferenceCm := None;
                      waistCircumferenceCm := None;
                      scanMode := Some scan_face |})
    | _ =>
        let frames := sliceLast (rawFrameBuffer st) requiredGoodFrames in
        if (List.length frames =? 0)%nat then Ok (false, None)
        else
          avg <- averageRawMeasurements frames;;
          let scaleMode :=
            match mode with
            | chest_front | chest_side | of_scan scan_upper_body =>
                scan_upper_body
            | of_scan scan_full_body => scan_full_body
            | _ => scan_full_body
            end in
          Ok (true, Some (scaleMeasurements avg userHeightCm scaleMode))
    end.
End Capture.

Section CaptureVocabulary.
Import Camera Capture.
Local Open Scope Z_scope.

(** How many buffered frames a capture in [mode] averages. *)
Definition capturedFrameCount (mode : CameraMode) (requiredGoodFrames : Z)
    (st : CameraState) : nat :=
  match mode with
  | of_scan scan_face =>
      List.length (sliceLast (faceFrameBuffer st) requiredGoodFrames)
  | _ => List.length (sliceLast (rawFrameBuffer st) requiredGoodFrames)
  end.

(** The length of the buffer that [mode] fills. *)
Definition modeBufferLength (mode : CameraMode) (st : CameraState) : nat :=
  match mode with
  | of_scan scan_face => List.length (faceFrameBuffer st)
  | _ => List.length (rawFrameBuffer st)
  end.

(** What a session keeps true between frames. *)
Definition sessionInvariant (mode : CameraMode) (requiredGoodFrames : Z)
    (st : CameraState) : Prop :=
  (modeBufferLength mode st <= MAX_BUFFER)%nat
  /\ Z.min (goodFrameCountRef st) (Z.of_nat MAX_BUFFER)
     <= Z.of_nat (modeBufferLength mode st)
  /\ (canCapture st = true -> requiredGoodFrames <= goodFrameCountRef st)
  /\ (canCapture st = true -> (1 <= modeBufferLength mode st)%nat).

(** 33 landmarks of an upper body: shoulders (11, 12) at [y = 0.3], hips
    (23, 24) at [y = 0.7], every other point at the centre. *)
Definition upperBodyPose : list Landmark :=
  map (fun i => if ((i =? 11) || (i =? 12))%nat then seen 0.5 0.3
                else if ((i =? 23) || (i =? 24))%nat then seen 0.5 0.7
                else seen 0.5 0.5) (seq 0 33).

Definition upperBodyFrame : Frame :=
  {| liveW := 640; liveH := 480; result := Some upperBodyPose |}.
End CaptureVocabulary.

(* ------------------------------------------------------------------ *)
(** ** The marker of the distribution chart ([components/MetricChart.tsx]) *)

Module MetricChart.
Section Marker.
Context {N : Type} `{Number N}.
Local Open Scope num_scope.

(** One call of the reducer [(best, x, i) => Math.abs(x - value) <
    Math.abs(xs[best] - value) ? i : best].  [best] is 0 or an index the
    reduction has visited, so [xs[best]] is defined whenever the reducer
    runs. *)
Definition closer (xs : list N) (value : N) (best : nat) (ix : nat * N)
  : nat :=
  let (i, x) := ix in
  if num_abs (x - value) <? num_abs (nth best xs num_zero - value) then i
  else best.

(** [xs.reduce(reducer, 0)] *)
Definition closestIdx (xs : list N) (value : N) : nat :=
  fold_left (closer xs value) (combine (seq 0 (List.length xs)) xs) 0%nat.
End Marker.
End MetricChart.

Section ChartVocabulary.
Context {N : Type} `{Number N}.

(** [Math.abs(x - value)], the distance the reducer compares, as the
    arithmetic computes it. *)
Definition distance (value x : N) : N := num_abs (num_sub x value).

(** [best] is the first index among those of [xs] below [k] whose entry has
    the least computed distance to [value]: no entry below [k] compares
    less, and every entry before [best] compares greater. *)
Definition firstNearest (xs : list N) (value : N) (k best : nat) : Prop :=
  (best < k)%nat
  /\ (forall j, (j < k)%nat ->
                num_ltb (distance value (nth j xs num_zero))
                        (distance value (nth best xs num_zero)) = false)
  /\ (forall j, (j < best)%nat ->
                num_ltb (distance value (nth best xs num_zero))
                        (distance value (nth j xs num_zero)) = true).

(** [<] is a strict weak order on the numbers of [ds]: irreflexive,
    transitive, and so is "not less than". *)
Definition comparable (ds : list N) : Prop :=
  (forall a, In a ds -> num_ltb a a = false)
  /\ (forall a b c, In a ds -> In b ds -> In c ds ->
        num_ltb a b = true -> num_ltb b c = true -> num_ltb a c = true)
  /\ (forall a b c, In a ds -> In b ds -> In c ds ->
        num_ltb a b = false -> num_ltb b c = false -> num_ltb a c = false).
End ChartVocabulary.

(* ------------------------------------------------------------------ *)
(** ** Scan modes ([lib/scanMode.ts], in [src/lib/storage.ts], second
    part) *)

Record ScanModeOption : Type := {
  option_id : ScanMode;
  option_label : string;
  option_emoji : string;
  option_tagline : string;
  option_details : list string;
  option_autoCapture : bool;
  option_recommended : option bool;
  option_requiredGoodFrames : Z
}.

Module ScanModes.
Local Open Scope string_scope.
Local Open Scope Z_scope.

Definition SCAN_MODE_OPTIONS : list ScanModeOption :=
  [ {| option_id := scan_face;
       option_label := "Face";
       option_emoji := "😊";
       option_tagline := "Facial proportions & symmetry";
       option_details :=
         ["Hold phone at arm's length";
          "Look straight ahead";
          "Good frontal lighting"];
       option_autoCapture := false;
       option_recommended := None;
       option_requiredGoodFrames := 20 |};
    {| option_id := scan_upper_body;
       option_label := "Upper Body";
       option_emoji := "🙆";
       option_tagline := "Shoulders, arms & torso";
       option_details :=
         ["Stand ~1 m from the camera";
          "Upper body fully visible";
          "Arms relaxed at sides"];
       option_autoCapture := false;
       option_recommended := None;
       option_requiredGoodFrames := 25 |};
    {| option_id := scan_chest;
       option_label := "Chest";
       option_emoji := "📐";
       option_tagline := "Chest circumference — two quick poses";
       option_details :=
         ["Stand ~1 m from the camera";
          "Pose 1: face the camera directly";
          "Pose 2: turn 90° to your side";
          "Each pose auto-captures in 3 seconds"];
       option_autoCapture := true;
       option_recommended := None;
       option_requiredGoodFrames := 25 |};
    {| option_id := scan_full_body;
       option_label := "Full Body";
       option_emoji := "🧍";
       option_tagline := "Complete body proportions";
       option_details :=
         ["Stand 2–3 m from the camera";
          "Full body visible — head to feet";
          "Auto-captures after 3-second countdown"];
       option_autoCapture := true;
       option_recommended := Some true;
       option_requiredGoodFrames := 30 |} ].

(** [a === b] on scan modes. *)
Definition scanMode_eqb (a b : ScanMode) : bool :=
  match a, b with
  | scan_face, scan_face
  | scan_upper_body, scan_upper_body
  | scan_full_body, scan_full_body
  | scan_chest, scan_chest => true
  | _, _ => false
  end.

(** [SCAN_MODE_OPTIONS.find((m) => m.id === mode)!]; [None] is the
    [undefined] that the non-null assertion would let through. *)
Definition getScanModeOption (mode : ScanMode) : option ScanModeOption :=
  find (fun m => scanMode_eqb (option_id m) mode) SCAN_MODE_OPTIONS.
End ScanModes.

Section SanityVocabulary.
Local Open Scope R_scope.

(** No length and no ratio of a measurement is negative. *)
Definition nonNegative (m : Measurements R) : Prop :=
  0 <= shoulderWidthCm m /\ 0 <= hipWidthCm m /\ 0 <= legLengthCm m
  /\ 0 <= torsoLengthCm m /\ 0 <= armLengthCm m /\ 0 <= wingspanCm m
  /\ 0 <= shoulderToHipRatio m /\ 0 <= legToTorsoRatio m
  /\ 0 <= armspanToHeightRatio m /\ 0 <= scaleFactor m.
End SanityVocabulary.

(* ------------------------------------------------------------------ *)
(** * Properties *)

(** ** Comparisons and rounding *)

Section NumFacts.
Local Open Scope R_scope.

Lemma ltb_true (x y : R) : x < y -> (x <? y) = true.
Proof. intro H. unfold Num.ltb. destruct (Rlt_dec x y); [reflexivity | contradiction]. Qed.

Lemma ltb_false (x y : R) : y <= x -> (x <? y) = false.
Proof. intro H. unfold Num.ltb. destruct (Rlt_dec x y); [lra | reflexivity]. Qed.

Lemma leb_true (x y : R) : x <= y -> (x <=? y) = true.
Proof. intro H. unfold Num.leb. destruct (Rle_dec x y); [reflexivity | contradiction]. Qed.

Lemma leb_false (x y : R) : y < x -> (x <=? y) = false.
Proof. intro H. unfold Num.leb. destruct (Rle_dec x y); [lra | reflexivity]. Qed.

Lemma gtb_true (x y : R) : y < x -> (x >? y) = true.
Proof. apply ltb_true. Qed.

Lemma gtb_false (x y : R) : x <= y -> (x >? y) = false.
Proof. apply ltb_false. Qed.

Lemma geb_true (x y : R) : y <= x -> (x >=? y) = true.
Proof. apply leb_true. Qed.

Lemma geb_false (x y : R) : x < y -> (x >=? y) = false.
Proof. apply leb_false. Qed.

Lemma ltb_spec (x y : R) : reflect (x < y) (x <? y).
Proof.
  unfold Num.ltb. destruct (Rlt_dec x y); constructor; assumption.
Qed.

Lemma leb_spec (x y : R) : reflect (x <= y) (x <=? y).
Proof.
  unfold Num.leb. destruct (Rle_dec x y); constructor; assumption.
Qed.

(** [Math.round] of a number between two integers stays between them. *)
Lemma Math_round_between (lo hi : Z) (x : R) :
  IZR lo <= x <= IZR hi -> (lo <= Zfloor (x + / 2) <= hi)%Z.
Proof.
  intros [Hlo Hhi]. split.
  - apply Zfloor_lub. lra.
  - destruct (Zfloor_bound (x + / 2)) as [Hf _].
    assert (Hlt : IZR (Zfloor (x + / 2)) < IZR (hi + 1)).
    { rewrite plus_IZR. lra. }
    apply lt_IZR in Hlt. lia.
Qed.

(** Rounding a value in [[0, 1/2)] gives [0]. *)
Lemma Zfloor_half_small (x : R) : 0 <= x < / 2 -> Zfloor (x + / 2) = 0%Z.
Proof. intros [H0 H1]. apply Zfloor_eq. simpl. lra. Qed.

Lemma Zfloor_half_nonneg (x : R) : 0 <= x -> (0 <= Zfloor (x + / 2))%Z.
Proof. intro H. apply Zfloor_lub. simpl. lra. Qed.

Lemma Zfloor_half_pos (x : R) : / 2 <= x -> (1 <= Zfloor (x + / 2))%Z.
Proof. intro H. apply Zfloor_lub. simpl. lra. Qed.
End NumFacts.

(** ** The percentile engine *)

Section StatsFacts.
Import Num Stats.
Local Open Scope R_scope.

(** The Horner polynomial of [erf] on the range of [t = 1/(1 + p x)]. *)
Lemma erf_poly_bounds (t : R) :
  0 <= t <= 1 ->
  0 <= ((((1.061405429 * t + -1.453152027) * t + 1.421413741) * t
          + -0.284496736) * t + 0.254829592) * t <= 2.
Proof.
  intros [H0 H1].
  assert (Q1 : 0 <= 0.254829592 + -0.284496736 * t + 0.7 * (t * t)).
  { pose proof (Rle_0_sqr (t - 0.2)) as S. unfold Rsqr in S. nra. }
  assert (Q2 : 0 <= 0.721413741 + -1.453152027 * t
                    + 1.061405429 * (t * t)).
  { pose proof (Rle_0_sqr (t - 0.68)) as S. unfold Rsqr in S. nra. }
  assert (T2 : 0 <= t * t) by nra.
  assert (T2' : t * t <= t) by nra.
  assert (T3 : 0 <= t * t * t) by nra.
  assert (T3' : t * t * t <= t * t) by nra.
  assert (T4 : t * t * t * t <= t * t * t) by nra.
  assert (Q2' : 0 <= (t * t) * (0.721413741 + -1.453152027 * t
                                + 1.061405429 * (t * t)))
    by (apply Rmult_le_pos; assumption).
  assert (Hq : (((1.061405429 * t + -1.453152027) * t + 1.421413741) * t
                + -0.284496736) * t + 0.254829592 <= 2) by nra.
  assert (Hq0 : 0 <= (((1.061405429 * t + -1.453152027) * t
                       + 1.421413741) * t + -0.284496736) * t
                     + 0.254829592) by nra.
  split; nra.
Qed.

Lemma exp_neg_square_bounds (x : R) : 0 < exp (- x * x) <= 1.
Proof.
  split; [apply exp_pos |].
  rewrite <- exp_0.
  destruct (Req_dec (- x * x) 0) as [E | NE].
  - rewrite E. lra.
  - left. apply exp_increasing. nra.
Qed.

Lemma erf_bounds (x : R) : -1 <= erf x <= 1.
Proof.
  unfold erf, Math_abs, Math_exp.
  set (a := Rabs x).
  assert (Ha : 0 <= a) by apply Rabs_pos.
  set (t := 1.0 / (1.0 + 0.3275911 * a)).
  assert (Ht : 0 <= t <= 1).
  { unfold t. assert (Hd : 1 <= 1.0 + 0.3275911 * a) by nra.
    assert (Hi : 0 < / (1.0 + 0.3275911 * a)) by (apply Rinv_0_lt_compat; lra).
    assert (Hm : (1.0 + 0.3275911 * a) * / (1.0 + 0.3275911 * a) = 1)
      by (apply Rinv_r; lra).
    unfold Rdiv. split; nra. }
  pose proof (erf_poly_bounds Ht) as HP.
  pose proof (exp_neg_square_bounds a) as HE.
  set (P := ((((1.061405429 * t + -1.453152027) * t + 1.421413741) * t
              + -0.284496736) * t + 0.254829592) * t) in *.
  set (E := exp (- a * a)) in *.
  assert (HA : 0 <= P * E <= 2) by nra.
  destruct (x >=? 0); lra.
Qed.

Lemma normalCDF_bounds (z : R) : 0 <= normalCDF z <= 1.
Proof.
  unfold normalCDF. pose proof (erf_bounds (z / Math_sqrt 2)). lra.
Qed.
End StatsFacts.

Section PercentileClaims.
Import Num Stats.
Local Open Scope R_scope.

(** Test "returns 50 for the mean value": [computePercentile(100, 100, 10)]
    is 50. *)
Example computePercentile_at_mean : computePercentile 100 100 10 = 50.
Proof.
  unfold computePercentile. rewrite leb_false by lra.
  unfold normalCDF, erf, Math_round, Math_abs, Math_exp, Math_sqrt.
  replace ((100 - 100) / 10 / sqrt 2) with 0 by (unfold Rdiv; ring).
  rewrite geb_true by lra. rewrite Rabs_R0.
  replace (- 0 * 0) with 0 by ring. rewrite exp_0.
  apply f_equal. apply Zfloor_eq. simpl. lra.
Qed.

(** C1.  [computePercentile(v, m, stddev)] is 50 whenever [stddev <= 0];
    for [stddev > 0] it is [round(normalCDF((v - m)/stddev) * 100)], and
    that number is an integer between 0 and 100. *)
Theorem computePercentile_spec (value mean stddev : R) :
  (stddev <= 0 -> computePercentile value mean stddev = 50) /\
  (0 < stddev ->
     computePercentile value mean stddev
     = Math_round (normalCDF ((value - mean) / stddev) * 100)
     /\ exists k : Z,
          computePercentile value mean stddev = IZR k
          /\ (0 <= k <= 100)%Z).
Proof.
  unfold computePercentile. split; intro Hs.
  - rewrite leb_true by assumption. reflexivity.
  - rewrite leb_false by assumption. split; [reflexivity |].
    unfold Math_round.
    exists (Zfloor (normalCDF ((value - mean) / stddev) * 100 + / 2)).
    split; [reflexivity |].
    apply Math_round_between.
    pose proof (normalCDF_bounds ((value - mean) / stddev)). simpl. lra.
Qed.

Lemma computePercentile_spec_witness :
  computePercentile 100 100 0 = 50
  /\ exists k : Z, computePercentile 110 100 10 = IZR k
                   /\ (0 <= k <= 100)%Z.
Proof.
  split.
  - apply (proj1 (computePercentile_spec 100 100 0)). lra.
  - apply (proj2 (computePercentile_spec 110 100 10)). lra.
Defined.
End PercentileClaims.

Section CurveClaims.
Import Num Stats.
Local Open Scope R_scope.

Lemma sqrt_two_pi_ge_1 : 1 <= Math_sqrt (2 * Math_PI).
Proof.
  unfold Math_sqrt, Math_PI. rewrite <- sqrt_1.
  apply sqrt_le_1_alt. pose proof PI_RGT_0. pose proof PI2_3_2. 
  unfold PI2 in *. lra.
Qed.

(** For a positive [stddev] the unrounded density is positive and at most
    [1 / stddev]. *)
Lemma density_bounds (mean stddev x : R) :
  0 < stddev -> 0 < density mean stddev x <= / stddev.
Proof.
  intro Hs. unfold density, Math_exp.
  set (e := - (x - mean) ^ 2 / (2 * stddev ^ 2)).
  pose proof sqrt_two_pi_ge_1 as Hq.
  set (q := Math_sqrt (2 * Math_PI)) in *.
  assert (He : 0 < exp e <= 1).
  { split; [apply exp_pos |].
    assert (Hle : e <= 0).
    { unfold e. unfold Rdiv.
      assert (0 < / (2 * stddev ^ 2)) by (apply Rinv_0_lt_compat; nra).
      assert (0 <= (x - mean) ^ 2) by (apply pow2_ge_0). nra. }
    rewrite <- exp_0. destruct Hle as [Hlt | Heq].
    - left. apply exp_increasing. assumption.
    - rewrite Heq. lra. }
  assert (Hsq : 0 < stddev * q) by nra.
  assert (Hi : 0 < / (stddev * q)) by (apply Rinv_0_lt_compat; assumption).
  assert (Hi' : / (stddev * q) <= / stddev).
  { apply Rinv_le_contravar; nra. }
  unfold Rdiv. rewrite Rmult_1_l. split; nra.
Qed.

(** Rounding a non-negative number to 6 decimals: the result is never
    negative, and it is positive exactly from 0.0000005 upwards. *)
Lemma toFixed6_nonneg (d : R) :
  0 <= d -> 0 <= toFixed d 6 /\ (0 < toFixed d 6 <-> 0.0000005 <= d).
Proof.
  intro Hd. unfold toFixed.
  rewrite (Rabs_pos_eq d) by assumption.
  destruct (leb_spec 1e21 d) as [Hbig | Hsmall].
  - split; [lra |]. split; intro; lra.
  - rewrite ltb_false by assumption.
    replace (10 ^ 6) with 1000000 by (simpl; ring).
    destruct (Rle_lt_dec 0.0000005 d) as [Hge | Hlt].
    + assert (Hk : (1 <= Zfloor (d * 1000000 + / 2))%Z)
        by (apply Zfloor_half_pos; lra).
      apply IZR_le in Hk.
      split; [| split; intro; [assumption |]];
        unfold Rdiv; lra.
    + rewrite Zfloor_half_small by lra.
      unfold Rdiv. rewrite Rmult_0_l. split; [lra |]. split; intro; lra.
Qed.

Lemma exp_7_le : exp 7 <= 2187.
Proof.
  replace 7 with (1 + (1 + (1 + (1 + (1 + (1 + 1)))))) by ring.
  rewrite !exp_plus.
  pose proof exp_le_3 as H3. pose proof (exp_pos 1) as H0.
  set (e := exp 1) in *.
  assert (H2 : e * e <= 9) by nra.
  assert (H2p : 0 < e * e) by nra.
  assert (H3' : e * (e * e) <= 27) by nra.
  assert (H3p : 0 < e * (e * e)) by nra.
  assert (H4 : e * (e * (e * e)) <= 81) by nra.
  assert (H4p : 0 < e * (e * (e * e))) by nra.
  nra.
Qed.

Lemma sqrt_two_pi_le_3 : Math_sqrt (2 * Math_PI) <= 3.
Proof.
  unfold Math_sqrt, Math_PI.
  replace 3 with (sqrt (3 * 3)) by (apply sqrt_square; lra).
  apply sqrt_le_1_alt. pose proof PI_4. lra.
Qed.

(** With two or more samples every abscissa lies within 3.5 standard
    deviations of the mean. *)
Lemma curveX_within (mean stddev : R) (numPoints i : nat) :
  0 < stddev -> (2 <= numPoints)%nat -> (i < numPoints)%nat ->
  mean - 3.5 * stddev <= curveX mean stddev numPoints i
                      <= mean + 3.5 * stddev.
Proof.
  intros Hs Hn Hi. unfold curveX. cbv zeta.
  assert (Hd : 1 <= INR numPoints - 1).
  { apply le_INR in Hn. simpl in Hn. lra. }
  assert (Hi0 : 0 <= INR i) by apply pos_INR.
  assert (Hi1 : INR i <= INR numPoints - 1).
  { assert (H : (i + 1 <= numPoints)%nat) by lia.
    apply le_INR in H. rewrite plus_INR in H. simpl in H. lra. }
  set (d := INR numPoints - 1) in *.
  assert (Hinv : 0 < / d) by (apply Rinv_0_lt_compat; lra).
  assert (Hdd : d * / d = 1) by (apply Rinv_r; lra).
  assert (Hq : 0 <= INR i * / d <= 1) by (split; nra).
  replace (mean - 3.5 * stddev
           + INR i * ((mean + 3.5 * stddev - (mean - 3.5 * stddev)) / d))
    with (mean - 3.5 * stddev + 7 * stddev * (INR i * / d))
    by (replace 3.5 with (7 / 2) by lra; field; lra).
  split; nra.
Qed.

(** Within 3.5 standard deviations the density is at least
    [1 / (6561 * stddev)]. *)
Lemma density_lower (mean stddev x : R) :
  0 < stddev ->
  mean - 3.5 * stddev <= x <= mean + 3.5 * stddev ->
  / (6561 * stddev) <= density mean stddev x.
Proof.
  intros Hs Hx. unfold density, Math_exp.
  pose proof sqrt_two_pi_ge_1 as Hq1. pose proof sqrt_two_pi_le_3 as Hq3.
  set (q := Math_sqrt (2 * Math_PI)) in *.
  set (e := - (x - mean) ^ 2 / (2 * stddev ^ 2)).
  assert (He : -7 <= e).
  { unfold e.
    assert (Hsq : (x - mean) ^ 2 <= 12.25 * stddev ^ 2) by nra.
    assert (Hpos : 0 < 2 * stddev ^ 2) by nra.
    assert (Hinv : 0 < / (2 * stddev ^ 2))
      by (apply Rinv_0_lt_compat; assumption).
    assert (Hone : 2 * stddev ^ 2 * / (2 * stddev ^ 2) = 1)
      by (apply Rinv_r; lra).
    unfold Rdiv. nra. }
  assert (Hexp : / 2187 <= exp e).
  { assert (H7 : exp (Ropp 7) <= exp e).
    { assert (He' : Ropp 7 <= e) by lra.
      destruct He' as [Hlt | Heq]; [left; apply exp_increasing; assumption |].
      rewrite Heq. lra. }
    rewrite exp_Ropp in H7. pose proof exp_7_le as H7'.
    pose proof (exp_pos 7) as H7p.
    assert (/ 2187 <= / exp 7) by (apply Rinv_le_contravar; lra).
    lra. }
  assert (Hfac : / (3 * stddev) <= 1 / (stddev * q)).
  { unfold Rdiv. rewrite Rmult_1_l. apply Rinv_le_contravar; nra. }
  assert (Hfac0 : 0 < / (3 * stddev)) by (apply Rinv_0_lt_compat; lra).
  replace (/ (6561 * stddev)) with (/ (3 * stddev) * / 2187)
    by (field; lra).
  apply Rmult_le_compat; lra.
Qed.

(** Rounding a density to 6 decimals, with room around the threshold
    0.0000005: from 0.000000501 upwards the result is at least 0.000001,
    up to 0.000000499 it is 0. *)
Lemma toFixed6_margins (d : R) :
  0 <= d ->
  (0.000000501 <= d -> 0.000001 <= toFixed d 6)
  /\ (d <= 0.000000499 -> toFixed d 6 = 0).
Proof.
  intro Hd. unfold toFixed.
  rewrite (Rabs_pos_eq d) by assumption.
  destruct (leb_spec 1e21 d) as [Hbig | Hsmall].
  - split; intro; lra.
  - rewrite ltb_false by assumption.
    replace (10 ^ 6) with 1000000 by (simpl; ring).
    split; intro H.
    + assert (Hk : (1 <= Zfloor (d * 1000000 + / 2))%Z)
        by (apply Zfloor_half_pos; lra).
      apply IZR_le in Hk. unfold Rdiv. lra.
    + rewrite Zfloor_half_small by lra.
      unfold Rdiv. rewrite Rmult_0_l. reflexivity.
Qed.

Lemma sqrt_two_pi_ge_2_4 : 2.4 <= Math_sqrt (2 * Math_PI).
Proof.
  unfold Math_sqrt, Math_PI.
  replace 2.4 with (sqrt (2.4 * 2.4)) by (apply sqrt_square; lra).
  apply sqrt_le_1_alt. pose proof PI2_3_2. unfold PI2 in *. lra.
Qed.

(** For a standard deviation of 1000000 or more the density is below
    0.00000042 everywhere. *)
Lemma density_flat (mean stddev x : R) :
  1000000 <= stddev -> density mean stddev x <= 0.00000042.
Proof.
  intro Hs. unfold density, Math_exp.
  pose proof sqrt_two_pi_ge_2_4 as Hq.
  set (q := Math_sqrt (2 * Math_PI)) in *.
  set (e := - (x - mean) ^ 2 / (2 * stddev ^ 2)).
  assert (He : 0 < exp e <= 1).
  { split; [apply exp_pos |].
    assert (Hle : e <= 0).
    { unfold e. unfold Rdiv.
      assert (0 < / (2 * stddev ^ 2)) by (apply Rinv_0_lt_compat; nra).
      assert (0 <= (x - mean) ^ 2) by (apply pow2_ge_0). nra. }
    rewrite <- exp_0. destruct Hle as [Hlt | Heq].
    - left. apply exp_increasing. assumption.
    - rewrite Heq. lra. }
  assert (Hsq : 2400000 <= stddev * q) by nra.
  assert (Hi : 0 < / (stddev * q)) by (apply Rinv_0_lt_compat; lra).
  assert (Hi' : / (stddev * q) <= / 2400000)
    by (apply Rinv_le_contravar; lra).
  unfold Rdiv. rewrite Rmult_1_l. nra.
Qed.

(** C2, as the source has it, for a sample count other than 1 (for which
    the step would divide by zero), a standard deviation between 1e-100
    and 1e100 and a mean between -1e100 and 1e100 (where no square
    overflows or underflows on binary64).  No [y] is negative.  When the
    mean is at most 1000000 standard deviations from 0 (so that the
    abscissas keep their precision), a [y] is at least 0.000001 when the
    density before rounding is at least 0.000000501 and is 0 when that
    density is at most 0.000000499, [toFixed(6)] turning any density below
    0.0000005 into 0; and up to [stddev = 300] every density is above
    0.0000005, so every [y] is strictly positive.  From [stddev = 1000000]
    on every density is below 0.00000042 and every [y] is 0. *)
Theorem normalCurvePoints_y_rounded
    (mean stddev : R) (numPoints : nat) :
  1e-100 <= stddev <= 1e100 ->
  - 1e100 <= mean <= 1e100 ->
  numPoints <> 1%nat ->
  Forall (fun p => 0 <= pt_y p) (normalCurvePoints mean stddev numPoints)
  /\ (- (1000000 * stddev) <= mean <= 1000000 * stddev ->
      (forall i p,
         nth_error (normalCurvePoints mean stddev numPoints) i = Some p ->
         (0.000000501
          <= density mean stddev (curveX mean stddev numPoints i) ->
          0.000001 <= pt_y p)
         /\ (density mean stddev (curveX mean stddev numPoints i)
             <= 0.000000499 ->
             pt_y p = 0))
      /\ (stddev <= 300 ->
          Forall (fun p => 0 < pt_y p)
            (normalCurvePoints mean stddev numPoints)))
  /\ (1000000 <= stddev ->
      Forall (fun p => pt_y p = 0)
        (normalCurvePoints mean stddev numPoints)).
Proof.
  intros [Hs0 _] _ Hn1.
  assert (Hs : 0 < stddev) by lra.
  unfold normalCurvePoints. split; [| split].
  - apply Forall_forall. intros p Hin.
    apply in_map_iff in Hin. destruct Hin as [i [Hp _]]. subst p. simpl.
    apply toFixed6_nonneg. left. apply density_bounds. assumption.
  - intros _. split.
    + intros i p Hnth.
      rewrite nth_error_map in Hnth.
      destruct (nth_error (seq 0 numPoints) i) as [j |] eqn:Hj;
        [| discriminate].
      assert (Hi : (i < numPoints)%nat).
      { rewrite <- (length_seq numPoints 0). apply nth_error_Some.
        rewrite Hj. discriminate. }
      rewrite (nth_error_nth' _ 0%nat) in Hj
        by (rewrite length_seq; exact Hi).
      rewrite seq_nth in Hj by exact Hi. simpl in Hj.
      injection Hj as <-. injection Hnth as <-. simpl.
      apply toFixed6_margins. left. apply density_bounds. assumption.
    + intro Hs300. apply Forall_forall. intros p Hin.
      apply in_map_iff in Hin. destruct Hin as [i [Hp Hi]]. subst p.
      apply in_seq in Hi. cbn [pt_y].
      set (d := density mean stddev (curveX mean stddev numPoints i)).
      assert (Hd : / (6561 * stddev) <= d).
      { apply density_lower; [assumption |].
        apply curveX_within; [assumption | lia | lia]. }
      assert (Hlow : 0.0000005 <= / (6561 * stddev)).
      { replace 0.0000005 with (/ 2000000) by lra.
        apply Rinv_le_contravar; lra. }
      apply toFixed6_nonneg; lra.
  - intro Hbig. apply Forall_forall. intros p Hin.
    apply in_map_iff in Hin. destruct Hin as [i [Hp _]]. subst p.
    cbn [pt_y].
    pose proof (@density_flat mean stddev
                  (curveX mean stddev numPoints i) Hbig) as Hflat.
    apply toFixed6_margins; [| lra].
    left. apply density_bounds. assumption.
Qed.

(** The test "all y values are positive" of [stats.test.ts]: the 100
    samples of [normalCurvePoints(170, 10, 100)]. *)
Lemma normalCurvePoints_y_rounded_witness :
  Forall (fun p => 0 < pt_y p) (normalCurvePoints 170 10 100).
Proof.
  apply (@normalCurvePoints_y_rounded 170 10 100).
  - lra.
  - lra.
  - discriminate.
  - lra.
  - lra.
Defined.

(** C2 as stated fails: with [stddev = 10000000] every one of the 100
    samples has a density below 0.0000001, which [toFixed(6)] prints as
    "0.000000", so every [y] is 0. *)
Lemma normalCurvePoints_y_zero :
  List.length (normalCurvePoints 0 10000000 100) = 100%nat
  /\ Forall (fun p => pt_y p = 0) (normalCurvePoints 0 10000000 100).
Proof.
  split.
  - unfold normalCurvePoints. rewrite length_map, length_seq. reflexivity.
  - unfold normalCurvePoints. apply Forall_forall. intros p Hin.
    apply in_map_iff in Hin. destruct Hin as [i [Hp _]]. subst p.
    cbv beta zeta. unfold pt_y.
    set (d := density 0 10000000 (curveX 0 10000000 100 i)).
    assert (Hd : 0 < d <= / 10000000)
      by (apply density_bounds; lra).
    unfold toFixed. rewrite (Rabs_pos_eq d) by lra.
    rewrite leb_false by lra. rewrite ltb_false by lra.
    replace (10 ^ 6) with 1000000 by (simpl; ring).
    rewrite Zfloor_half_small by lra.
    unfold Rdiv. ring.
Qed.
End CurveClaims.

(** ** Scaling and circumference *)

Section ScalingClaims.
Import Num Measure.
Local Open Scope R_scope.

Lemma r_rounds (n : R) : rounded_to_1_decimal n (r n).
Proof.
  unfold rounded_to_1_decimal, r. num_R. unfold Math_round.
  exists (Zfloor (n * 10 + / 2)). split; [reflexivity |].
  pose proof (Zfloor_bound (n * 10 + / 2)) as [Hlo Hhi].
  unfold Rdiv. lra.
Qed.

(** C4, as the source has it.  In every arithmetic (binary64 included)
    [scaleMeasurements] takes its scale from the effective height,
    [userHeightCm * 0.56] in upper-body mode and [userHeightCm] in every
    other mode: [scaleFactor] is that height divided by [bodyHeightPx] when
    [bodyHeightPx > 0], and 1 otherwise; and each of the six lengths is
    [Math.round(px * scaleFactor * 10) / 10].  In exact arithmetic that is
    the product rounded to the nearest tenth, a tie upwards. *)
Theorem scaleMeasurements_spec :
  (forall (N : Type) (A : Number N)
          (raw : RawMeasurements N) (userHeightCm : N) (mode : ScanMode),
     let m := scaleMeasurements raw userHeightCm mode in
     (num_ltb (num_of_Z 0) (bodyHeightPx raw) = true ->
      scaleFactor m
      = num_div (effectiveHeight userHeightCm mode) (bodyHeightPx raw))
     /\ (num_ltb (num_of_Z 0) (bodyHeightPx raw) = false ->
         scaleFactor m = num_of_Z 1)
     /\ shoulderWidthCm m = r (num_mul (shoulderWidthPx raw) (scaleFactor m))
     /\ hipWidthCm m = r (num_mul (hipWidthPx raw) (scaleFactor m))
     /\ legLengthCm m = r (num_mul (legLengthPx raw) (scaleFactor m))
     /\ torsoLengthCm m = r (num_mul (torsoLengthPx raw) (scaleFactor m))
     /\ armLengthCm m = r (num_mul (armLengthPx raw) (scaleFactor m))
     /\ wingspanCm m = r (num_mul (wingspanPx raw) (scaleFactor m)))
  /\ (forall (raw : RawMeasurements R) (userHeightCm : R) (mode : ScanMode),
        let m := scaleMeasurements raw userHeightCm mode in
        (0 < bodyHeightPx raw -> mode = scan_upper_body ->
         scaleFactor m = userHeightCm * 0.56 / bodyHeightPx raw)
        /\ (0 < bodyHeightPx raw -> mode <> scan_upper_body ->
            scaleFactor m = userHeightCm / bodyHeightPx raw)
        /\ (bodyHeightPx raw <= 0 -> scaleFactor m = 1)
        /\ rounded_to_1_decimal
             (shoulderWidthPx raw * scaleFactor m) (shoulderWidthCm m)
        /\ rounded_to_1_decimal
             (hipWidthPx raw * scaleFactor m) (hipWidthCm m)
        /\ rounded_to_1_decimal
             (legLengthPx raw * scaleFactor m) (legLengthCm m)
        /\ rounded_to_1_decimal
             (torsoLengthPx raw * scaleFactor m) (torsoLengthCm m)
        /\ rounded_to_1_decimal
             (armLengthPx raw * scaleFactor m) (armLengthCm m)
        /\ rounded_to_1_decimal
             (wingspanPx raw * scaleFactor m) (wingspanCm m)).
Proof.
  split.
  - intros N A raw userHeightCm mode. cbv zeta.
    unfold scaleMeasurements, effectiveHeight;
      cbn [scaleFactor shoulderWidthCm hipWidthCm
           legLengthCm torsoLengthCm armLengthCm wingspanCm].
    split; [| split].
    + intros ->. destruct mode; reflexivity.
    + intros ->. reflexivity.
    + repeat split.
  - intros raw userHeightCm mode. cbv zeta.
    unfold scaleMeasurements;
      cbn [scaleFactor shoulderWidthCm hipWidthCm
           legLengthCm torsoLengthCm armLengthCm wingspanCm].
    split; [| split; [| split]].
    + intros Hpos ->. num_R. rewrite ltb_true by assumption. lra.
    + intros Hpos Hmode. num_R. rewrite ltb_true by assumption.
      destruct mode; try reflexivity. contradiction.
    + intro Hle. num_R. rewrite ltb_false by assumption. reflexivity.
    + repeat split; apply r_rounds.
Qed.

Lemma scaleMeasurements_spec_witness :
  scaleFactor (scaleMeasurements sampleRaw 175 scan_upper_body)
  = 175 * 0.56 / bodyHeightPx sampleRaw
  /\ scaleFactor (scaleMeasurements sampleRaw 175 scan_full_body)
     = 175 / bodyHeightPx sampleRaw
  /\ scaleFactor
       (scaleMeasurements (frameOfWidth 57.6) 175 scan_full_body) = 1.
Proof.
  split; [| split].
  - apply (proj1 (proj2 scaleMeasurements_spec
                    sampleRaw 175 scan_upper_body)).
    + cbn. lra.
    + reflexivity.
  - apply (proj1 (proj2 (proj2 scaleMeasurements_spec
                           sampleRaw 175 scan_full_body))).
    + cbn. lra.
    + discriminate.
  - apply (proj1 (proj2 (proj2 (proj2 scaleMeasurements_spec
                                  (frameOfWidth 57.6) 175
                                  scan_full_body)))).
    cbn. lra.
Defined.

(** In that capture the shoulder width comes out as 28.8 cm. *)
Example scaleMeasurements_sample_shoulder :
  shoulderWidthCm (scaleMeasurements sampleRaw 175 scan_full_body) = 28.8.
Proof.
  unfold scaleMeasurements, sampleRaw.
  cbn [shoulderWidthCm bodyHeightPx shoulderWidthPx]. unfold r. num_R.
  rewrite ltb_true by lra. unfold Math_round.
  rewrite (@Zfloor_eq 288) by (simpl; lra). lra.
Qed.

(** 85 px of shoulders over a body of 340 px, for 175 cm: in exact
    arithmetic the product is 43.75 and the length 43.8. *)
Lemma scaleMeasurements_exact_tie :
  85 * (175 / 340) = 43.75
  /\ rounded_to_1_decimal (85 * (175 / 340)) 43.8
  /\ shoulderWidthCm
       (scaleMeasurements (shoulderShot 85 340) 175 scan_full_body) = 43.8.
Proof.
  split; [lra |]. split.
  - exists 438%Z. split; lra.
  - unfold scaleMeasurements, shoulderShot.
    cbn [shoulderWidthCm bodyHeightPx shoulderWidthPx]. unfold r. num_R.
    rewrite ltb_true by lra. unfold Math_round.
    rewrite (@Zfloor_eq 438) by (simpl; lra). lra.
Qed.

Lemma computeChestCircumference_circle (a : R) :
  0 < a -> computeChestCircumference a a = r (2 * Math_PI * a).
Proof.
  intro Ha. unfold computeChestCircumference, r. num_R.
  unfold Math_sqrt.
  rewrite leb_false by assumption. cbn [orb].
  replace ((a - a) * (a - a) / ((a + a) * (a + a))) with 0
    by (unfold Rdiv; ring).
  replace (4 - 3 * 0) with (2 * 2) by ring.
  rewrite sqrt_square by lra.
  do 2 f_equal. field.
Qed.

(** C7, as the source has it.  In exact arithmetic, on a circle
    ([a = b > 0]) Ramanujan's formula gives [2 PI a] rounded to one decimal
    (the nearest tenth, a tie upwards).  For a radius between 0.001 and
    1000000 the result is within 0.051 of [2 PI a]: 0.05 from the rounding
    to one decimal, the rest is room for the rounding of binary64.  In
    every arithmetic (binary64 included) the result is 0 when a semi-axis
    is zero or negative. *)
Theorem computeChestCircumference_spec :
  (forall a : R, 0 < a ->
     computeChestCircumference a a = r (2 * Math_PI * a)
     /\ rounded_to_1_decimal (2 * Math_PI * a)
          (computeChestCircumference a a))
  /\ (forall a : R, 0.001 <= a <= 1000000 ->
        Rabs (computeChestCircumference a a - 2 * Math_PI * a) <= 0.051)
  /\ (forall a b : R, a <= 0 \/ b <= 0 ->
        computeChestCircumference a b = 0)
  /\ (forall (N : Type) (A : Number N) (a b : N),
        num_leb a (num_of_Z 0) = true \/ num_leb b (num_of_Z 0) = true ->
        computeChestCircumference a b = num_of_Z 0).
Proof.
  assert (G : forall (N : Type) (A : Number N) (a b : N),
             num_leb a (num_of_Z 0) = true
             \/ num_leb b (num_of_Z 0) = true ->
             computeChestCircumference a b = num_of_Z 0).
  { intros N A a b [Ha | Hb]; unfold computeChestCircumference.
    - rewrite Ha. reflexivity.
    - rewrite Hb, orb_true_r. reflexivity. }
  split; [| split; [| split; [| exact G]]].
  - intros a Ha.
    pose proof (computeChestCircumference_circle Ha) as E.
    split; [exact E |]. rewrite E. apply r_rounds.
  - intros a [Ha _].
    rewrite (@computeChestCircumference_circle a) by lra.
    destruct (r_rounds (2 * Math_PI * a)) as [k [_ Hr]].
    apply Rabs_le. lra.
  - intros a b Hab. apply (G R Number_R a b).
    destruct Hab as [Ha | Hb]; [left | right]; apply leb_true; assumption.
Qed.

Lemma computeChestCircumference_spec_witness :
  computeChestCircumference 15 15 = r (2 * Math_PI * 15)
  /\ Rabs (computeChestCircumference 15 15 - 2 * Math_PI * 15) <= 0.051
  /\ computeChestCircumference 0 20 = 0
  /\ computeChestCircumference 20 (-1) = 0.
Proof.
  split; [| split; [| split]].
  - apply (proj1 computeChestCircumference_spec 15). lra.
  - apply (proj1 (proj2 computeChestCircumference_spec) 15). lra.
  - apply (proj1 (proj2 (proj2 computeChestCircumference_spec)) 0 20).
    left. lra.
  - apply (proj1 (proj2 (proj2 computeChestCircumference_spec)) 20 (-1)).
    right. lra.
Defined.
End ScalingClaims.

Section ScalingBinary64.
Import Measure PrimFloat.
#[local] Set Warnings "-inexact-float".

(** 20 digits of [PI], from Machin-like series of the library. *)
Lemma PI_bounds_20 :
  (3.14159265358979323846 < PI < 3.14159265358979323847)%R.
Proof.
  pose proof (Machin.PI_2_3_7_ineq 10) as [Hlo Hhi].
  unfold sum_f_R0, tg_alt, Machin.PI_2_3_7_tg, Ratan_seq in Hlo, Hhi.
  cbn [Nat.mul Nat.add] in Hlo, Hhi.
  rewrite ?S_INR in Hlo, Hhi. cbn [INR pow] in Hlo, Hhi.
  split; lra.
Qed.

(** C4 as stated fails on the numbers the program runs on.  85 px of
    shoulders over a body of 340 px, for 175 cm: the scale factor is
    175/340 and the product 85 * 175/340 is 43.75, which rounds to 43.8;
    on binary64 the quotient and the product are rounded, the product times
    10 comes out as 437.49999999999994, and the length is 43.7. *)
Lemma scaleMeasurements_binary64_tie :
  (shoulderWidthCm
     (scaleMeasurements (shoulderShot 85 340) 175 scan_full_body)
   = 43.7)%float
  /\ (shoulderWidthCm
        (scaleMeasurements (shoulderShot 85 340) 175 scan_full_body)
      =? 43.8)%float = false
  /\ (85 * (175 / 340) * 10 = 437.49999999999994)%float
  /\ (85 * (175 / 340) = 43.75)%R
  /\ rounded_to_1_decimal (85 * (175 / 340)) 43.8
  /\ (shoulderWidthCm
        (scaleMeasurements (shoulderShot 85 340) 175 scan_full_body)
      = 43.8)%R.
Proof.
  split; [vm_compute; reflexivity |].
  split; [vm_compute; reflexivity |].
  split; [vm_compute; reflexivity |].
  exact scaleMeasurements_exact_tie.
Qed.

(** C7 as stated fails on the numbers the program runs on.  For the
    binary64 number [a] nearest to 9.557254332668315 the value [2 PI a] is
    60.04999999999999797..., which rounds to 60.0; the program computes
    [PI * (a + a) * 1 * 10] as 600.5 and returns 60.1.  For a semi-axis so
    small that [(a + a) ** 2] underflows to 0 the quotient [h] is [0 / 0]
    and the result is NaN. *)
Lemma computeChestCircumference_binary64_tie :
  (computeChestCircumference 9.557254332668315 9.557254332668315
   = 60.1)%float
  /\ (computeChestCircumference 9.557254332668315 9.557254332668315
      =? 60)%float = false
  /\ (0 < Binary64.to_R 9.557254332668315%float)%R
  /\ (59.95 < 2 * Num.Math_PI * Binary64.to_R 9.557254332668315%float
      < 60.05)%R
  /\ (r (2 * Num.Math_PI * Binary64.to_R 9.557254332668315%float) = 60)%R
  /\ (0 <? 1e-170)%float = true
  /\ PrimFloat.is_nan (computeChestCircumference 1e-170 1e-170)%float
     = true.
Proof.
  split; [vm_compute; reflexivity |].
  split; [vm_compute; reflexivity |].
  assert (E : FloatOps.Prim2SF 9.557254332668315%float
              = SpecFloat.S754_finite false 5380255881411260 (-49))
    by (vm_compute; reflexivity).
  unfold Binary64.to_R. rewrite E. clear E.
  pose proof PI_bounds_20 as [Hlo Hhi].
  unfold Num.Math_PI.
  change (powerRZ 2 (-49)) with (/ 2 ^ 49)%R.
  replace (2 ^ 49)%R with 562949953421312%R by (cbn [pow]; lra).
  split; [lra |]. split; [lra |].
  split.
  - unfold r. num_R. unfold Num.Math_round.
    rewrite (@Zfloor_eq 600) by (simpl; lra). lra.
  - split; vm_compute; reflexivity.
Qed.
End ScalingBinary64.


(** ** Temporal averaging *)

Section BinaryRounding.
Import SpecFloat.
Local Open Scope Z_scope.

(** binary64 is [prec = 53], [emax = 1024]: the exponent of a mantissa of
    [d] bits at exponent [e] is [max (d + e - 53) (-1074)]. *)
Lemma fexp_unfold (z : Z) : fexp 53 1024 z = Z.max (z - 53) (-1074).
Proof. reflexivity. Qed.

Lemma bounded_cases (m : positive) (e : Z) :
  bounded 53 1024 m e = true ->
  fexp 53 1024 (Zpos (digits2_pos m) + e) = e
  /\ e <= 971
  /\ Zpos (digits2_pos m) <= 53
  /\ -1074 <= e
  /\ (Zpos (digits2_pos m) = 53 \/ e = -1074).
Proof.
  unfold bounded, canonical_mantissa. rewrite andb_true_iff.
  rewrite Z.eqb_eq, Z.leb_le, fexp_unfold.
  change (1024 - 53) with 971. lia.
Qed.

(** Rounding a mantissa that already fits leaves it as it is. *)
Lemma binary_round_aux_canonical (s : bool) (m : positive) (e : Z) :
  fexp 53 1024 (Zpos (digits2_pos m) + e) = e -> e <= 971 ->
  binary_round_aux 53 1024 s (Zpos m) e loc_Exact = S754_finite s m e.
Proof.
  intros Hc He. unfold binary_round_aux, shr_fexp.
  cbn [Zdigits2 shr_record_of_loc]. rewrite Hc, Z.sub_diag.
  cbn [shr shr_m loc_of_shr_record round_nearest_even Zdigits2
       shr_record_of_loc].
  rewrite Hc, Z.sub_diag. cbn [shr shr_m].
  change (1024 - 53) with 971.
  destruct (Z.leb_spec e 971); [reflexivity | lia].
Qed.

(** Rounding an even mantissa that has one bit too many halves it. *)
Lemma binary_round_aux_even (s : bool) (m : positive) (e : Z) :
  fexp 53 1024 (Zpos (digits2_pos m) + (e + 1)) = e + 1 -> e + 1 <= 971 ->
  binary_round_aux 53 1024 s (Zpos m~0) e loc_Exact
  = S754_finite s m (e + 1).
Proof.
  intros Hc He. unfold binary_round_aux, shr_fexp.
  cbn [Zdigits2 digits2_pos shr_record_of_loc].
  rewrite Pos2Z.inj_succ.
  replace (Z.succ (Zpos (digits2_pos m)) + e)
    with (Zpos (digits2_pos m) + (e + 1)) by lia.
  rewrite Hc. replace (e + 1 - e) with 1 by lia.
  cbn [shr iter_pos shr_1 shr_m shr_r shr_s loc_of_shr_record
       round_nearest_even Zdigits2 shr_record_of_loc orb].
  rewrite Hc, Z.sub_diag. cbn [shr shr_m].
  change (1024 - 53) with 971.
  destruct (Z.leb_spec (e + 1) 971); [reflexivity | lia].
Qed.

Lemma div_eucl_exact (q d : Z) :
  0 < d -> Z.div_eucl (q * d) d = (q, 0).
Proof.
  intro Hd.
  assert (E : Z.div_eucl (q * d) d = ((q * d) / d, (q * d) mod d))
    by (unfold Z.div, Z.modulo; destruct (Z.div_eucl (q * d) d);
        reflexivity).
  rewrite E, Z.div_mul, Z.mod_mul by lia. reflexivity.
Qed.

(** [x + x] short of overflow: a normal number moves to the next exponent,
    a subnormal one doubles its mantissa. *)
Lemma SFadd_diag (s : bool) (m : positive) (e : Z) :
  bounded 53 1024 m e = true -> e <= 970 ->
  SFadd 53 1024 (S754_finite s m e) (S754_finite s m e)
  = if Zpos (digits2_pos m) =? 53 then S754_finite s m (e + 1)
    else S754_finite s m~0 e.
Proof.
  intros Hv He.
  destruct (@bounded_cases _ _ Hv) as [Hc [_ [Hd [Hemin Hcase]]]].
  rewrite fexp_unfold in Hc.
  unfold SFadd. rewrite Z.min_id. unfold shl_align. rewrite Z.sub_diag.
  cbn [fst].
  assert (E : cond_Zopp s (Zpos m) + cond_Zopp s (Zpos m)
              = cond_Zopp s (Zpos m~0)).
  { destruct s; cbn [cond_Zopp]; lia. }
  rewrite E. clear E.
  assert (E : binary_normalize 53 1024 (cond_Zopp s (Zpos m~0)) e false
              = binary_round 53 1024 s m~0 e)
    by (destruct s; reflexivity).
  rewrite E. clear E. unfold binary_round.
  cbn [digits2_pos]. rewrite Pos2Z.inj_succ, fexp_unfold.
  destruct (Z.eqb_spec (Zpos (digits2_pos m)) 53) as [H53 | Hsub].
  - replace (Z.max (Z.succ (Zpos (digits2_pos m)) + e - 53) (-1074))
      with (e + 1) by lia.
    unfold shl_align. replace (e + 1 - e) with 1 by lia. cbv iota beta.
    apply binary_round_aux_even; [rewrite fexp_unfold |]; lia.
  - replace (Z.max (Z.succ (Zpos (digits2_pos m)) + e - 53) (-1074))
      with e by lia.
    unfold shl_align. rewrite Z.sub_diag. cbv iota beta.
    apply binary_round_aux_canonical; [| lia].
    cbn [digits2_pos]. rewrite Pos2Z.inj_succ, fexp_unfold. lia.
Qed.

(** The division by 1 = 2^52 * 2^-52. *)
Lemma SFdiv_core_by_one (m : positive) (e : Z) :
  bounded 53 1024 m e = true ->
  SFdiv_core_binary 53 1024 (Zpos m) e 4503599627370496 (-52)
  = if e =? -1074 then (Zpos m, e, loc_Exact)
    else (Zpos m~0, e - 1, loc_Exact).
Proof.
  intro Hv.
  destruct (@bounded_cases _ _ Hv) as [Hc [He [Hd [Hemin Hcase]]]].
  rewrite fexp_unfold in Hc.
  unfold SFdiv_core_binary. cbn [Zdigits2].
  change (Zpos (digits2_pos 4503599627370496)) with 53.
  rewrite fexp_unfold.
  destruct (Z.eqb_spec e (-1074)) as [-> | Hne].
  - replace (Z.min (Z.max (Zpos (digits2_pos m) + -1074 - (53 + -52) - 53)
                      (-1074)) (-1074 - -52))
      with (-1074) by lia.
    change (-1074 - -52 - -1074) with 52.
    rewrite Z.shiftl_mul_pow2 by lia.
    change (2 ^ 52) with 4503599627370496.
    rewrite div_eucl_exact by reflexivity. reflexivity.
  - replace (Z.min (Z.max (Zpos (digits2_pos m) + e - (53 + -52) - 53)
                      (-1074)) (e - -52))
      with (e - 1) by lia.
    replace (e - -52 - (e - 1)) with 53 by lia.
    rewrite Z.shiftl_mul_pow2 by lia.
    replace (Zpos m * 2 ^ 53) with (Zpos m~0 * 4503599627370496)
      by (change (2 ^ 53) with (2 * 4503599627370496); lia).
    rewrite div_eucl_exact by reflexivity. reflexivity.
Qed.

Lemma SFdiv_by_one (s : bool) (m : positive) (e : Z) :
  bounded 53 1024 m e = true ->
  SFdiv 53 1024 (S754_finite s m e)
    (S754_finite false 4503599627370496 (-52))
  = S754_finite s m e.
Proof.
  intro Hv.
  destruct (@bounded_cases _ _ Hv) as [Hc [He [Hd [Hemin Hcase]]]].
  unfold SFdiv. rewrite (@SFdiv_core_by_one _ _ Hv). rewrite xorb_false_r.
  destruct (Z.eqb_spec e (-1074)) as [-> | Hne].
  - apply binary_round_aux_canonical; assumption.
  - rewrite (@binary_round_aux_even s m (e - 1));
      replace (e - 1 + 1) with e by lia; [reflexivity | exact Hc | lia].
Qed.

(** Halving the double of a normal number is the same division. *)
Lemma SFdiv_core_by_two (m : positive) (e : Z) :
  SFdiv_core_binary 53 1024 (Zpos m) (e + 1) 4503599627370496 (-51)
  = SFdiv_core_binary 53 1024 (Zpos m) e 4503599627370496 (-52).
Proof.
  unfold SFdiv_core_binary. cbn [Zdigits2].
  change (Zpos (digits2_pos 4503599627370496)) with 53.
  replace (Zpos (digits2_pos m) + (e + 1) - (53 + -51))
    with (Zpos (digits2_pos m) + e - (53 + -52)) by lia.
  replace (e + 1 - -51) with (e - -52) by lia.
  reflexivity.
Qed.

(** Halving the double of a subnormal number. *)
Lemma SFdiv_subnormal_by_two (s : bool) (m : positive) (e : Z) :
  bounded 53 1024 m e = true ->
  Zpos (digits2_pos m) <> 53 ->
  SFdiv 53 1024 (S754_finite s m~0 e)
    (S754_finite false 4503599627370496 (-51))
  = S754_finite s m e.
Proof.
  intros Hv Hsub.
  destruct (@bounded_cases _ _ Hv) as [Hc [He [Hd [Hemin Hcase]]]].
  assert (e = -1074) as -> by lia.
  rewrite fexp_unfold in Hc.
  unfold SFdiv, SFdiv_core_binary. cbn [Zdigits2].
  change (Zpos (digits2_pos 4503599627370496)) with 53.
  cbn [digits2_pos].
  rewrite Pos2Z.inj_succ, fexp_unfold.
  replace (Z.min (Z.max (Z.succ (Zpos (digits2_pos m)) + -1074
                         - (53 + -51) - 53) (-1074)) (-1074 - -51))
    with (-1074) by lia.
  change (-1074 - -51 - -1074) with 51.
  rewrite Z.shiftl_mul_pow2 by lia.
  replace (Zpos m~0 * 2 ^ 51) with (Zpos m * 4503599627370496)
    by (change 4503599627370496 with (2 * 2 ^ 51); lia).
  rewrite div_eucl_exact by reflexivity.
  rewrite xorb_false_r.
  apply binary_round_aux_canonical; [rewrite fexp_unfold |]; lia.
Qed.

(** [(0 + x + x) / 2 = (0 + x) / 1] for NaN, the infinities, the zeros and
    every finite [x] of magnitude at most [HALF_MAX]. *)
Lemma SF_double_halves (x : spec_float) :
  valid_binary 53 1024 x = true ->
  SFleb (SFabs x) (S754_finite false 9007199254740991 970) = true ->
  SFdiv 53 1024
    (SFadd 53 1024 (SFadd 53 1024 (S754_zero false) x) x)
    (S754_finite false 4503599627370496 (-51))
  = SFdiv 53 1024 (SFadd 53 1024 (S754_zero false) x)
      (S754_finite false 4503599627370496 (-52)).
Proof.
  intros Hv Hle.
  destruct x as [[|] | [|] | | s m e]; try reflexivity; try discriminate.
  cbn [valid_binary] in Hv.
  assert (He : e <= 970).
  { unfold SFleb, SFabs, SFcompare in Hle.
    destruct (Z.compare_spec e 970); [lia | lia | discriminate]. }
  change (SFadd 53 1024 (S754_zero false) (S754_finite s m e))
    with (S754_finite s m e).
  rewrite (@SFadd_diag s _ _ Hv He), (@SFdiv_by_one s _ _ Hv).
  destruct (Z.eqb_spec (Zpos (digits2_pos m)) 53) as [H53 | Hsub].
  - unfold SFdiv. rewrite SFdiv_core_by_two.
    exact (@SFdiv_by_one s _ _ Hv).
  - apply SFdiv_subnormal_by_two; assumption.
Qed.

Lemma binary64_double_halves (x : PrimFloat.float) :
  PrimFloat.leb (PrimFloat.abs x) Binary64.HALF_MAX = true ->
  PrimFloat.div (PrimFloat.add (PrimFloat.add PrimFloat.zero x) x)
    (num_of_nat 2)
  = PrimFloat.div (PrimFloat.add PrimFloat.zero x) (num_of_nat 1).
Proof.
  intro H. apply FloatAxioms.Prim2SF_inj.
  rewrite FloatAxioms.leb_spec, FloatAxioms.abs_spec in H.
  rewrite !FloatAxioms.div_spec, !FloatAxioms.add_spec.
  unfold FloatAxioms.SF64div, FloatAxioms.SF64add.
  change (FloatOps.Prim2SF PrimFloat.zero) with (S754_zero false).
  change (FloatOps.Prim2SF (num_of_nat 2))
    with (S754_finite false 4503599627370496 (-51)).
  change (FloatOps.Prim2SF (num_of_nat 1))
    with (S754_finite false 4503599627370496 (-52)).
  change (FloatOps.Prim2SF Binary64.HALF_MAX)
    with (S754_finite false 9007199254740991 970) in H.
  apply SF_double_halves; [apply FloatAxioms.Prim2SF_valid | exact H].
Qed.
End BinaryRounding.

Section AveragingClaims.
Import Num Measure.
Local Open Scope R_scope.

(** C5.  On an empty sequence of frames both averagers throw
    [Error("No frames to average")]; in particular neither returns a record,
    zero-filled or other.  The raw averager does so over any arithmetic. *)
Theorem average_empty_throws :
  (forall (N : Type) (A : Arith N),
     averageRawMeasurements (N := N) [] = Throw "No frames to average"
     /\ forall avg, averageRawMeasurements (N := N) [] <> Ok avg)
  /\ averageFaceMeasurements [] = Throw "No frames to average"
  /\ forall avg, averageFaceMeasurements [] <> Ok avg.
Proof.
  split; [intros N A; split | split];
    try reflexivity; intros avg; discriminate.
Qed.

(** Only the empty sequence throws. *)
Lemma averageRawMeasurements_returns
    (N : Type) (A : Arith N) (frames : list (RawMeasurements N)) :
  frames <> [] -> exists avg, averageRawMeasurements frames = Ok avg.
Proof.
  intro Hne. destruct frames as [| f rest]; [contradiction |].
  unfold averageRawMeasurements. cbn [List.length Nat.eqb].
  eexists. reflexivity.
Qed.

Lemma addFrame_swap (s f g : RawMeasurements R) :
  addFrame (addFrame s f) g = addFrame (addFrame s g) f.
Proof.
  unfold addFrame. cbn. f_equal; ring.
Qed.

Lemma sum_frames_permutation (frames frames' : list (RawMeasurements R)) :
  Permutation frames frames' ->
  forall s, fold_left addFrame frames s = fold_left addFrame frames' s.
Proof.
  induction 1 as [| f l l' _ IH | f g l | l l' l'' _ IH1 _ IH2]; intro s.
  - reflexivity.
  - cbn [fold_left]. apply IH.
  - cbn [fold_left]. rewrite addFrame_swap. reflexivity.
  - rewrite IH1. apply IH2.
Qed.

(** binary64 addition commutes, and the running sum that starts at [0]
    does not depend on the order of its first two terms. *)
Lemma SFadd_comm (x y : SpecFloat.spec_float) :
  SpecFloat.SFadd FloatOps.prec FloatOps.emax x y
  = SpecFloat.SFadd FloatOps.prec FloatOps.emax y x.
Proof.
  destruct x as [[|] | [|] | | sx mx ex], y as [[|] | [|] | | sy my ey];
    try reflexivity.
  unfold SpecFloat.SFadd. rewrite (Z.min_comm ex ey). f_equal.
  apply Z.add_comm.
Qed.

Lemma SFadd_from_zero_swap (x y : SpecFloat.spec_float) :
  SpecFloat.SFadd FloatOps.prec FloatOps.emax
    (SpecFloat.SFadd FloatOps.prec FloatOps.emax
       (SpecFloat.S754_zero false) x) y
  = SpecFloat.SFadd FloatOps.prec FloatOps.emax
      (SpecFloat.SFadd FloatOps.prec FloatOps.emax
         (SpecFloat.S754_zero false) y) x.
Proof.
  destruct x as [[|] | [|] | | sx mx ex], y as [[|] | [|] | | sy my ey];
    try reflexivity.
  exact (SFadd_comm (SpecFloat.S754_finite sx mx ex)
           (SpecFloat.S754_finite sy my ey)).
Qed.

Lemma binary64_sum_from_zero_swap (x y : PrimFloat.float) :
  PrimFloat.add (PrimFloat.add PrimFloat.zero x) y
  = PrimFloat.add (PrimFloat.add PrimFloat.zero y) x.
Proof.
  apply FloatAxioms.Prim2SF_inj.
  rewrite !FloatAxioms.add_spec. unfold FloatAxioms.SF64add.
  change (FloatOps.Prim2SF PrimFloat.zero) with (SpecFloat.S754_zero false).
  apply SFadd_from_zero_swap.
Qed.

(** Each field of the sum, and of the average, in any arithmetic. *)
Lemma field_of_sum_any (N : Type) (A : Arith N)
    (p : RawMeasurements N -> N) :
  In p rawFields ->
  forall frames s,
    p (fold_left addFrame frames s)
    = fold_left num_add (map p frames) (p s).
Proof.
  intros Hp frames.
  induction frames as [| f rest IH]; intro s; [reflexivity |].
  cbn [fold_left map]. rewrite IH. f_equal.
  unfold rawFields in Hp. cbn [In] in Hp.
  repeat (destruct Hp as [<- | Hp]; [reflexivity |]).
  destruct Hp.
Qed.

Lemma field_of_average_any (N : Type) (A : Arith N)
    (p : RawMeasurements N -> N) :
  In p rawFields ->
  forall frames avg,
    averageRawMeasurements frames = Ok avg ->
    p avg = num_div (fold_left num_add (map p frames) num_zero)
              (num_of_nat (List.length frames)).
Proof.
  intros Hp frames avg. unfold averageRawMeasurements.
  destruct (List.length frames =? 0)%nat; [discriminate |].
  intros [= <-].
  pose proof (@field_of_sum_any N A p Hp frames) as Hsum.
  unfold rawFields in Hp. cbn [In] in Hp.
  repeat (destruct Hp as [<- | Hp];
          [cbn [shoulderWidthPx hipWidthPx legLengthPx torsoLengthPx
                armLengthPx wingspanPx bodyHeightPx];
           rewrite Hsum; reflexivity |]).
  destruct Hp.
Qed.

(** C6, as the source has it.  In every arithmetic (binary64 included)
    [averageRawMeasurements] returns a record for every non-empty list,
    and each field of it is the sum of that field over the frames, added
    from left to right starting at 0, divided by the number of frames.
    Over the reals, where [+] is associative and commutative, the record
    is the same for every permutation of the list, and averaging [[a; a]]
    gives what averaging [[a]] gives.  On binary64, the numbers the program
    runs on, a list of two frames averages to the same record in either
    order, and averaging [[a; a]] gives what averaging [[a]] gives whenever
    no field of [a] is so large that doubling it overflows. *)
Theorem averageRawMeasurements_order_independent :
  (forall (N : Type) (A : Arith N) (frames : list (RawMeasurements N)),
     frames <> [] ->
     exists avg,
       averageRawMeasurements frames = Ok avg
       /\ forall p, In p rawFields ->
            p avg = num_div (fold_left num_add (map p frames) num_zero)
                      (num_of_nat (List.length frames)))
  /\ (forall frames frames' : list (RawMeasurements R),
        frames <> [] -> Permutation frames frames' ->
        exists avg, averageRawMeasurements frames = Ok avg
                    /\ averageRawMeasurements frames' = Ok avg)
  /\ (forall a : RawMeasurements R,
        averageRawMeasurements [a; a] = averageRawMeasurements [a])
  /\ (forall a b : RawMeasurements PrimFloat.float,
        averageRawMeasurements [a; b] = averageRawMeasurements [b; a])
  /\ (forall a : RawMeasurements PrimFloat.float,
        doublesWithoutOverflow a ->
        averageRawMeasurements [a; a] = averageRawMeasurements [a]).
Proof.
  split; [| split; [| split; [| split]]].
  - intros N A frames Hne.
    destruct (@averageRawMeasurements_returns N A frames Hne)
      as [avg Havg].
    exists avg. split; [exact Havg |].
    intros p Hp. exact (@field_of_average_any N A p Hp frames avg Havg).
  - intros frames frames' Hne Hperm.
    destruct (@averageRawMeasurements_returns R _ frames Hne) as [avg Havg].
    exists avg. split; [exact Havg |].
    rewrite <- Havg. unfold averageRawMeasurements.
    rewrite <- (Permutation_length Hperm).
    rewrite <- (sum_frames_permutation Hperm). reflexivity.
  - intro a. unfold averageRawMeasurements, addFrame.
    cbn. f_equal. f_equal; field.
  - intros a b. unfold averageRawMeasurements, addFrame.
    cbn [List.length Nat.eqb fold_left shoulderWidthPx hipWidthPx
         legLengthPx torsoLengthPx armLengthPx wingspanPx bodyHeightPx
         num_zero num_add num_div Arith_binary64].
    f_equal. f_equal; f_equal; apply binary64_sum_from_zero_swap.
  - intros a Ha. unfold averageRawMeasurements, addFrame.
    cbn [List.length Nat.eqb fold_left shoulderWidthPx hipWidthPx
         legLengthPx torsoLengthPx armLengthPx wingspanPx bodyHeightPx
         num_zero num_add num_div Arith_binary64].
    f_equal.
    f_equal; apply binary64_double_halves; apply Ha;
      unfold rawFields; cbn [In]; tauto.
Qed.

End AveragingClaims.

Section AveragingBinary64.
Import Measure PrimFloat.
#[local] Set Warnings "-inexact-float".
Local Open Scope float_scope.

Lemma averageRawMeasurements_order_independent_witness :
  (exists avg,
     averageRawMeasurements
       [frameOfWidth 0.1%R; frameOfWidth 0.2%R; frameOfWidth 0.3%R]
     = Ok avg
     /\ averageRawMeasurements
          [frameOfWidth 0.3%R; frameOfWidth 0.2%R; frameOfWidth 0.1%R]
        = Ok avg)
  /\ averageRawMeasurements [frameOfWidth 0.1; frameOfWidth 0.1]
     = averageRawMeasurements [frameOfWidth 0.1].
Proof.
  split.
  - apply (proj1 (proj2 averageRawMeasurements_order_independent)
             [frameOfWidth 0.1%R; frameOfWidth 0.2%R; frameOfWidth 0.3%R]
             [frameOfWidth 0.3%R; frameOfWidth 0.2%R; frameOfWidth 0.1%R]).
    + discriminate.
    + apply (Permutation_rev
               [frameOfWidth 0.1%R; frameOfWidth 0.2%R;
                frameOfWidth 0.3%R]).
  - apply (proj2 (proj2 (proj2 (proj2
             averageRawMeasurements_order_independent)))
             (frameOfWidth 0.1)).
    intros p Hp. unfold rawFields in Hp. cbn [In] in Hp.
    repeat (destruct Hp as [<- | Hp]; [vm_compute; reflexivity |]).
    destruct Hp.
Defined.

(** C6 as stated fails on the numbers the program runs on.  binary64
    addition is not associative: the frames with shoulder widths 0.1, 0.2,
    0.3 average to 0.20000000000000004 in that order and to
    0.19999999999999998 in the reverse order. *)
Lemma averageRawMeasurements_binary64_order_matters :
  Permutation [frameOfWidth 0.1; frameOfWidth 0.2; frameOfWidth 0.3]
              [frameOfWidth 0.3; frameOfWidth 0.2; frameOfWidth 0.1]
  /\ exists avg avg',
       averageRawMeasurements
         [frameOfWidth 0.1; frameOfWidth 0.2; frameOfWidth 0.3] = Ok avg
       /\ averageRawMeasurements
            [frameOfWidth 0.3; frameOfWidth 0.2; frameOfWidth 0.1] = Ok avg'
       /\ shoulderWidthPx avg = 0.20000000000000004
       /\ shoulderWidthPx avg' = 0.19999999999999998
       /\ PrimFloat.eqb (shoulderWidthPx avg) (shoulderWidthPx avg') = false.
Proof.
  split.
  - apply (Permutation_rev
             [frameOfWidth 0.1; frameOfWidth 0.2; frameOfWidth 0.3]).
  - eexists. eexists.
    split; [reflexivity |]. split; [reflexivity |].
    vm_compute. repeat split.
Qed.
End AveragingBinary64.


(** ** The quality validator *)

Section QualityClaims.
Import Num Measure.
Local Open Scope string_scope.
Local Open Scope R_scope.

Lemma at_index_defined (landmarks : list Landmark) (idx : nat) :
  (idx < List.length landmarks)%nat ->
  exists lm, at_index landmarks idx = Some lm.
Proof.
  intro Hlt. unfold at_index.
  destruct (nth_error landmarks idx) as [lm |] eqn:E.
  - exists lm. reflexivity.
  - apply nth_error_None in E. lia.
Qed.

(** C8.  In full-body mode, a landmark set of at least 33 points whose
    required landmarks (nose, shoulders, hips, ankles: indices 0, 11, 12,
    23, 24, 27, 28) are all present and visible, and whose nose has
    [y = 0.05], is rejected with the reason "Move back — head cut off". *)
Theorem full_body_head_cut_off
    (landmarks : list Landmark) (frameWidth frameHeight : R)
    (nose : Landmark) :
  (33 <= List.length landmarks)%nat ->
  allVisible landmarks FULL_BODY_LANDMARKS = true ->
  at_index landmarks 0 = Some nose ->
  lm_y nose = 0.05 ->
  checkLandmarkQualityForMode landmarks frameWidth frameHeight
    (of_scan scan_full_body)
  = Ok {| valid := false; reason := "Move back — head cut off" |}.
Proof.
  intros Hlen Hvis Hnose Hy.
  unfold checkLandmarkQualityForMode.
  destruct (Nat.ltb_spec (List.length landmarks) 33) as [Hlt | _]; [lia |].
  unfold checkFullBodyQuality. rewrite Hvis. cbn [negb].
  rewrite Hnose. cbn [prop bind]. rewrite Hy.
  rewrite ltb_true by lra. reflexivity.
Qed.
End QualityClaims.


Section SampleFacts.
Import Num Measure.
Local Open Scope string_scope.
Local Open Scope R_scope.

Lemma seen_isVisible (x y : R) : isVisible (seen x y) = true.
Proof.
  unfold isVisible, seen, VISIBILITY_THRESHOLD. cbn [lm_visibility].
  apply geb_true. lra.
Qed.

Lemma poseWithNoseAt_visible (noseY : R) (required : list nat) :
  Forall (fun idx => (idx < 33)%nat) required ->
  allVisible (poseWithNoseAt noseY) required = true.
Proof.
  intro Hall. unfold allVisible. apply forallb_forall. intros idx Hin.
  rewrite Forall_forall in Hall. specialize (Hall idx Hin).
  unfold at_index, poseWithNoseAt.
  destruct idx as [| idx]; cbn [nth_error]; [apply seen_isVisible |].
  rewrite (nth_error_nth' _ (seen 0.5 0.8)) by (rewrite repeat_length; lia).
  rewrite nth_repeat. apply seen_isVisible.
Qed.

Lemma full_body_head_cut_off_witness :
  checkLandmarkQualityForMode (poseWithNoseAt 0.05) 640 480
    (of_scan scan_full_body)
  = Ok {| valid := false; reason := "Move back — head cut off" |}.
Proof.
  apply (@full_body_head_cut_off (poseWithNoseAt 0.05) 640 480
           (seen 0.5 0.05)).
  - unfold poseWithNoseAt. cbn [List.length]. rewrite repeat_length. lia.
  - apply poseWithNoseAt_visible. unfold FULL_BODY_LANDMARKS.
    repeat constructor.
  - reflexivity.
  - reflexivity.
Defined.

(** The same pose with the nose at [y = 0.1] passes the full-body check. *)
Lemma goodFrame_accepted :
  checkLandmarkQualityForMode (poseWithNoseAt 0.1) 640 480
    (of_scan scan_full_body)
  = Ok {| valid := true; reason := "Good framing — hold still" |}.
Proof.
  unfold checkLandmarkQualityForMode, checkFullBodyQuality.
  rewrite poseWithNoseAt_visible
    by (unfold FULL_BODY_LANDMARKS; repeat constructor).
  unfold poseWithNoseAt, at_index.
  cbn [List.length repeat Nat.ltb Nat.leb negb nth_error prop bind lm_y seen].
  unfold Math_max, Num.gtb.
  rewrite (@ltb_false 0.1 0.08) by lra.
  rewrite Rmax_left by lra.
  rewrite (@ltb_false (1 - 0.08) 0.8) by lra.
  rewrite (@ltb_false (0.8 - 0.1) 0.4) by lra.
  rewrite (@ltb_false 0.98 (0.8 - 0.1)) by lra.
  reflexivity.
Qed.
End SampleFacts.


(** ** The capture loop *)

Section CameraFacts.
Import Num Measure Camera.
Local Open Scope string_scope.
Local Open Scope Z_scope.

Ltac landmark_at landmarks idx :=
  let lm := fresh "lm" in
  let E := fresh "E" in
  destruct (@at_index_defined landmarks idx) as [lm E]; [lia |];
  rewrite ?E.

Ltac split_ifs :=
  repeat match goal with
         | |- context [if ?b then _ else _] => destruct b
         end.

(** The validator returns a verdict for every landmark list (it never reads
    a property of [undefined]), and accepts only lists of 33 or more. *)
Lemma checkLandmarkQualityForMode_returns
    (landmarks : list Landmark) (w h : R) (mode : CameraMode) :
  exists q,
    checkLandmarkQualityForMode landmarks w h mode = Ok q
    /\ (valid q = true -> (33 <= List.length landmarks)%nat).
Proof.
  unfold checkLandmarkQualityForMode.
  destruct (Nat.ltb_spec (List.length landmarks) 33) as [Hlt | Hge].
  - eexists. split; [reflexivity | cbn; discriminate].
  - landmark_at landmarks 0%nat. landmark_at landmarks 7%nat.
    landmark_at landmarks 8%nat. landmark_at landmarks 11%nat.
    landmark_at landmarks 12%nat. landmark_at landmarks 23%nat.
    landmark_at landmarks 24%nat. landmark_at landmarks 27%nat.
    landmark_at landmarks 28%nat.
    destruct mode as [[ | | | ] | | ];
      unfold checkFaceQuality, checkUpperBodyQuality,
        checkSideProfileQuality, checkFullBodyQuality, reject, accept;
      rewrite ?E, ?E0, ?E1, ?E2, ?E3, ?E4, ?E5, ?E6, ?E7;
      cbn [prop bind]; split_ifs;
      eexists; (split; [reflexivity | intros _; exact Hge]).
Qed.

(** On 33 or more landmarks every extractor returns. *)
Lemma extractors_return (landmarks : list Landmark) (w h : R) :
  (33 <= List.length landmarks)%nat ->
  (exists raw, extractRawMeasurements landmarks w h = Ok raw)
  /\ (exists raw, extractUpperBodyMeasurements landmarks w h = Ok raw)
  /\ (exists f, extractFaceMeasurements landmarks w h = Ok f).
Proof.
  intro Hge.
  landmark_at landmarks 0%nat. landmark_at landmarks 1%nat.
  landmark_at landmarks 4%nat. landmark_at landmarks 7%nat.
  landmark_at landmarks 8%nat. landmark_at landmarks 9%nat.
  landmark_at landmarks 10%nat. landmark_at landmarks 11%nat.
  landmark_at landmarks 12%nat. landmark_at landmarks 15%nat.
  landmark_at landmarks 16%nat. landmark_at landmarks 23%nat.
  landmark_at landmarks 24%nat. landmark_at landmarks 27%nat.
  landmark_at landmarks 28%nat.
  unfold extractRawMeasurements, extractUpperBodyMeasurements,
    extractFaceMeasurements.
  rewrite ?E, ?E0, ?E1, ?E2, ?E3, ?E4, ?E5, ?E6, ?E7, ?E8, ?E9, ?E10,
    ?E11, ?E12, ?E13.
  cbn [dist midpoint prop bind].
  repeat split; eexists; reflexivity.
Qed.


Lemma tick_cases (mode : CameraMode) (requiredGoodFrames : Z)
    (st : CameraState) (frame : Frame) :
  exists st',
    tick mode requiredGoodFrames st frame = Ok st'
    /\ tick_outcome mode requiredGoodFrames st frame st'.
Proof.
  unfold tick_outcome, tick, verdict.
  destruct (result frame) as [landmarks |].
  - destruct (checkLandmarkQualityForMode_returns
                landmarks (liveW frame) (liveH frame) mode)
      as [q [Eq Hlen]].
    rewrite Eq. cbn [bind]. destruct (valid q) eqn:Hv.
    + destruct (@extractors_return landmarks (liveW frame) (liveH frame)
                  (Hlen eq_refl))
        as [[raw Eraw] [[upper Eupper] [f Ef]]].
      destruct mode as [[ | | | ] | | ];
        rewrite ?Eraw, ?Eupper, ?Ef; cbn [bind fst snd];
        eexists; (split; [reflexivity |]);
        cbn [goodFrameCountRef canCapture rawFrameBuffer faceFrameBuffer];
        repeat split; eexists; reflexivity.
    + eexists. split; [reflexivity |].
      cbn [goodFrameCountRef canCapture rawFrameBuffer faceFrameBuffer].
      repeat split.
  - eexists. split; [reflexivity |]. cbn. repeat split.
Qed.

Lemma pushBounded_length (A : Type) (buf : list A) (x : A) :
  (List.length buf <= MAX_BUFFER ->
   List.length (pushBounded buf x) <= MAX_BUFFER)%nat.
Proof.
  intro Hle. unfold pushBounded.
  destruct (Nat.ltb_spec MAX_BUFFER (List.length (buf ++ [x]))) as [Hlt | Hge].
  - destruct buf as [| b rest]; cbn [app tl List.length] in *.
    + unfold MAX_BUFFER in *. lia.
    + rewrite length_app in *. cbn [List.length] in *. lia.
  - exact Hge.
Qed.

(** Appending to a full buffer drops its first (oldest) element. *)
Lemma pushBounded_full (A : Type) (oldest : A) (rest : list A) (x : A) :
  List.length (oldest :: rest) = MAX_BUFFER ->
  pushBounded (oldest :: rest) x = (rest ++ [x])%list.
Proof.
  intro Hlen. unfold pushBounded.
  destruct (Nat.ltb_spec MAX_BUFFER (List.length ((oldest :: rest) ++ [x])))
    as [_ | Hge].
  - reflexivity.
  - rewrite length_app in Hge. cbn [List.length] in *. lia.
Qed.

(** Below capacity nothing is dropped. *)
Lemma pushBounded_room (A : Type) (buf : list A) (x : A) :
  (List.length buf < MAX_BUFFER)%nat ->
  pushBounded buf x = (buf ++ [x])%list.
Proof.
  intro Hlt. unfold pushBounded.
  destruct (Nat.ltb_spec MAX_BUFFER (List.length (buf ++ [x])))
    as [Hgt | _].
  - rewrite length_app in Hgt. cbn [List.length] in Hgt. lia.
  - reflexivity.
Qed.

(** A property that holds initially and survives every processed frame
    holds after every session; in particular a session never throws. *)
Lemma run_invariant (mode : CameraMode) (requiredGoodFrames : Z)
    (P : CameraState -> Prop) :
  (forall st frame st',
     P st -> tick mode requiredGoodFrames st frame = Ok st' -> P st') ->
  forall frames st,
    P st ->
    exists st', run mode requiredGoodFrames st frames = Ok st' /\ P st'.
Proof.
  intros Hstep frames.
  induction frames as [| frame rest IH]; intros st HP.
  - exists st. split; [reflexivity | exact HP].
  - destruct (tick_cases mode requiredGoodFrames st frame) as [st1 [E1 _]].
    cbn [run]. rewrite E1. cbn [bind].
    apply IH. exact (Hstep st frame st1 HP E1).
Qed.
End CameraFacts.

Section CameraClaims.
Import Num Measure Camera.
Local Open Scope string_scope.
Local Open Scope Z_scope.

Lemma tick_outcome_of (mode : CameraMode) (requiredGoodFrames : Z)
    (st : CameraState) (frame : Frame) (st' : CameraState) :
  tick mode requiredGoodFrames st frame = Ok st' ->
  tick_outcome mode requiredGoodFrames st frame st'.
Proof.
  intro E.
  destruct (tick_cases mode requiredGoodFrames st frame) as [st1 [E1 H1]].
  rewrite E in E1. injection E1 as ->. exact H1.
Qed.

Lemma headCutFrame_rejected :
  verdict (of_scan scan_full_body) headCutFrame = Rejected.
Proof.
  unfold verdict, headCutFrame. cbn [result liveW liveH].
  unfold checkLandmarkQualityForMode, checkFullBodyQuality.
  rewrite poseWithNoseAt_visible
    by (unfold FULL_BODY_LANDMARKS; repeat constructor).
  unfold poseWithNoseAt, at_index.
  cbn [List.length repeat Nat.ltb Nat.leb negb nth_error prop bind lm_y seen].
  rewrite (@ltb_true 0.05 0.08) by lra.
  reflexivity.
Qed.

Lemma goodFrame_verdict :
  verdict (of_scan scan_full_body) goodFrame = Accepted.
Proof.
  unfold verdict, goodFrame. cbn [result liveW liveH].
  rewrite goodFrame_accepted. reflexivity.
Qed.

(** C3, as the source has it.  An accepted frame sets the counter to
    [min (counter + 1) requiredGoodFrames]; a rejected frame sets it to
    [max 0 (counter - 2)], which is [counter - 2] only from 2 upwards; the
    ready flag [canCapture] is set when an accepted frame brings the counter
    to [requiredGoodFrames] and cleared when a rejected frame leaves it
    below.  Over a whole session (threshold at least 1) the flag is set
    exactly when the counter is at the threshold. *)
Theorem capture_counter_and_ready (mode : CameraMode)
    (requiredGoodFrames : Z) :
  (forall st frame,
     exists st',
       tick mode requiredGoodFrames st frame = Ok st'
       /\ (verdict mode frame = Accepted ->
           goodFrameCountRef st'
           = Z.min (goodFrameCountRef st + 1) requiredGoodFrames
           /\ (requiredGoodFrames <= goodFrameCountRef st' ->
               canCapture st' = true))
       /\ (verdict mode frame = Rejected ->
           goodFrameCountRef st' = Z.max 0 (goodFrameCountRef st - 2)
           /\ (2 <= goodFrameCountRef st ->
               goodFrameCountRef st' = goodFrameCountRef st - 2)
           /\ (goodFrameCountRef st' < requiredGoodFrames ->
               canCapture st' = false)))
  /\ (1 <= requiredGoodFrames ->
      forall frames,
        exists st,
          run mode requiredGoodFrames initial frames = Ok st
          /\ (canCapture st = true
              <-> requiredGoodFrames <= goodFrameCountRef st)).
Proof.
  split.
  - intros st frame.
    destruct (tick_cases mode requiredGoodFrames st frame) as [st' [E H]].
    exists st'. split; [exact E |]. unfold tick_outcome in H.
    split; intro Hv; rewrite Hv in H.
    + destruct H as [Hc [Hr _]]. split; [exact Hc |].
      intro Hge. rewrite Hr.
      destruct (Z.geb_spec (goodFrameCountRef st') requiredGoodFrames);
        [reflexivity | lia].
    + destruct H as [Hc [Hr _]]. split; [exact Hc |]. split; [lia |].
      intro Hlt. rewrite Hr.
      destruct (Z.ltb_spec (goodFrameCountRef st') requiredGoodFrames);
        [reflexivity | lia].
  - intros Hreq frames.
    apply (@run_invariant mode requiredGoodFrames
             (fun st => canCapture st = true
                        <-> requiredGoodFrames <= goodFrameCountRef st)).
    + intros st frame st' HP E. apply tick_outcome_of in E.
      unfold tick_outcome in E.
      destruct (verdict mode frame).
      * destruct E as [Hc [Hr _]]. rewrite Hc, Hr.
        split; [discriminate | lia].
      * destruct E as [Hc [Hr _]]. rewrite Hr.
        destruct (Z.ltb_spec (goodFrameCountRef st') requiredGoodFrames).
        -- split; [discriminate | lia].
        -- rewrite HP. split; lia.
      * destruct E as [Hc [Hr _]]. rewrite Hr.
        destruct (Z.geb_spec (goodFrameCountRef st') requiredGoodFrames).
        -- split; [lia | reflexivity].
        -- rewrite HP. split; lia.
    + cbn. split; [discriminate | lia].
Qed.

Lemma capture_counter_and_ready_witness :
  exists st,
    run (of_scan scan_full_body) 30 initial
      [goodFrame; headCutFrame; noPoseFrame; goodFrame] = Ok st
    /\ (canCapture st = true <-> 30 <= goodFrameCountRef st).
Proof.
  apply (proj2 (capture_counter_and_ready (of_scan scan_full_body) 30)).
  lia.
Defined.

(** C3 as stated fails at the floor: a rejected first frame (the head-cut
    pose, at counter 0) leaves the counter at 0, not at -2. *)
Lemma rejected_frame_does_not_go_below_zero :
  verdict (of_scan scan_full_body) headCutFrame = Rejected
  /\ exists st',
       tick (of_scan scan_full_body) 30 initial headCutFrame = Ok st'
       /\ goodFrameCountRef st' = 0
       /\ goodFrameCountRef st' <> goodFrameCountRef initial - 2.
Proof.
  split; [exact headCutFrame_rejected |].
  destruct (tick_cases (of_scan scan_full_body) 30 initial headCutFrame)
    as [st' [E H]].
  exists st'. split; [exact E |].
  unfold tick_outcome in H. rewrite headCutFrame_rejected in H.
  destruct H as [Hc _]. cbn in Hc. rewrite Hc. cbn. split; [reflexivity | lia].
Qed.

(** C10.  With a threshold that is not negative, the counter is within
    [[0, requiredGoodFrames]] after every processed frame of a session: a
    rejected frame sets it to [max 0 (counter - 2)], never below 0, an
    accepted frame to [min (counter + 1) requiredGoodFrames], never above
    the threshold, and a frame without a pose to 0. *)
Theorem goodFrameCount_in_range (mode : CameraMode) (requiredGoodFrames : Z)
    (frames : list Frame) :
  0 <= requiredGoodFrames ->
  (exists st,
     run mode requiredGoodFrames initial frames = Ok st
     /\ 0 <= goodFrameCountRef st <= requiredGoodFrames)
  /\ forall st frame,
       exists st',
         tick mode requiredGoodFrames st frame = Ok st'
         /\ (verdict mode frame = Rejected ->
             goodFrameCountRef st' = Z.max 0 (goodFrameCountRef st - 2)
             /\ 0 <= goodFrameCountRef st')
         /\ (verdict mode frame = Accepted ->
             goodFrameCountRef st'
             = Z.min (goodFrameCountRef st + 1) requiredGoodFrames
             /\ goodFrameCountRef st' <= requiredGoodFrames)
         /\ (verdict mode frame = NoPose -> goodFrameCountRef st' = 0).
Proof.
  intro Hreq. split.
  - apply (@run_invariant mode requiredGoodFrames
             (fun st => 0 <= goodFrameCountRef st <= requiredGoodFrames)).
    + intros st frame st' HP E. apply tick_outcome_of in E.
      unfold tick_outcome in E.
      destruct (verdict mode frame); destruct E as [Hc _]; lia.
    + cbn. lia.
  - intros st frame.
    destruct (tick_cases mode requiredGoodFrames st frame) as [st' [E H]].
    exists st'. split; [exact E |]. unfold tick_outcome in H.
    split; [| split]; intro Hv; rewrite Hv in H; destruct H as [Hc _];
      try (split; [exact Hc | lia]); exact Hc.
Qed.

Lemma goodFrameCount_in_range_witness :
  exists st,
    run (of_scan scan_full_body) 30 initial
      [headCutFrame; goodFrame; goodFrame; noPoseFrame; goodFrame] = Ok st
    /\ 0 <= goodFrameCountRef st <= 30.
Proof.
  apply (@goodFrameCount_in_range (of_scan scan_full_body) 30
           [headCutFrame; goodFrame; goodFrame; noPoseFrame; goodFrame]).
  lia.
Defined.

(** What an accepted frame does to the buffers: the measurements extracted
    from this very frame are pushed onto the buffer of the mode, the other
    buffer is left alone. *)
Lemma tick_accepted_buffers (mode : CameraMode) (requiredGoodFrames : Z)
    (st : CameraState) (frame : Frame) :
  verdict mode frame = Accepted ->
  exists st' landmarks,
    tick mode requiredGoodFrames st frame = Ok st'
    /\ result frame = Some landmarks
    /\ (mode <> of_scan scan_face ->
        faceFrameBuffer st' = faceFrameBuffer st
        /\ exists raw,
             bodyExtractor mode landmarks (liveW frame) (liveH frame) = Ok raw
             /\ rawFrameBuffer st' = pushBounded (rawFrameBuffer st) raw)
    /\ (mode = of_scan scan_face ->
        rawFrameBuffer st' = rawFrameBuffer st
        /\ exists f,
             extractFaceMeasurements landmarks (liveW frame) (liveH frame)
             = Ok f
             /\ faceFrameBuffer st' = pushBounded (faceFrameBuffer st) f).
Proof.
  unfold verdict, tick.
  destruct (result frame) as [landmarks |]; [| discriminate].
  destruct (checkLandmarkQualityForMode_returns
              landmarks (liveW frame) (liveH frame) mode)
    as [q [Eq Hlen]].
  rewrite Eq. cbn [bind]. destruct (valid q); [| discriminate].
  intros _.
  destruct (@extractors_return landmarks (liveW frame) (liveH frame)
              (Hlen eq_refl))
    as [[raw Eraw] [[upper Eupper] [f Ef]]].
  destruct mode as [[ | | | ] | | ];
    rewrite ?Eraw, ?Eupper, ?Ef; cbn [bind fst snd];
    eexists; exists landmarks; (split; [reflexivity |]);
    (split; [reflexivity |]);
    cbn [rawFrameBuffer faceFrameBuffer bodyExtractor];
    (split; [intro Hm | intro Hm]);
    try contradiction; try discriminate;
    (split; [reflexivity |]); eexists; (split; [eassumption | reflexivity]).
Qed.

(** C9.  In every session both frame buffers hold at most [MAX_BUFFER = 60]
    frames after every processed frame.  An accepted frame appends the
    measurements extracted from that frame to the buffer of its mode: below
    60 nothing is dropped, and when the buffer already holds 60 the buffer
    afterwards is the old one without its first (oldest) entry, followed by
    the new one.  A rejected frame leaves the buffers as they are. *)
Theorem frame_buffers_bounded (mode : CameraMode) (requiredGoodFrames : Z) :
  (forall frames,
     exists st,
       run mode requiredGoodFrames initial frames = Ok st
       /\ (List.length (rawFrameBuffer st) <= 60)%nat
       /\ (List.length (faceFrameBuffer st) <= 60)%nat)
  /\ (forall st frame,
        verdict mode frame = Accepted ->
        exists st' landmarks,
          tick mode requiredGoodFrames st frame = Ok st'
          /\ result frame = Some landmarks
          /\ (mode <> of_scan scan_face ->
              exists raw,
                bodyExtractor mode landmarks (liveW frame) (liveH frame)
                = Ok raw
                /\ faceFrameBuffer st' = faceFrameBuffer st
                /\ ((List.length (rawFrameBuffer st) < 60)%nat ->
                    rawFrameBuffer st' = (rawFrameBuffer st ++ [raw])%list)
                /\ (forall oldest rest,
                      rawFrameBuffer st = oldest :: rest ->
                      List.length (rawFrameBuffer st) = 60%nat ->
                      rawFrameBuffer st' = (rest ++ [raw])%list))
          /\ (mode = of_scan scan_face ->
              exists f,
                extractFaceMeasurements landmarks (liveW frame) (liveH frame)
                = Ok f
                /\ rawFrameBuffer st' = rawFrameBuffer st
                /\ ((List.length (faceFrameBuffer st) < 60)%nat ->
                    faceFrameBuffer st' = (faceFrameBuffer st ++ [f])%list)
                /\ (forall oldest rest,
                      faceFrameBuffer st = oldest :: rest ->
                      List.length (faceFrameBuffer st) = 60%nat ->
                      faceFrameBuffer st' = (rest ++ [f])%list)))
  /\ (forall st frame,
        verdict mode frame = Rejected ->
        exists st',
          tick mode requiredGoodFrames st frame = Ok st'
          /\ rawFrameBuffer st' = rawFrameBuffer st
          /\ faceFrameBuffer st' = faceFrameBuffer st).
Proof.
  split; [| split].
  - intro frames.
    apply (@run_invariant mode requiredGoodFrames
             (fun st => (List.length (rawFrameBuffer st) <= 60)%nat
                        /\ (List.length (faceFrameBuffer st) <= 60)%nat)).
    + intros st frame st' [Hraw Hface] E. apply tick_outcome_of in E.
      unfold tick_outcome in E.
      destruct (verdict mode frame).
      * destruct E as [_ [_ [-> ->]]]. cbn. lia.
      * destruct E as [_ [_ [-> ->]]]. split; assumption.
      * destruct E as [_ [_ E]].
        destruct mode as [[ | | | ] | | ];
          destruct E as [-> [x ->]];
          split; try assumption; apply pushBounded_length; assumption.
    + cbn. lia.
  - intros st frame Hv.
    destruct (@tick_accepted_buffers mode requiredGoodFrames st frame Hv)
      as [st' [landmarks [E [Hres [Hbody Hface]]]]].
    exists st', landmarks. split; [exact E |]. split; [exact Hres |].
    split; intro Hm.
    + destruct (Hbody Hm) as [Hf [raw [Eraw Hpush]]].
      exists raw. split; [exact Eraw |]. split; [exact Hf |].
      rewrite Hpush. split.
      * intro Hlt. apply pushBounded_room. exact Hlt.
      * intros oldest rest Hbuf Hlen. rewrite Hbuf in *.
        apply pushBounded_full. exact Hlen.
    + destruct (Hface Hm) as [Hr [f [Ef Hpush]]].
      exists f. split; [exact Ef |]. split; [exact Hr |].
      rewrite Hpush. split.
      * intro Hlt. apply pushBounded_room. exact Hlt.
      * intros oldest rest Hbuf Hlen. rewrite Hbuf in *.
        apply pushBounded_full. exact Hlen.
  - intros st frame Hv.
    destruct (tick_cases mode requiredGoodFrames st frame) as [st' [E H]].
    exists st'. split; [exact E |].
    unfold tick_outcome in H. rewrite Hv in H.
    destruct H as [_ [_ [Hraw Hface]]]. split; assumption.
Qed.

Lemma frame_buffers_bounded_witness :
  exists st' raw,
    tick (of_scan scan_full_body) 30 fullBufferState goodFrame = Ok st'
    /\ extractRawMeasurements (poseWithNoseAt 0.1) 640 480 = Ok raw
    /\ rawFrameBuffer st' = (repeat sampleRaw 59 ++ [raw])%list.
Proof.
  destruct (proj1 (proj2 (frame_buffers_bounded (of_scan scan_full_body) 30))
              fullBufferState goodFrame goodFrame_verdict)
    as [st' [landmarks [E [Hres [Hbody _]]]]].
  destruct Hbody as [raw [Eraw [_ [_ Hfull]]]]; [discriminate |].
  injection Hres as <-.
  exists st', raw. split; [exact E |]. split; [exact Eraw |].
  apply (Hfull sampleRaw (repeat sampleRaw 59)); reflexivity.
Defined.
End CameraClaims.

(* ------------------------------------------------------------------ *)
(** * Further properties of the code *)

(** ** The shape of [erf] and [normalCDF] *)

Section ErfShape.
Import Num Stats.
Local Open Scope R_scope.

(** [erf] on a non-negative argument, written with [erfPoly]. *)
Lemma erf_unfold_nonneg (x : R) :
  0 <= x ->
  erf x = 1 - erfPoly (/ (1 + 0.3275911 * x)) * exp (- x * x).
Proof.
  intro Hx. unfold erf, erfPoly, Math_abs, Math_exp.
  rewrite geb_true by assumption. rewrite Rabs_pos_eq by assumption.
  replace (1.0 / (1.0 + 0.3275911 * x)) with (/ (1 + 0.3275911 * x))
    by (unfold Rdiv; replace 1.0 with 1 by lra; ring).
  replace 1.0 with 1 by lra. ring.
Qed.

Lemma erf_unfold_neg (x : R) :
  x < 0 -> erf x = - erf (- x).
Proof.
  intro Hx. unfold erf, Math_abs.
  rewrite geb_false by assumption. rewrite geb_true by lra.
  rewrite Rabs_Ropp. ring.
Qed.

Lemma erfPoly_quadratic_1 (a b : R) :
  0 <= a <= 1 -> 0 <= b <= 1 ->
  0.05 <= 0.254829592 + -0.284496736 * (a + b)
          + 0.5 * (a * a + a * b + b * b).
Proof.
  intros Ha Hb.
  pose proof (Rle_0_sqr (a + b - 0.38)) as S1. unfold Rsqr in S1.
  pose proof (Rle_0_sqr (a - b)) as S2. unfold Rsqr in S2.
  nra.
Qed.

Lemma erfPoly_quadratic_2 (a : R) :
  0 <= 0.921413741 + -1.453152027 * a + 1.061405429 * (a * a).
Proof.
  pose proof (Rle_0_sqr (a - 0.68)) as S. unfold Rsqr in S. nra.
Qed.

Lemma erfPoly_quadratic_3 (a b : R) :
  0 <= a -> 0 <= b ->
  0 <= 0.921413741 + -1.453152027 * (a + b)
       + 1.061405429 * (a * a + a * b + b * b).
Proof.
  intros Ha Hb.
  pose proof (Rle_0_sqr (a + b - 0.9)) as S1. unfold Rsqr in S1.
  pose proof (Rle_0_sqr (a - b)) as S2. unfold Rsqr in S2.
  nra.
Qed.

Lemma quintic_difference (a1 a2 a3 a4 a5 h c a b : R) :
  a3 = h + c ->
  ((((a5 * a + a4) * a + a3) * a + a2) * a + a1) * a
  - ((((a5 * b + a4) * b + a3) * b + a2) * b + a1) * b
  = (a - b)
    * ((a1 + a2 * (a + b) + h * (a * a + a * b + b * b))
       + a * a * (c + a4 * a + a5 * (a * a))
       + b * b * (c + a4 * b + a5 * (b * b))
       + a * b * (c + a4 * (a + b) + a5 * (a * a + a * b + b * b))).
Proof. intros ->. ring. Qed.

(** [erfPoly] is strictly increasing on [[0, 1]]. *)
Lemma erfPoly_increasing (a b : R) :
  0 <= b -> b < a -> a <= 1 -> erfPoly b < erfPoly a.
Proof.
  intros Hb Hba Ha.
  pose proof (@erfPoly_quadratic_1 a b ltac:(lra) ltac:(lra)) as Q1.
  pose proof (erfPoly_quadratic_2 a) as Qa.
  pose proof (erfPoly_quadratic_2 b) as Qb.
  pose proof (@erfPoly_quadratic_3 a b ltac:(lra) ltac:(lra)) as Q3.
  assert (Ta : 0 <= a * a * (0.921413741 + -1.453152027 * a
                             + 1.061405429 * (a * a)))
    by (apply Rmult_le_pos; [nra | assumption]).
  assert (Tb : 0 <= b * b * (0.921413741 + -1.453152027 * b
                             + 1.061405429 * (b * b)))
    by (apply Rmult_le_pos; [nra | assumption]).
  assert (Tab : 0 <= a * b * (0.921413741 + -1.453152027 * (a + b)
                              + 1.061405429 * (a * a + a * b + b * b)))
    by (apply Rmult_le_pos; [nra | assumption]).
  assert (HD : erfPoly a - erfPoly b
               = (a - b)
                 * ((0.254829592 + -0.284496736 * (a + b)
                     + 0.5 * (a * a + a * b + b * b))
                    + a * a * (0.921413741 + -1.453152027 * a
                               + 1.061405429 * (a * a))
                    + b * b * (0.921413741 + -1.453152027 * b
                               + 1.061405429 * (b * b))
                    + a * b * (0.921413741 + -1.453152027 * (a + b)
                               + 1.061405429 * (a * a + a * b + b * b))))
    by (unfold erfPoly; apply quintic_difference; lra).
  assert (0 < erfPoly a - erfPoly b); [| lra].
  rewrite HD. apply Rmult_lt_0_compat; lra.
Qed.

Lemma erfPoly_0 : erfPoly 0 = 0.
Proof. unfold erfPoly. ring. Qed.

Lemma erfPoly_1 : erfPoly 1 = 0.999999999.
Proof. unfold erfPoly. lra. Qed.

Lemma erfPoly_range (t : R) : 0 < t <= 1 -> 0 < erfPoly t < 1.
Proof.
  intros [H0 H1]. split.
  - rewrite <- erfPoly_0. apply erfPoly_increasing; lra.
  - destruct H1 as [Hlt | ->].
    + pose proof (@erfPoly_increasing 1 t ltac:(lra) Hlt ltac:(lra)) as H.
      rewrite erfPoly_1 in H. lra.
    + rewrite erfPoly_1. lra.
Qed.

Lemma erf_t_range (x : R) : 0 <= x -> 0 < / (1 + 0.3275911 * x) <= 1.
Proof.
  intro Hx. split.
  - apply Rinv_0_lt_compat. nra.
  - rewrite <- Rinv_1 at 2. apply Rinv_le_contravar; nra.
Qed.

Lemma erf_nonneg_range (x : R) : 0 <= x -> 0 < erf x < 1.
Proof.
  intro Hx. rewrite erf_unfold_nonneg by assumption.
  pose proof (erfPoly_range (erf_t_range Hx)) as HP.
  pose proof (exp_neg_square_bounds x) as HE.
  nra.
Qed.

Lemma erf_increasing_nonneg (x y : R) : 0 <= x -> x < y -> erf x < erf y.
Proof.
  intros Hx Hxy.
  rewrite !erf_unfold_nonneg by lra.
  pose proof (erf_t_range Hx) as Htx.
  assert (Hy : 0 <= y) by lra. pose proof (erf_t_range Hy) as Hty.
  assert (Ht : / (1 + 0.3275911 * y) < / (1 + 0.3275911 * x)).
  { apply Rinv_lt_contravar; [apply Rmult_lt_0_compat |]; lra. }
  assert (HP : erfPoly (/ (1 + 0.3275911 * y))
               < erfPoly (/ (1 + 0.3275911 * x)))
    by (apply erfPoly_increasing; lra).
  pose proof (erfPoly_range Hty) as HPy.
  assert (HE : exp (- y * y) < exp (- x * x)) by (apply exp_increasing; nra).
  pose proof (exp_pos (- y * y)) as HEy.
  nra.
Qed.

(** [erf] is strictly increasing on the whole line. *)
Lemma erf_increasing (x y : R) : x < y -> erf x < erf y.
Proof.
  intro Hxy.
  destruct (Rle_lt_dec 0 x) as [Hx | Hx].
  - apply erf_increasing_nonneg; assumption.
  - rewrite (erf_unfold_neg Hx).
    destruct (Rle_lt_dec 0 y) as [Hy | Hy].
    + pose proof (@erf_nonneg_range (- x) ltac:(lra)).
      pose proof (erf_nonneg_range Hy). lra.
    + rewrite (erf_unfold_neg Hy).
      pose proof (@erf_increasing_nonneg (- y) (- x) ltac:(lra) ltac:(lra)).
      lra.
Qed.

Lemma sqrt2_pos : 0 < Math_sqrt 2.
Proof. unfold Math_sqrt. apply sqrt_lt_R0. lra. Qed.

Lemma normalCDF_increasing (x y : R) : x < y -> normalCDF x < normalCDF y.
Proof.
  intro Hxy. unfold normalCDF.
  assert (H : x / Math_sqrt 2 < y / Math_sqrt 2).
  { unfold Rdiv. apply Rmult_lt_compat_r; [| assumption].
    apply Rinv_0_lt_compat, sqrt2_pos. }
  pose proof (erf_increasing H). lra.
Qed.

Lemma Math_round_monotone (x y : R) :
  x <= y -> Math_round x <= Math_round y.
Proof.
  intro H. unfold Math_round. apply IZR_le, Zfloor_le. lra.
Qed.

Lemma erf_odd (x : R) : x <> 0 -> erf (- x) = - erf x.
Proof.
  intro Hx. destruct (Rle_lt_dec 0 x) as [Hpos | Hneg].
  - rewrite (@erf_unfold_neg (- x)) by lra.
    rewrite Ropp_involutive. reflexivity.
  - rewrite (erf_unfold_neg Hneg). lra.
Qed.

Lemma erf_0 : erf 0 = 0.000000001.
Proof.
  rewrite erf_unfold_nonneg by lra.
  replace (/ (1 + 0.3275911 * 0)) with 1
    by (rewrite Rmult_0_r, Rplus_0_r, Rinv_1; reflexivity).
  rewrite erfPoly_1. replace (- 0 * 0) with 0 by ring.
  rewrite exp_0. lra.
Qed.

Lemma erf_strict_range (x : R) : -1 < erf x < 1.
Proof.
  destruct (Rle_lt_dec 0 x) as [Hx | Hx].
  - pose proof (erf_nonneg_range Hx). lra.
  - rewrite (erf_unfold_neg Hx).
    pose proof (@erf_nonneg_range (- x) ltac:(lra)). lra.
Qed.
End ErfShape.

Section StatsExtras.
Import Num Stats.
Local Open Scope R_scope.

(** X1.  [erf] is odd away from 0: [erf(-x) = -erf(x)] for [x <> 0].  At 0
    the sign test [x >= 0] picks +1 on both sides and the polynomial leaves
    [erf(0)] at about 0.000000001 (between 0.0000000009 and 0.0000000011),
    not at 0. *)
Theorem erf_odd_except_at_zero :
  (forall x : R, x <> 0 -> erf (- x) = - erf x)
  /\ 0.0000000009 < erf 0 < 0.0000000011
  /\ erf (- 0) = erf 0.
Proof.
  split; [exact erf_odd | split; [rewrite erf_0; lra |]].
  rewrite Ropp_0. reflexivity.
Qed.

Lemma erf_odd_except_at_zero_witness : erf (- 2) = - erf 2.
Proof.
  apply (proj1 erf_odd_except_at_zero 2). lra.
Defined.

(** X2.  [erf] is strictly increasing, strictly between -1 and 1, and has
    the sign of its argument (positive at 0). *)
Theorem erf_increasing_and_bounded :
  (forall x y : R, x < y -> erf x < erf y)
  /\ (forall x : R, -1 < erf x < 1)
  /\ (forall x : R, 0 <= x -> 0 < erf x)
  /\ (forall x : R, x < 0 -> erf x < 0).
Proof.
  split; [exact erf_increasing | split; [exact erf_strict_range | split]].
  - intros x Hx. apply erf_nonneg_range. assumption.
  - intros x Hx. rewrite (erf_unfold_neg Hx).
    pose proof (@erf_nonneg_range (- x) ltac:(lra)). lra.
Qed.

Lemma erf_increasing_and_bounded_witness : erf 1 < erf 2 /\ 0 < erf 0.
Proof.
  split.
  - apply (proj1 erf_increasing_and_bounded 1 2). lra.
  - apply (proj1 (proj2 (proj2 erf_increasing_and_bounded)) 0). lra.
Defined.

(** X3.  In exact real arithmetic [normalCDF] is strictly increasing with
    values strictly between 0 and 1, and
    [normalCDF(z) + normalCDF(-z) = 1] for [z <> 0]; at 0 it is
    0.5000000005.  (On binary64 the values reach 1 for large [z].) *)
Theorem normalCDF_shape :
  (forall x y : R, x < y -> normalCDF x < normalCDF y)
  /\ (forall z : R, 0 < normalCDF z < 1)
  /\ (forall z : R, z <> 0 -> normalCDF z + normalCDF (- z) = 1)
  /\ normalCDF 0 = 0.5000000005.
Proof.
  split; [exact normalCDF_increasing | split; [| split]].
  - intro z. unfold normalCDF.
    pose proof (erf_strict_range (z / Math_sqrt 2)). lra.
  - intros z Hz. unfold normalCDF.
    replace (- z / Math_sqrt 2) with (- (z / Math_sqrt 2))
      by (unfold Rdiv; ring).
    rewrite erf_odd.
    + lra.
    + pose proof sqrt2_pos as Hs. unfold Rdiv. intro H0.
      apply Rmult_integral in H0. destruct H0 as [H0 | H0]; [lra |].
      pose proof (Rinv_0_lt_compat _ Hs). lra.
  - unfold normalCDF. replace (0 / Math_sqrt 2) with 0 by (unfold Rdiv; ring).
    rewrite erf_0. lra.
Qed.
End StatsExtras.

Section CurveShape.
Import Num Stats.
Local Open Scope R_scope.

Lemma normalCurvePoints_nth (mean stddev : R) (numPoints i : nat) :
  (i < numPoints)%nat ->
  nth_error (normalCurvePoints mean stddev numPoints) i
  = Some {| pt_x := toFixed (curveX mean stddev numPoints i) 4;
            pt_y := toFixed (density mean stddev
                               (curveX mean stddev numPoints i)) 6 |}.
Proof.
  intro Hi. unfold normalCurvePoints.
  rewrite nth_error_map.
  rewrite (nth_error_nth' _ 0%nat) by (rewrite length_seq; exact Hi).
  rewrite seq_nth by exact Hi. reflexivity.
Qed.

Lemma pow10_pos (d : nat) : 0 < 10 ^ d.
Proof. apply pow_lt. lra. Qed.

(** [toFixed] moves a number by at most half a unit of the last digit. *)
Lemma toFixed_error (x : R) (d : nat) :
  Rabs (toFixed x d - x) <= / 2 / 10 ^ d.
Proof.
  pose proof (pow10_pos d) as Hs.
  assert (Hi : 0 < / 10 ^ d) by (apply Rinv_0_lt_compat; assumption).
  assert (Hone : 10 ^ d * / 10 ^ d = 1) by (apply Rinv_r; lra).
  unfold toFixed.
  destruct (leb_spec 1e21 (Rabs x)) as [Hbig | Hsmall].
  - replace (x - x) with 0 by ring. rewrite Rabs_R0.
    unfold Rdiv. nra.
  - pose proof (Zfloor_bound (Rabs x * 10 ^ d + / 2)) as [Hlo Hhi].
    set (n := IZR (Zfloor (Rabs x * 10 ^ d + / 2))) in *.
    destruct (ltb_spec x 0) as [Hneg | Hpos].
    + rewrite Rabs_left in Hlo, Hhi by assumption.
      apply Rabs_le. unfold Rdiv. split; nra.
    + rewrite Rabs_pos_eq in Hlo, Hhi by lra.
      apply Rabs_le. unfold Rdiv. split; nra.
Qed.

(** On non-negative numbers [toFixed] keeps the order. *)
Lemma toFixed_monotone_nonneg (x y : R) (d : nat) :
  0 <= x -> x <= y -> toFixed x d <= toFixed y d.
Proof.
  intros Hx Hxy.
  pose proof (pow10_pos d) as Hs.
  assert (Hi : 0 < / 10 ^ d) by (apply Rinv_0_lt_compat; assumption).
  assert (Hone : 10 ^ d * / 10 ^ d = 1) by (apply Rinv_r; lra).
  unfold toFixed.
  rewrite (Rabs_pos_eq x), (Rabs_pos_eq y) by lra.
  rewrite (@ltb_false x 0), (@ltb_false y 0) by lra.
  destruct (leb_spec 1e21 x) as [Hbx | Hsx];
    destruct (leb_spec 1e21 y) as [Hby | Hsy]; try lra.
  - pose proof (Zfloor_bound (x * 10 ^ d + / 2)) as [Hlo _].
    set (K := (10 ^ 21 * 10 ^ Z.of_nat d)%Z).
    assert (HK : IZR K = 1e21 * 10 ^ d).
    { unfold K. rewrite mult_IZR, <- pow_IZR.
      replace (IZR (10 ^ 21)) with 1e21 by lra. reflexivity. }
    assert (Hn : (Zfloor (x * 10 ^ d + / 2) <= K)%Z).
    { assert (Hlt : IZR (Zfloor (x * 10 ^ d + / 2)) < IZR (K + 1)).
      { rewrite plus_IZR, HK. nra. }
      apply lt_IZR in Hlt. lia. }
    apply IZR_le in Hn. rewrite HK in Hn. unfold Rdiv. nra.
  - assert (Hz : (Zfloor (x * 10 ^ d + / 2) <= Zfloor (y * 10 ^ d + / 2))%Z)
      by (apply Zfloor_le; nra).
    apply IZR_le in Hz. unfold Rdiv. nra.
Qed.

(** The density falls with the distance from the mean. *)
Lemma density_decreasing (mean stddev x y : R) :
  0 < stddev ->
  Rabs (x - mean) <= Rabs (y - mean) ->
  density mean stddev y <= density mean stddev x.
Proof.
  intros Hs Hd. unfold density, Math_exp.
  pose proof sqrt_two_pi_ge_1 as Hq.
  set (q := Math_sqrt (2 * Math_PI)) in *.
  assert (Hc : 0 < 1 / (stddev * q)).
  { unfold Rdiv. rewrite Rmult_1_l. apply Rinv_0_lt_compat. nra. }
  apply Rmult_le_compat_l; [lra |].
  assert (Hsq : (x - mean) ^ 2 <= (y - mean) ^ 2).
  { rewrite <- (pow2_abs (x - mean)), <- (pow2_abs (y - mean)).
    pose proof (Rabs_pos (x - mean)). nra. }
  assert (Hpos : 0 < / (2 * stddev ^ 2)) by (apply Rinv_0_lt_compat; nra).
  assert (He : - (y - mean) ^ 2 / (2 * stddev ^ 2)
               <= - (x - mean) ^ 2 / (2 * stddev ^ 2))
    by (unfold Rdiv; nra).
  destruct He as [Hlt | Heq].
  - left. apply exp_increasing. assumption.
  - rewrite Heq. lra.
Qed.

(** Samples [i] and [n - 1 - i] lie mirrored about the mean. *)
Lemma curveX_mirror (mean stddev : R) (numPoints i : nat) :
  (2 <= numPoints)%nat -> (i < numPoints)%nat ->
  curveX mean stddev numPoints (numPoints - 1 - i) - mean
  = - (curveX mean stddev numPoints i - mean).
Proof.
  intros Hn Hi. unfold curveX. cbv zeta.
  assert (Hd : 1 <= INR numPoints - 1).
  { apply le_INR in Hn. simpl in Hn. lra. }
  replace (INR (numPoints - 1 - i)) with (INR numPoints - 1 - INR i).
  2:{ rewrite !minus_INR by lia. simpl. ring. }
  replace 3.5 with (7 / 2) by lra. field. lra.
Qed.
End CurveShape.

Section StatsExtras2.
Import Num Stats.
Local Open Scope R_scope.

Lemma computePercentile_at_own_mean (mean stddev : R) :
  0 < stddev -> computePercentile mean mean stddev = 50.
Proof.
  intro Hs. unfold computePercentile. rewrite leb_false by assumption.
  cbv zeta. replace ((mean - mean) / stddev) with 0 by (unfold Rdiv; ring).
  unfold normalCDF. replace (0 / Math_sqrt 2) with 0 by (unfold Rdiv; ring).
  rewrite erf_0. unfold Math_round.
  rewrite (@Zfloor_eq 50) by (simpl; lra). reflexivity.
Qed.

Lemma computePercentile_le (mean stddev v1 v2 : R) :
  0 < stddev -> v1 <= v2 ->
  computePercentile v1 mean stddev <= computePercentile v2 mean stddev.
Proof.
  intros Hs Hv. unfold computePercentile. rewrite leb_false by assumption.
  cbv zeta. apply Math_round_monotone.
  destruct Hv as [Hlt | ->]; [| lra].
  assert (Hz : (v1 - mean) / stddev < (v2 - mean) / stddev).
  { unfold Rdiv. apply Rmult_lt_compat_r; [| lra].
    apply Rinv_0_lt_compat. assumption. }
  pose proof (normalCDF_increasing Hz). lra.
Qed.

(** X4.  With a positive [stddev], [computePercentile] never decreases when
    the value grows, is exactly 50 at the mean, at least 50 from the mean
    upwards and at most 50 from the mean downwards. *)
Theorem computePercentile_monotone (mean stddev : R) :
  0 < stddev ->
  (forall v1 v2 : R,
     v1 <= v2 ->
     computePercentile v1 mean stddev <= computePercentile v2 mean stddev)
  /\ computePercentile mean mean stddev = 50
  /\ (forall v : R, mean <= v -> 50 <= computePercentile v mean stddev)
  /\ (forall v : R, v <= mean -> computePercentile v mean stddev <= 50).
Proof.
  intro Hs. split; [| split; [| split]].
  - intros v1 v2 Hv. apply computePercentile_le; assumption.
  - apply computePercentile_at_own_mean. assumption.
  - intros v Hv. rewrite <- (computePercentile_at_own_mean mean Hs).
    apply computePercentile_le; assumption.
  - intros v Hv. rewrite <- (computePercentile_at_own_mean mean Hs).
    apply computePercentile_le; assumption.
Qed.

Lemma computePercentile_monotone_witness :
  computePercentile 43 43 3.2 = 50
  /\ computePercentile 40 43 3.2 <= computePercentile 47.5 43 3.2.
Proof.
  split.
  - apply (proj1 (proj2 (@computePercentile_monotone 43 3.2 ltac:(lra)))).
  - apply (proj1 (@computePercentile_monotone 43 3.2 ltac:(lra))). lra.
Defined.

(** X5.  For a positive [stddev] and two or more samples the curve has
    [numPoints] points and, in exact real arithmetic, is symmetric (samples
    [i] and [numPoints - 1 - i] have the same [y]), and a sample nearer to
    the mean never has a smaller [y]: the sample closest to the mean
    carries the maximum. *)
Theorem normalCurvePoints_symmetric_peak
    (mean stddev : R) (numPoints : nat) :
  0 < stddev -> (2 <= numPoints)%nat ->
  let pts := normalCurvePoints mean stddev numPoints in
  List.length pts = numPoints
  /\ (forall i p q,
        nth_error pts i = Some p ->
        nth_error pts (numPoints - 1 - i) = Some q ->
        pt_y p = pt_y q)
  /\ (forall i j p q,
        nth_error pts i = Some p ->
        nth_error pts j = Some q ->
        Rabs (curveX mean stddev numPoints i - mean)
        <= Rabs (curveX mean stddev numPoints j - mean) ->
        pt_y q <= pt_y p).
Proof.
  intros Hs Hn pts.
  assert (Hlen : List.length pts = numPoints).
  { unfold pts, normalCurvePoints. rewrite length_map, length_seq.
    reflexivity. }
  assert (Hlt : forall k p, nth_error pts k = Some p -> (k < numPoints)%nat).
  { intros k p Hk. rewrite <- Hlen. apply nth_error_Some. rewrite Hk.
    discriminate. }
  split; [exact Hlen | split].
  - intros i p q Hp Hq.
    pose proof (Hlt _ _ Hp) as Hi. pose proof (Hlt _ _ Hq) as Hi'.
    unfold pts in Hp, Hq.
    rewrite normalCurvePoints_nth in Hp, Hq by assumption.
    injection Hp as <-. injection Hq as <-. cbn [pt_y].
    f_equal. unfold density.
    replace ((curveX mean stddev numPoints (numPoints - 1 - i) - mean) ^ 2)
      with ((curveX mean stddev numPoints i - mean) ^ 2);
      [reflexivity |].
    rewrite (curveX_mirror mean stddev Hn Hi). ring.
  - intros i j p q Hp Hq Hd.
    pose proof (Hlt _ _ Hp) as Hi. pose proof (Hlt _ _ Hq) as Hj.
    unfold pts in Hp, Hq.
    rewrite normalCurvePoints_nth in Hp, Hq by assumption.
    injection Hp as <-. injection Hq as <-. cbn [pt_y].
    apply toFixed_monotone_nonneg.
    + left. apply density_bounds. assumption.
    + apply density_decreasing; assumption.
Qed.

Lemma normalCurvePoints_symmetric_peak_witness :
  List.length (normalCurvePoints 43 3 200) = 200%nat.
Proof.
  apply (@normalCurvePoints_symmetric_peak 43 3 200).
  - lra.
  - lia.
Defined.

(** X6.  In exact real arithmetic, for a positive [stddev] and two or more
    samples, the first [x] is [mean - 3.5 stddev] and the last is
    [mean + 3.5 stddev], each rounded to 4 decimals, and every [x] lies
    between them (up to that rounding). *)
Theorem normalCurvePoints_span (mean stddev : R) (numPoints : nat) :
  0 < stddev -> (2 <= numPoints)%nat ->
  let pts := normalCurvePoints mean stddev numPoints in
  (exists first last,
     nth_error pts 0 = Some first
     /\ nth_error pts (numPoints - 1) = Some last
     /\ pt_x first = toFixed (mean - 3.5 * stddev) 4
     /\ pt_x last = toFixed (mean + 3.5 * stddev) 4
     /\ Rabs (pt_x first - (mean - 3.5 * stddev)) <= 0.00005
     /\ Rabs (pt_x last - (mean + 3.5 * stddev)) <= 0.00005)
  /\ forall p,
       In p pts ->
       mean - 3.5 * stddev - 0.00005 <= pt_x p
                                     <= mean + 3.5 * stddev + 0.00005.
Proof.
  intros Hs Hn pts.
  assert (Herr : forall x, Rabs (toFixed x 4 - x) <= 0.00005).
  { intro x. pose proof (toFixed_error x 4) as H.
    replace (/ 2 / 10 ^ 4) with 0.00005 in H by (simpl; lra). exact H. }
  assert (H0 : curveX mean stddev numPoints 0 = mean - 3.5 * stddev).
  { unfold curveX. cbv zeta. simpl INR. unfold Rdiv. ring. }
  assert (Hl : curveX mean stddev numPoints (numPoints - 1)
               = mean + 3.5 * stddev).
  { pose proof (@curveX_mirror mean stddev numPoints 0 Hn ltac:(lia)) as Hm.
    rewrite Nat.sub_0_r in Hm. rewrite H0 in Hm. lra. }
  split.
  - eexists. eexists. unfold pts.
    rewrite !normalCurvePoints_nth by lia.
    split; [reflexivity | split; [reflexivity |]].
    cbn [pt_x]. rewrite H0, Hl.
    split; [reflexivity | split; [reflexivity |]].
    split; apply Herr.
  - intros p Hin. unfold pts, normalCurvePoints in Hin.
    apply in_map_iff in Hin. destruct Hin as [i [<- Hi]].
    apply in_seq in Hi. cbn [pt_x].
    pose proof (@curveX_within mean stddev numPoints i Hs Hn ltac:(lia))
      as Hw.
    pose proof (Herr (curveX mean stddev numPoints i)) as He.
    unfold Rabs in He. destruct (Rcase_abs _) in He; lra.
Qed.

Lemma normalCurvePoints_span_witness :
  exists first last,
    nth_error (normalCurvePoints 50 5 100) 0 = Some first
    /\ nth_error (normalCurvePoints 50 5 100) (100 - 1) = Some last
    /\ pt_x first = toFixed (50 - 3.5 * 5) 4
    /\ pt_x last = toFixed (50 + 3.5 * 5) 4
    /\ Rabs (pt_x first - (50 - 3.5 * 5)) <= 0.00005
    /\ Rabs (pt_x last - (50 + 3.5 * 5)) <= 0.00005.
Proof.
  apply (@normalCurvePoints_span 50 5 100).
  - lra.
  - lia.
Defined.
End StatsExtras2.

Section OrdinalFacts.
Import Ordinal.
Local Open Scope string_scope.
Local Open Scope Z_scope.

Lemma suffixOf_table :
  forallb (fun v => String.eqb (suffixOf (Z.of_nat v))
                      (englishSuffix (Z.of_nat v)))
          (seq 0 100) = true.
Proof. vm_compute. reflexivity. Qed.

Lemma suffixOf_negative_table :
  forallb (fun v => String.eqb (suffixOf (- Z.of_nat v)) "th")
          (seq 0 100) = true.
Proof. vm_compute. reflexivity. Qed.

Lemma suffixOf_rem (n : Z) : suffixOf n = suffixOf (Z.rem n 100).
Proof.
  unfold suffixOf. cbv zeta.
  rewrite (Z.rem_rem n 100) by lia. reflexivity.
Qed.

Lemma englishSuffix_mod (n : Z) :
  0 <= n -> englishSuffix n = englishSuffix (n mod 100).
Proof.
  intro Hn. unfold englishSuffix.
  rewrite Z.mod_mod by lia.
  replace ((n mod 100) mod 10) with (n mod 10); [reflexivity |].
  rewrite Z.mod_mod_divide by (exists 10; reflexivity). reflexivity.
Qed.

(** X7.  For an integer [n] up to 2^53 in magnitude (the integers a
    [number] holds exactly and prints digit for digit), [ordinalSuffix(n)] is
    the decimal text of [n] followed by the English ordinal suffix: "th" for
    11, 12, 13 in the last two digits, else "st", "nd", "rd" for a last digit
    1, 2, 3, else "th"; a negative [n] always gets "th". *)
Theorem ordinalSuffix_english (n : Z) :
  - 9007199254740992 <= n <= 9007199254740992 ->
  (0 <= n -> ordinalSuffix n = Some (digits n ++ englishSuffix n))
  /\ (n < 0 -> ordinalSuffix n = Some (digits n ++ "th")).
Proof.
  intros Hrange. unfold ordinalSuffix, toString, MAX_EXACT_INTEGER.
  destruct (Z.leb_spec (Z.abs n) 9007199254740992) as [_ | Hbig]; [| lia].
  split; intro Hn; do 2 f_equal.
  - rewrite suffixOf_rem, (englishSuffix_mod Hn).
    rewrite Z.rem_mod_nonneg by lia.
    assert (Hv : 0 <= n mod 100 < 100) by (apply Z.mod_pos_bound; lia).
    pose proof suffixOf_table as T. rewrite forallb_forall in T.
    specialize (T (Z.to_nat (n mod 100))).
    rewrite Z2Nat.id in T by lia.
    apply String.eqb_eq, T, in_seq. lia.
  - rewrite suffixOf_rem.
    assert (Hv : -100 < Z.rem n 100 <= 0).
    { pose proof (@Z.rem_bound_pos_neg n 100) as H. lia. }
    pose proof suffixOf_negative_table as T. rewrite forallb_forall in T.
    specialize (T (Z.to_nat (- Z.rem n 100))).
    rewrite Z2Nat.id in T by lia.
    rewrite Z.opp_involutive in T.
    apply String.eqb_eq, T, in_seq. lia.
Qed.

Example ordinalSuffix_tests :
  map ordinalSuffix [1; 2; 3; 4; 11; 12; 13; 21; 22; 23; 50; 100; 101]
  = map Some
      ["1st"; "2nd"; "3rd"; "4th"; "11th"; "12th"; "13th"; "21st"; "22nd";
       "23rd"; "50th"; "100th"; "101st"].
Proof. vm_compute. reflexivity. Qed.

Lemma ordinalSuffix_english_witness :
  ordinalSuffix 112 = Some (digits 112 ++ englishSuffix 112)
  /\ ordinalSuffix (-21) = Some (digits (-21) ++ "th").
Proof.
  split.
  - destruct (@ordinalSuffix_english 112) as [H _]; [lia | apply H; lia].
  - destruct (@ordinalSuffix_english (-21)) as [_ H]; [lia | apply H; lia].
Defined.
End OrdinalFacts.

Section BadgeFacts.
Import Num Badges.
Local Open Scope string_scope.
Local Open Scope R_scope.

Ltac decide_ratio :=
  repeat match goal with
         | |- context [?x <? ?y] => destruct (ltb_spec x y)
         | |- context [?x <=? ?y] => destruct (leb_spec x y)
         | |- context [?x >? ?y] => unfold Num.gtb
         | |- context [?x >=? ?y] => unfold Num.geb
         end.

Lemma shoulderHipBadge_ids (shr : R) :
  map badge_id (shoulderHipBadge shr)
  = [if shr >=? 1.35 then "broad-shouldered"
     else if shr <=? 0.88 then "wide-hipped"
     else if shr >=? 1.1 then "athletic-frame"
     else "balanced-frame"].
Proof.
  unfold shoulderHipBadge. decide_ratio; cbn; try reflexivity; lra.
Qed.

Lemma legTorsoBadge_ids (ltr : R) :
  map badge_id (legTorsoBadge ltr)
  = [if ltr >=? 1.7 then "long-legged"
     else if ltr <=? 1.25 then "long-torso"
     else "proportional-body"].
Proof.
  unfold legTorsoBadge. decide_ratio; reflexivity.
Qed.

Lemma armspanBadge_ids (ahr : R) :
  map badge_id (armspanBadge ahr)
  = if ahr >=? 1.05 then ["long-reach"]
    else if ahr <=? 0.95 then ["compact-limbs"] else [].
Proof.
  unfold armspanBadge. decide_ratio; reflexivity.
Qed.

Lemma sprinterBadge_ids (ltr ahr : R) :
  map badge_id (sprinterBadge ltr ahr)
  = if (ltr >=? 1.6) && (ahr >=? 1.02) then ["sprinter-build"] else [].
Proof.
  unfold sprinterBadge. decide_ratio; reflexivity.
Qed.

Lemma badgeIds_unfold (m : Measurements R) :
  badgeIds m
  = ([if shoulderToHipRatio m >=? 1.35 then "broad-shouldered"
      else if shoulderToHipRatio m <=? 0.88 then "wide-hipped"
      else if shoulderToHipRatio m >=? 1.1 then "athletic-frame"
      else "balanced-frame"]
     ++ [if legToTorsoRatio m >=? 1.7 then "long-legged"
         else if legToTorsoRatio m <=? 1.25 then "long-torso"
         else "proportional-body"]
     ++ (if armspanToHeightRatio m >=? 1.05 then ["long-reach"]
         else if armspanToHeightRatio m <=? 0.95 then ["compact-limbs"]
         else [])
     ++ (if (legToTorsoRatio m >=? 1.6) && (armspanToHeightRatio m >=? 1.02)
         then ["sprinter-build"] else []))%list.
Proof.
  unfold badgeIds, computeBadges. cbv zeta.
  rewrite !map_app, shoulderHipBadge_ids, legTorsoBadge_ids,
    armspanBadge_ids, sprinterBadge_ids.
  reflexivity.
Qed.

Lemma badgeIds_segments (m : Measurements R) :
  badgeIds m
  = (frameIds (shoulderToHipRatio m) ++ legIds (legToTorsoRatio m)
     ++ armIds (armspanToHeightRatio m)
     ++ sprintIds (legToTorsoRatio m) (armspanToHeightRatio m))%list.
Proof. apply badgeIds_unfold. Qed.

Ltac solve_ids :=
  cbn [In]; repeat split; intros;
  repeat match goal with
         | H : _ \/ _ |- _ => destruct H
         | H : _ /\ _ |- _ => destruct H
         | H : False |- _ => destruct H
         | H : @eq string _ _ |- _ => first [discriminate H | subst]
         end;
  try lra; try (cbn; tauto).

Lemma frameIds_spec (shr : R) :
  (In "broad-shouldered" (frameIds shr) <-> 1.35 <= shr)
  /\ (In "wide-hipped" (frameIds shr) <-> shr <= 0.88)
  /\ (In "athletic-frame" (frameIds shr) <-> 1.1 <= shr < 1.35)
  /\ (In "balanced-frame" (frameIds shr) <-> 0.88 < shr < 1.1)
  /\ incl (frameIds shr)
        ["broad-shouldered"; "wide-hipped"; "athletic-frame";
         "balanced-frame"].
Proof.
  unfold frameIds, Num.geb, incl.
  destruct (leb_spec 1.35 shr); destruct (leb_spec shr 0.88);
    destruct (leb_spec 1.1 shr); try lra; solve_ids.
Qed.

Lemma legIds_spec (ltr : R) :
  (In "long-legged" (legIds ltr) <-> 1.7 <= ltr)
  /\ (In "long-torso" (legIds ltr) <-> ltr <= 1.25)
  /\ (In "proportional-body" (legIds ltr) <-> 1.25 < ltr < 1.7)
  /\ incl (legIds ltr) ["long-legged"; "long-torso"; "proportional-body"].
Proof.
  unfold legIds, Num.geb, incl.
  destruct (leb_spec 1.7 ltr); destruct (leb_spec ltr 1.25);
    try lra; solve_ids.
Qed.

Lemma armIds_spec (ahr : R) :
  (In "long-reach" (armIds ahr) <-> 1.05 <= ahr)
  /\ (In "compact-limbs" (armIds ahr) <-> ahr <= 0.95)
  /\ incl (armIds ahr) ["long-reach"; "compact-limbs"].
Proof.
  unfold armIds, Num.geb, incl.
  destruct (leb_spec 1.05 ahr); destruct (leb_spec ahr 0.95);
    try lra; solve_ids.
Qed.

Lemma sprintIds_spec (ltr ahr : R) :
  (In "sprinter-build" (sprintIds ltr ahr) <-> 1.6 <= ltr /\ 1.02 <= ahr)
  /\ incl (sprintIds ltr ahr) ["sprinter-build"].
Proof.
  unfold sprintIds, Num.geb, incl.
  destruct (leb_spec 1.6 ltr); destruct (leb_spec 1.02 ahr);
    cbn [andb]; solve_ids.
Qed.

Lemma armIds_sprintIds_NoDup (ltr ahr : R) :
  NoDup (armIds ahr ++ sprintIds ltr ahr)
  /\ (List.length (armIds ahr ++ sprintIds ltr ahr) <= 2)%nat
  /\ incl (armIds ahr ++ sprintIds ltr ahr)
        ["long-reach"; "compact-limbs"; "sprinter-build"].
Proof.
  unfold armIds, sprintIds, Num.geb, incl.
  destruct (1.05 <=? ahr), (ahr <=? 0.95),
    ((1.6 <=? ltr) && (1.02 <=? ahr)); cbn [app List.length].
  all: split; [repeat constructor; cbn; intuition discriminate |].
  all: split; [lia | cbn; tauto].
Qed.

Lemma NoDup_three_groups (f l : string) (rest F L R : list string) :
  In f F -> In l L -> incl rest R -> NoDup rest ->
  (forall x, In x F -> ~ In x L) ->
  (forall x, In x F -> ~ In x R) ->
  (forall x, In x L -> ~ In x R) ->
  NoDup (f :: l :: rest).
Proof.
  intros Hf Hl Hr Hnd FL FR LR.
  constructor.
  - intros [-> | Hin].
    + exact (FL _ Hf Hl).
    + exact (FR _ Hf (Hr _ Hin)).
  - constructor; [| exact Hnd].
    intros Hin. exact (LR _ Hl (Hr _ Hin)).
Qed.

Lemma armIds_sprintIds_tails (ltr ahr : R) :
  In (armIds ahr ++ sprintIds ltr ahr)%list
    [[]; ["long-reach"]; ["compact-limbs"]; ["sprinter-build"];
     ["long-reach"; "sprinter-build"]].
Proof.
  unfold armIds, sprintIds, Num.geb.
  destruct (leb_spec 1.05 ahr); destruct (leb_spec ahr 0.95);
    destruct (leb_spec 1.6 ltr); destruct (leb_spec 1.02 ahr);
    try lra; cbn [andb app In]; tauto.
Qed.

(** X8.  [computeBadges] returns between two and four badges with pairwise
    different ids: first exactly one frame badge, then exactly one
    leg/torso badge, and after these nothing, or one armspan badge, or the
    sprinter badge, or "long-reach" followed by the sprinter badge. *)
Theorem computeBadges_structure (m : Measurements R) :
  (2 <= List.length (computeBadges m) <= 4)%nat
  /\ NoDup (badgeIds m)
  /\ (exists frame legs rest,
        badgeIds m = frame :: legs :: rest
        /\ In frame ["broad-shouldered"; "wide-hipped"; "athletic-frame";
                     "balanced-frame"]
        /\ In legs ["long-legged"; "long-torso"; "proportional-body"]
        /\ In rest [[]; ["long-reach"]; ["compact-limbs"];
                    ["sprinter-build"]; ["long-reach"; "sprinter-build"]]).
Proof.
  assert (Hlen : List.length (computeBadges m) = List.length (badgeIds m))
    by (unfold badgeIds; rewrite length_map; reflexivity).
  rewrite Hlen, badgeIds_segments.
  pose proof (frameIds_spec (shoulderToHipRatio m)) as [_ [_ [_ [_ HF]]]].
  pose proof (legIds_spec (legToTorsoRatio m)) as [_ [_ [_ HL]]].
  pose proof (armIds_sprintIds_NoDup (legToTorsoRatio m)
                (armspanToHeightRatio m)) as [Hnd [Hle HR]].
  pose proof (armIds_sprintIds_tails (legToTorsoRatio m)
                (armspanToHeightRatio m)) as Htail.
  set (rest := (armIds (armspanToHeightRatio m)
                ++ sprintIds (legToTorsoRatio m)
                     (armspanToHeightRatio m))%list) in *.
  unfold frameIds, legIds in *.
  set (f := if shoulderToHipRatio m >=? 1.35 then _ else _) in *.
  set (l := if legToTorsoRatio m >=? 1.7 then _ else _) in *.
  cbn [app List.length].
  assert (Hf : In f ["broad-shouldered"; "wide-hipped"; "athletic-frame";
                     "balanced-frame"]) by (apply HF; left; reflexivity).
  assert (Hl : In l ["long-legged"; "long-torso"; "proportional-body"])
    by (apply HL; left; reflexivity).
  split; [lia |]. split.
  - apply (@NoDup_three_groups f l rest _ _ _ Hf Hl HR Hnd).
    + cbn; intuition (subst; discriminate).
    + cbn; intuition (subst; discriminate).
    + cbn; intuition (subst; discriminate).
  - exists f, l, rest. auto.
Qed.

(** An id of one group occurs in the badge list exactly when its own
    segment has it. *)
Lemma badgeIds_in (m : Measurements R) (x : string) :
  In x (badgeIds m)
  <-> In x (frameIds (shoulderToHipRatio m))
      \/ In x (legIds (legToTorsoRatio m))
      \/ In x (armIds (armspanToHeightRatio m))
      \/ In x (sprintIds (legToTorsoRatio m) (armspanToHeightRatio m)).
Proof.
  rewrite badgeIds_segments, !in_app_iff. tauto.
Qed.

Ltac other_segments :=
  repeat match goal with
         | H : In ?x (frameIds ?r) |- _ =>
             apply (proj2 (proj2 (proj2 (proj2 (frameIds_spec r))))) in H;
             cbn in H
         | H : In ?x (legIds ?r) |- _ =>
             apply (proj2 (proj2 (proj2 (legIds_spec r)))) in H; cbn in H
         | H : In ?x (armIds ?r) |- _ =>
             apply (proj2 (proj2 (armIds_spec r))) in H; cbn in H
         | H : In ?x (sprintIds ?r ?q) |- _ =>
             apply (proj2 (sprintIds_spec r q)) in H; cbn in H
         end;
  repeat match goal with
         | H : _ \/ _ |- _ => destruct H
         | H : False |- _ => destruct H
         | H : @eq string _ _ |- _ => discriminate H
         end.

Ltac own_segment :=
  rewrite badgeIds_in; split; [intros [H | [H | [H | H]]] | tauto];
  try assumption; other_segments.

Lemma frame_badge_thresholds (m : Measurements R) :
  (In "broad-shouldered" (badgeIds m) <-> 1.35 <= shoulderToHipRatio m)
  /\ (In "wide-hipped" (badgeIds m) <-> shoulderToHipRatio m <= 0.88)
  /\ (In "athletic-frame" (badgeIds m)
      <-> 1.1 <= shoulderToHipRatio m < 1.35)
  /\ (In "balanced-frame" (badgeIds m)
      <-> 0.88 < shoulderToHipRatio m < 1.1).
Proof.
  pose proof (frameIds_spec (shoulderToHipRatio m)) as [F1 [F2 [F3 [F4 _]]]].
  rewrite <- F1, <- F2, <- F3, <- F4.
  split; [| split; [| split]]; own_segment.
Qed.

Lemma leg_badge_thresholds (m : Measurements R) :
  (In "long-legged" (badgeIds m) <-> 1.7 <= legToTorsoRatio m)
  /\ (In "long-torso" (badgeIds m) <-> legToTorsoRatio m <= 1.25)
  /\ (In "proportional-body" (badgeIds m)
      <-> 1.25 < legToTorsoRatio m < 1.7).
Proof.
  pose proof (legIds_spec (legToTorsoRatio m)) as [L1 [L2 [L3 _]]].
  rewrite <- L1, <- L2, <- L3.
  split; [| split]; own_segment.
Qed.

Lemma arm_badge_thresholds (m : Measurements R) :
  (In "long-reach" (badgeIds m) <-> 1.05 <= armspanToHeightRatio m)
  /\ (In "compact-limbs" (badgeIds m) <-> armspanToHeightRatio m <= 0.95).
Proof.
  pose proof (armIds_spec (armspanToHeightRatio m)) as [A1 [A2 _]].
  rewrite <- A1, <- A2.
  split; own_segment.
Qed.

Lemma sprinter_badge_threshold (m : Measurements R) :
  In "sprinter-build" (badgeIds m)
  <-> 1.6 <= legToTorsoRatio m /\ 1.02 <= armspanToHeightRatio m.
Proof.
  pose proof (sprintIds_spec (legToTorsoRatio m) (armspanToHeightRatio m))
    as [S1 _].
  rewrite <- S1. own_segment.
Qed.

(** X9.  Which ratios earn which badge: every id is present exactly under
    its thresholds.  In particular the sprinter badge never comes with
    "long-torso" or "compact-limbs". *)
Theorem computeBadges_thresholds (m : Measurements R) :
  (In "broad-shouldered" (badgeIds m) <-> 1.35 <= shoulderToHipRatio m)
  /\ (In "wide-hipped" (badgeIds m) <-> shoulderToHipRatio m <= 0.88)
  /\ (In "athletic-frame" (badgeIds m)
      <-> 1.1 <= shoulderToHipRatio m < 1.35)
  /\ (In "balanced-frame" (badgeIds m)
      <-> 0.88 < shoulderToHipRatio m < 1.1)
  /\ (In "long-legged" (badgeIds m) <-> 1.7 <= legToTorsoRatio m)
  /\ (In "long-torso" (badgeIds m) <-> legToTorsoRatio m <= 1.25)
  /\ (In "proportional-body" (badgeIds m)
      <-> 1.25 < legToTorsoRatio m < 1.7)
  /\ (In "long-reach" (badgeIds m) <-> 1.05 <= armspanToHeightRatio m)
  /\ (In "compact-limbs" (badgeIds m) <-> armspanToHeightRatio m <= 0.95)
  /\ (In "sprinter-build" (badgeIds m)
      <-> 1.6 <= legToTorsoRatio m /\ 1.02 <= armspanToHeightRatio m)
  /\ ~ (In "sprinter-build" (badgeIds m) /\ In "long-torso" (badgeIds m))
  /\ ~ (In "sprinter-build" (badgeIds m)
        /\ In "compact-limbs" (badgeIds m)).
Proof.
  pose proof (frame_badge_thresholds m) as [F1 [F2 [F3 F4]]].
  pose proof (leg_badge_thresholds m) as [L1 [L2 L3]].
  pose proof (arm_badge_thresholds m) as [A1 A2].
  pose proof (sprinter_badge_threshold m) as S1.
  repeat match goal with
         | |- _ /\ _ => split
         end; try assumption.
  - rewrite S1, L2. lra.
  - rewrite S1, A2. lra.
Qed.
End BadgeFacts.

Section ValidatorFacts.
Import Num Measure.
Local Open Scope string_scope.
Local Open Scope R_scope.

Ltac landmark_at landmarks idx :=
  let lm := fresh "lm" in
  let E := fresh "E" in
  destruct (@at_index_defined landmarks idx) as [lm E]; [lia |];
  rewrite ?E.

Ltac split_ifs :=
  repeat match goal with
         | |- context [if ?b then _ else _] => destruct b
         end.

Ltac split_comparisons :=
  unfold Num.gtb, Num.geb;
  repeat match goal with
         | |- context [?x <? ?y] => destruct (ltb_spec x y)
         | |- context [?x <=? ?y] => destruct (leb_spec x y)
         end.

(** X10.  The rejection "Move back — too close" of the full-body validator
    is dead code: the validator returns a verdict for every input, in every
    mode, and never with that reason.  The branch needs the body to span
    more than 98% of the frame height, while the two margin checks before it
    leave at most 84%. *)
Theorem too_close_is_never_reported
    (landmarks : list Landmark) (w h : R) (mode : CameraMode) :
  exists q,
    checkLandmarkQualityForMode landmarks w h mode = Ok q
    /\ reason q <> "Move back — too close".
Proof.
  unfold checkLandmarkQualityForMode.
  destruct (Nat.ltb_spec (List.length landmarks) 33) as [Hlt | Hge].
  - eexists. split; [reflexivity | cbn; discriminate].
  - landmark_at landmarks 0%nat. landmark_at landmarks 7%nat.
    landmark_at landmarks 8%nat. landmark_at landmarks 11%nat.
    landmark_at landmarks 12%nat. landmark_at landmarks 23%nat.
    landmark_at landmarks 24%nat. landmark_at landmarks 27%nat.
    landmark_at landmarks 28%nat.
    destruct mode as [[ | | | ] | | ];
      unfold checkFaceQuality, checkUpperBodyQuality,
        checkSideProfileQuality, checkFullBodyQuality, reject, accept;
      rewrite ?E, ?E0, ?E1, ?E2, ?E3, ?E4, ?E5, ?E6, ?E7;
      cbn [prop bind]; unfold Math_max;
      destruct (allVisible landmarks _); cbn [negb];
      try (eexists; split; [reflexivity | cbn; discriminate]);
      split_comparisons; cbn [orb andb];
      eexists; (split; [reflexivity |]); cbn [reason];
      first [discriminate | exfalso; lra].
Qed.

(** X11.  In full-body mode (and in chest mode, which uses the same
    validator) an accepted frame has at least 33 landmarks, the seven
    required ones visible, and nose and ankles framed as [fullBodyFramed]
    says; and a frame with 33 landmarks, the seven required ones visible
    and that framing is accepted.  The first holds with the bounds 0.08,
    0.92 and 0.4 loosened by 0.000000001 and the second with the bounds
    tightened by as much, which leaves room for the rounding of binary64
    (0.7 - 0.3, for one, is computed as 0.39999999999999997). *)
Theorem full_body_accepted_when_framed
    (landmarks : list Landmark) (w h : R) :
  exists q,
    checkLandmarkQualityForMode landmarks w h (of_scan scan_full_body) = Ok q
    /\ checkLandmarkQualityForMode landmarks w h (of_scan scan_chest) = Ok q
    /\ (valid q = true ->
        (33 <= List.length landmarks)%nat
        /\ allVisible landmarks FULL_BODY_LANDMARKS = true
        /\ fullBodyFramed 0.000000001 landmarks)
    /\ ((33 <= List.length landmarks)%nat ->
        allVisible landmarks FULL_BODY_LANDMARKS = true ->
        fullBodyFramed (- 0.000000001) landmarks ->
        valid q = true).
Proof.
  unfold checkLandmarkQualityForMode, fullBodyFramed.
  destruct (Nat.ltb_spec (List.length landmarks) 33) as [Hlt | Hge].
  - eexists. split; [reflexivity |]. split; [reflexivity |].
    cbn. split; [discriminate | intros H; lia].
  - landmark_at landmarks 0%nat. landmark_at landmarks 27%nat.
    landmark_at landmarks 28%nat.
    unfold checkFullBodyQuality, reject, accept.
    rewrite ?E, ?E0, ?E1. cbn [prop bind]. unfold Math_max.
    destruct (allVisible landmarks _); cbn [negb].
    + split_comparisons; eexists; (split; [reflexivity |]);
        (split; [reflexivity |]); cbn [valid];
        (split;
         [ first [ discriminate
                 | intros _; split; [exact Hge |]; split; [reflexivity |];
                   exists lm, lm0, lm1; repeat split; lra ]
         | intros _ _ [no [la [ra [En [Ela [Era H]]]]]];
           injection En as <-; injection Ela as <-; injection Era as <-;
           first [reflexivity | exfalso; lra] ]).
    + eexists. split; [reflexivity |]. split; [reflexivity |].
      cbn. split; [discriminate | intros _ H; discriminate].
Qed.
End ValidatorFacts.

Section ExtractorFacts.
Import Num Measure.
Local Open Scope string_scope.
Local Open Scope R_scope.

Ltac landmark_at landmarks idx :=
  let lm := fresh "lm" in
  let E := fresh "E" in
  destruct (@at_index_defined landmarks idx) as [lm E]; [lia |];
  rewrite ?E.

Ltac all_landmarks landmarks :=
  landmark_at landmarks 0%nat; landmark_at landmarks 1%nat;
  landmark_at landmarks 4%nat; landmark_at landmarks 7%nat;
  landmark_at landmarks 8%nat; landmark_at landmarks 9%nat;
  landmark_at landmarks 10%nat; landmark_at landmarks 11%nat;
  landmark_at landmarks 12%nat; landmark_at landmarks 15%nat;
  landmark_at landmarks 16%nat; landmark_at landmarks 23%nat;
  landmark_at landmarks 24%nat; landmark_at landmarks 27%nat;
  landmark_at landmarks 28%nat.

Lemma hypot_ge_dx (dx dy : R) : Rabs dx <= sqrt (dx * dx + dy * dy).
Proof.
  rewrite <- sqrt_Rsqr_abs. apply sqrt_le_1.
  - apply Rle_0_sqr.
  - nra.
  - unfold Rsqr. nra.
Qed.

Lemma hypot_scaled (k dx dy dx' dy' : R) :
  0 <= k -> dx' = k * dx -> dy' = k * dy ->
  sqrt (dx' * dx' + dy' * dy') = k * sqrt (dx * dx + dy * dy).
Proof.
  intros Hk -> ->.
  replace (k * dx * (k * dx) + k * dy * (k * dy))
    with ((k * k) * (dx * dx + dy * dy)) by ring.
  rewrite sqrt_mult by nra.
  rewrite sqrt_square by exact Hk. reflexivity.
Qed.

Lemma dist_scaled (k a b w h : R) :
  0 <= k ->
  sqrt (a * (k * w) * (a * (k * w)) + b * (k * h) * (b * (k * h)))
  = k * sqrt (a * w * (a * w) + b * h * (b * h)).
Proof.
  intro Hk. apply hypot_scaled; [exact Hk | ring | ring].
Qed.

Lemma hypot_ge_dy (dx dy : R) : Rabs dy <= sqrt (dx * dx + dy * dy).
Proof. rewrite Rplus_comm. apply hypot_ge_dx. Qed.

(** X12.  The divisors of the two facial ratios are positive.  On a frame
    between 1 and 100000 pixels wide and high, an accepted face frame has
    its ears at least 12% of the frame width apart, so the extracted
    ear-to-ear distance, the divisor of [interocularRatio], is at least
    [0.12 * frameWidth]; and when the mouth is at least 1% of the frame
    height below the ears, the face height, the divisor of
    [facialWidthRatio], is at least [0.014 * frameHeight].  Both bounds are
    stated with room for the rounding of binary64 (0.1199999 and
    0.0139999). *)
Theorem face_accepted_ear_distance
    (landmarks : list Landmark) (w h : R) (q : FrameQuality) :
  checkLandmarkQualityForMode landmarks w h (of_scan scan_face) = Ok q ->
  valid q = true ->
  1 <= w <= 100000 ->
  1 <= h <= 100000 ->
  mouthBelowEars landmarks ->
  exists f,
    extractFaceMeasurements landmarks w h = Ok f
    /\ 0.1199999 * w <= earToEarPx f
    /\ 0.0139999 * h <= faceHeightPx f.
Proof.
  unfold checkLandmarkQualityForMode.
  destruct (Nat.ltb_spec (List.length landmarks) 33) as [Hlt | Hge].
  - intros [= <-]. discriminate.
  - all_landmarks landmarks.
    unfold checkFaceQuality, extractFaceMeasurements, reject, accept.
    rewrite ?E, ?E0, ?E1, ?E2, ?E3, ?E4, ?E5.
    cbn [dist midpoint prop bind lm_x lm_y].
    destruct (allVisible landmarks _); cbn [negb];
      [| intros [= <-]; discriminate].
    unfold Num.gtb, Math_abs, Math_sqrt.
    destruct (ltb_spec (Rabs (lm_x lm2 - lm_x lm3)) 0.12) as [Hnear | Hfar];
      [intros [= <-]; discriminate |].
    intros _ _ [Hw _] [Hh _]
      [le [re [ml [mr [Ele [Ere [Eml [Emr [_ [_ [_ [_ Hmouth]]]]]]]]]]]].
    rewrite E2 in Ele. rewrite E3 in Ere.
    rewrite E4 in Eml. rewrite E5 in Emr.
    injection Ele as <-. injection Ere as <-.
    injection Eml as <-. injection Emr as <-.
    eexists. split; [reflexivity |].
    cbn [earToEarPx faceHeightPx]. split.
    + eapply Rle_trans; [| apply hypot_ge_dx].
      rewrite Rabs_mult, (Rabs_right w) by lra.
      apply Rle_trans with (0.12 * w); [lra |].
      apply Rmult_le_compat_r; lra.
    + match goal with
      | |- _ <= sqrt (?dx * ?dx + ?dy * ?dy) * 1.4 =>
          pose proof (hypot_ge_dy dx dy) as Hd;
          assert (Hdy : 0.01 * h <= Rabs dy)
      end.
      { rewrite Rabs_mult, (Rabs_right h) by lra.
        apply Rmult_le_compat_r; [lra |].
        rewrite Rabs_left; lra. }
      lra.
Qed.

Lemma facePose_accepted :
  checkLandmarkQualityForMode facePose 640 480 (of_scan scan_face)
  = Ok {| valid := true; reason := "Good — hold still" |}.
Proof.
  unfold checkLandmarkQualityForMode, checkFaceQuality, allVisible,
    FACE_LANDMARKS, facePose, at_index.
  cbn [List.length map seq Nat.ltb Nat.leb Nat.eqb nth_error forallb].
  rewrite !seen_isVisible.
  cbn [andb negb prop bind lm_x lm_y seen].
  unfold Math_abs, Num.gtb.
  replace (Rabs (0.35 - 0.65)) with 0.3 by (rewrite Rabs_left; lra).
  rewrite (@ltb_false 0.3 0.12), (@ltb_false 0.70 0.3),
    (@ltb_false 0.5 0.12), (@ltb_false 0.88 0.5),
    (@ltb_false 0.5 0.08) by lra.
  reflexivity.
Qed.

Lemma face_accepted_ear_distance_witness :
  exists f,
    extractFaceMeasurements facePose 640 480 = Ok f
    /\ 0.1199999 * 640 <= earToEarPx f
    /\ 0.0139999 * 480 <= faceHeightPx f.
Proof.
  apply (@face_accepted_ear_distance facePose 640 480 _ facePose_accepted).
  - reflexivity.
  - lra.
  - lra.
  - exists (seen 0.35 0.5), (seen 0.65 0.5), (seen 0.45 0.6),
      (seen 0.55 0.6).
    repeat (split; [reflexivity |]).
    cbn [lm_y seen]. lra.
Defined.

(** X13.  On at least 33 landmarks and a frame of non-zero height (the
    extractors divide by it) both body extractors return, every pixel
    length they give is non-negative, and the upper-body extractor gives
    the full-body values for shoulders, hips, torso, arms and wingspan,
    with leg length 0. *)
Theorem upper_body_extractor_agrees (landmarks : list Landmark) (w h : R) :
  (33 <= List.length landmarks)%nat ->
  h <> 0 ->
  exists full upper,
    extractRawMeasurements landmarks w h = Ok full
    /\ extractUpperBodyMeasurements landmarks w h = Ok upper
    /\ shoulderWidthPx upper = shoulderWidthPx full
    /\ hipWidthPx upper = hipWidthPx full
    /\ torsoLengthPx upper = torsoLengthPx full
    /\ armLengthPx upper = armLengthPx full
    /\ wingspanPx upper = wingspanPx full
    /\ legLengthPx upper = 0
    /\ 0 <= shoulderWidthPx full /\ 0 <= hipWidthPx full
    /\ 0 <= legLengthPx full /\ 0 <= torsoLengthPx full
    /\ 0 <= armLengthPx full /\ 0 <= wingspanPx full
    /\ 0 <= bodyHeightPx full /\ 0 <= bodyHeightPx upper.
Proof.
  intros Hge _. all_landmarks landmarks.
  unfold extractRawMeasurements, extractUpperBodyMeasurements.
  rewrite ?E, ?E0, ?E1, ?E2, ?E3, ?E4, ?E5, ?E6, ?E7, ?E8, ?E9, ?E10,
    ?E11, ?E12, ?E13.
  cbn [dist midpoint prop bind lm_x lm_y].
  do 2 eexists. split; [reflexivity |]. split; [reflexivity |].
  cbn [shoulderWidthPx hipWidthPx legLengthPx torsoLengthPx armLengthPx
       wingspanPx bodyHeightPx].
  unfold Math_sqrt.
  repeat match goal with
         | |- _ /\ _ => split
         end;
    try reflexivity; try apply sqrt_pos.
  match goal with
  | |- 0 <= (sqrt ?a + sqrt ?b) / 2 =>
      pose proof (sqrt_pos a); pose proof (sqrt_pos b); lra
  end.
Qed.

Lemma upper_body_extractor_agrees_witness :
  exists full upper,
    extractRawMeasurements (poseWithNoseAt 0.1) 640 480 = Ok full
    /\ extractUpperBodyMeasurements (poseWithNoseAt 0.1) 640 480 = Ok upper
    /\ shoulderWidthPx upper = shoulderWidthPx full
    /\ hipWidthPx upper = hipWidthPx full
    /\ torsoLengthPx upper = torsoLengthPx full
    /\ armLengthPx upper = armLengthPx full
    /\ wingspanPx upper = wingspanPx full
    /\ legLengthPx upper = 0
    /\ 0 <= shoulderWidthPx full /\ 0 <= hipWidthPx full
    /\ 0 <= legLengthPx full /\ 0 <= torsoLengthPx full
    /\ 0 <= armLengthPx full /\ 0 <= wingspanPx full
    /\ 0 <= bodyHeightPx full /\ 0 <= bodyHeightPx upper.
Proof.
  apply (@upper_body_extractor_agrees (poseWithNoseAt 0.1) 640 480).
  - cbn. lia.
  - lra.
Defined.

(** Both extractors scale with the frame: on a frame [k] times as wide and
    as high every pixel length is [k] times as long. *)
Lemma extractors_scaled (landmarks : list Landmark) (w h k : R) :
  (33 <= List.length landmarks)%nat -> 0 < k -> 0 < h ->
  (exists raw raw',
     extractRawMeasurements landmarks w h = Ok raw
     /\ extractRawMeasurements landmarks (k * w) (k * h) = Ok raw'
     /\ scaledBy k raw raw')
  /\ (exists raw raw',
        extractUpperBodyMeasurements landmarks w h = Ok raw
        /\ extractUpperBodyMeasurements landmarks (k * w) (k * h) = Ok raw'
        /\ scaledBy k raw raw').
Proof.
  intros Hge Hk Hh. all_landmarks landmarks.
  unfold extractRawMeasurements, extractUpperBodyMeasurements, scaledBy.
  rewrite ?E, ?E0, ?E1, ?E2, ?E3, ?E4, ?E5, ?E6, ?E7, ?E8, ?E9, ?E10,
    ?E11, ?E12, ?E13.
  cbn [dist midpoint prop bind lm_x lm_y].
  unfold Math_sqrt.
  split; do 2 eexists; (split; [reflexivity |]); (split; [reflexivity |]);
    cbn [shoulderWidthPx hipWidthPx legLengthPx torsoLengthPx armLengthPx
         wingspanPx bodyHeightPx].
  all: repeat match goal with
              | |- _ /\ _ => split
              end.
  all: rewrite ?dist_scaled by lra.
  all: repeat match goal with
              | |- context [?x * sqrt ?e / (?x * ?y)] =>
                  replace (x * sqrt e / (x * y)) with (sqrt e / y)
                    by (field; lra)
              end.
  all: rewrite ?dist_scaled by lra.
  all: first [reflexivity | field | symmetry; apply Rmult_0_r].
Qed.
End ExtractorFacts.

Section ResolutionFacts.
Import Num Measure.
Local Open Scope string_scope.
Local Open Scope R_scope.

Lemma scaleMeasurements_scaledBy
    (k : R) (raw raw' : RawMeasurements R) (userHeightCm : R)
    (mode : ScanMode) :
  0 < k -> 0 < bodyHeightPx raw -> scaledBy k raw raw' ->
  sameBody (scaleMeasurements raw' userHeightCm mode)
    (scaleMeasurements raw userHeightCm mode)
  /\ scaleFactor (scaleMeasurements raw' userHeightCm mode)
     = scaleFactor (scaleMeasurements raw userHeightCm mode) / k.
Proof.
  intros Hk Hb [Hs [Hh [Hl [Ht [Ha [Hw Hbh]]]]]].
  unfold sameBody, scaleMeasurements.
  cbn [shoulderWidthCm hipWidthCm legLengthCm torsoLengthCm armLengthCm
       wingspanCm shoulderToHipRatio legToTorsoRatio armspanToHeightRatio
       scaleFactor].
  rewrite Hs, Hh, Hl, Ht, Ha, Hw, Hbh. num_R.
  rewrite (@ltb_true 0 (k * bodyHeightPx raw)) by nra.
  rewrite (@ltb_true 0 (bodyHeightPx raw)) by lra.
  set (eff := match mode with
              | scan_upper_body => _
              | _ => userHeightCm
              end).
  assert (Hx : forall x, k * x * (eff / (k * bodyHeightPx raw))
                         = x * (eff / bodyHeightPx raw))
    by (intro x; field; lra).
  rewrite !Hx.
  repeat split; try reflexivity. field; lra.
Qed.

(** X14.  In exact real arithmetic the measurements in centimetres do not
    depend on the camera resolution.  On a frame [k] times as wide and as
    high both extractors give pixel lengths [k] times as long, and when the
    body height in pixels is positive [scaleMeasurements] turns both into
    the same lengths and ratios.  (On binary64 a length next to a rounding
    tie can come out one tenth apart.) *)
Theorem measurements_independent_of_resolution
    (landmarks : list Landmark) (w h k : R) :
  (33 <= List.length landmarks)%nat -> 0 < k -> 0 < h ->
  (exists raw raw',
     extractRawMeasurements landmarks w h = Ok raw
     /\ extractRawMeasurements landmarks (k * w) (k * h) = Ok raw'
     /\ scaledBy k raw raw'
     /\ (0 < bodyHeightPx raw ->
         forall userHeightCm mode,
           sameBody (scaleMeasurements raw' userHeightCm mode)
             (scaleMeasurements raw userHeightCm mode)))
  /\ (exists raw raw',
        extractUpperBodyMeasurements landmarks w h = Ok raw
        /\ extractUpperBodyMeasurements landmarks (k * w) (k * h) = Ok raw'
        /\ scaledBy k raw raw'
        /\ (0 < bodyHeightPx raw ->
            forall userHeightCm mode,
              sameBody (scaleMeasurements raw' userHeightCm mode)
                (scaleMeasurements raw userHeightCm mode))).
Proof.
  intros Hge Hk Hh.
  destruct (@extractors_scaled landmarks w h k Hge Hk Hh)
    as [[raw [raw' [E [E' Hs]]]] [up [up' [U [U' Hu]]]]].
  split.
  - exists raw, raw'.
    split; [exact E |]. split; [exact E' |]. split; [exact Hs |].
    intros Hb H mode.
    exact (proj1 (@scaleMeasurements_scaledBy k raw raw' H mode Hk Hb Hs)).
  - exists up, up'.
    split; [exact U |]. split; [exact U' |]. split; [exact Hu |].
    intros Hb H mode.
    exact (proj1 (@scaleMeasurements_scaledBy k up up' H mode Hk Hb Hu)).
Qed.

Lemma measurements_independent_of_resolution_witness :
  (exists raw raw',
     extractRawMeasurements (poseWithNoseAt 0.1) 640 480 = Ok raw
     /\ extractRawMeasurements (poseWithNoseAt 0.1) (2 * 640) (2 * 480)
        = Ok raw'
     /\ scaledBy 2 raw raw'
     /\ (0 < bodyHeightPx raw ->
         forall userHeightCm mode,
           sameBody (scaleMeasurements raw' userHeightCm mode)
             (scaleMeasurements raw userHeightCm mode)))
  /\ (exists raw raw',
        extractUpperBodyMeasurements (poseWithNoseAt 0.1) 640 480 = Ok raw
        /\ extractUpperBodyMeasurements (poseWithNoseAt 0.1)
             (2 * 640) (2 * 480) = Ok raw'
        /\ scaledBy 2 raw raw'
        /\ (0 < bodyHeightPx raw ->
            forall userHeightCm mode,
              sameBody (scaleMeasurements raw' userHeightCm mode)
                (scaleMeasurements raw userHeightCm mode))).
Proof.
  apply (@measurements_independent_of_resolution
           (poseWithNoseAt 0.1) 640 480 2).
  - cbn. lia.
  - lra.
  - lra.
Defined.
End ResolutionFacts.

Section AveragingFacts.
Import Num Measure.
Local Open Scope string_scope.
Local Open Scope R_scope.

Lemma field_of_average (p : RawMeasurements R -> R) :
  In p rawFields ->
  forall frames avg,
    averageRawMeasurements frames = Ok avg ->
    p avg = fold_left Rplus (map p frames) 0 / INR (List.length frames).
Proof. exact (@field_of_average_any R Arith_R p). Qed.

Lemma running_sum_bounds (lo hi : R) (xs : list R) :
  (forall x, In x xs -> lo <= x <= hi) ->
  forall s,
    s + INR (List.length xs) * lo <= fold_left Rplus xs s
    <= s + INR (List.length xs) * hi.
Proof.
  induction xs as [| x rest IH]; intros Hall s.
  - cbn. lra.
  - cbn [fold_left].
    assert (Hx : lo <= x <= hi) by (apply Hall; left; reflexivity).
    assert (Hrest : forall y, In y rest -> lo <= y <= hi)
      by (intros y Hy; apply Hall; right; exact Hy).
    specialize (IH Hrest (s + x)).
    change (List.length (x :: rest)) with (S (List.length rest)).
    rewrite S_INR. lra.
Qed.

Lemma average_field_bounds
    (frames : list (RawMeasurements R)) (avg : RawMeasurements R)
    (p : RawMeasurements R -> R) (lo hi : R) :
  averageRawMeasurements frames = Ok avg ->
  In p rawFields ->
  (forall f, In f frames -> lo <= p f <= hi) ->
  lo <= p avg <= hi.
Proof.
  intros E Hp Hall.
  rewrite (@field_of_average p Hp frames avg E).
  assert (Hn : 0 < INR (List.length frames)).
  { unfold averageRawMeasurements in E.
    destruct frames; [discriminate |]. apply lt_0_INR. cbn. lia. }
  pose proof (@running_sum_bounds lo hi (map p frames)) as Hb.
  rewrite length_map in Hb.
  assert (Hmap : forall x, In x (map p frames) -> lo <= x <= hi).
  { intros x Hx. apply in_map_iff in Hx. destruct Hx as [f [<- Hf]].
    exact (Hall f Hf). }
  specialize (Hb Hmap 0).
  split.
  - apply Rmult_le_reg_r with (INR (List.length frames)); [exact Hn |].
    unfold Rdiv. rewrite Rmult_assoc, Rinv_l by lra. lra.
  - apply Rmult_le_reg_r with (INR (List.length frames)); [exact Hn |].
    unfold Rdiv. rewrite Rmult_assoc, Rinv_l by lra. lra.
Qed.

(** X15.  Smoothing stays within the frames.  Each field of the average of
    a non-empty list of raw frames lies between the smallest and the largest
    value of that field among the frames; in particular the average of
    frames that agree on a field has that same value (exact arithmetic). *)
Theorem average_within_range (frames : list (RawMeasurements R)) :
  frames <> [] ->
  exists avg,
    averageRawMeasurements frames = Ok avg
    /\ forall p lo hi,
         In p rawFields ->
         (forall f, In f frames -> lo <= p f <= hi) ->
         lo <= p avg <= hi.
Proof.
  intro Hne.
  destruct (@averageRawMeasurements_returns R _ frames Hne) as [avg E].
  exists avg. split; [exact E |].
  intros p lo hi Hp Hall.
  exact (@average_field_bounds frames avg p lo hi E Hp Hall).
Qed.

Lemma average_within_range_witness :
  exists avg,
    averageRawMeasurements [sampleRaw; frameOfWidth 60; sampleRaw] = Ok avg
    /\ forall p lo hi,
         In p rawFields ->
         (forall f, In f [sampleRaw; frameOfWidth 60; sampleRaw] ->
                    lo <= p f <= hi) ->
         lo <= p avg <= hi.
Proof.
  apply (@average_within_range [sampleRaw; frameOfWidth 60; sampleRaw]).
  discriminate.
Defined.
End AveragingFacts.

Section CircumferenceFacts.
Import Num Measure.
Local Open Scope string_scope.
Local Open Scope R_scope.

Lemma ramanujan_h_range (a b : R) :
  0 < a -> 0 < b -> 0 <= (a - b) * (a - b) / ((a + b) * (a + b)) < 1.
Proof.
  intros Ha Hb.
  assert (Hs : 0 < (a + b) * (a + b)) by nra.
  split.
  - apply Rmult_le_pos; [apply Rle_0_sqr |].
    left. apply Rinv_0_lt_compat. exact Hs.
  - apply Rmult_lt_reg_r with ((a + b) * (a + b)); [exact Hs |].
    unfold Rdiv. rewrite Rmult_assoc, Rinv_l by lra. nra.
Qed.

Lemma ramanujan_factor_range (h : R) :
  0 <= h < 1 -> 1 <= 1 + 3 * h / (10 + sqrt (4 - 3 * h)) <= 14 / 11.
Proof.
  intros [H0 H1].
  assert (Hs : 1 <= sqrt (4 - 3 * h)).
  { rewrite <- sqrt_1 at 1. apply sqrt_le_1; lra. }
  assert (Hd : 0 < / (10 + sqrt (4 - 3 * h)))
    by (apply Rinv_0_lt_compat; lra).
  assert (Hd' : / (10 + sqrt (4 - 3 * h)) <= / 11)
    by (apply Rinv_le_contravar; lra).
  unfold Rdiv. split; nra.
Qed.

(** On positive semi-axes the result is the rounding of a value between
    [PI * (a + b)] and 14/11 of it. *)
Lemma computeChestCircumference_value (a b : R) :
  0 < a -> 0 < b ->
  exists v,
    computeChestCircumference a b = r v
    /\ PI * (a + b) <= v <= 14 / 11 * (PI * (a + b)).
Proof.
  intros Ha Hb.
  pose proof (ramanujan_factor_range (ramanujan_h_range Ha Hb)) as [F1 F2].
  pose proof PI_RGT_0 as Hpi.
  exists (PI * (a + b)
          * (1 + 3 * ((a - b) * (a - b) / ((a + b) * (a + b)))
                 / (10 + sqrt (4 - 3 * ((a - b) * (a - b)
                                        / ((a + b) * (a + b))))))).
  split.
  - unfold computeChestCircumference, r. num_R.
    unfold Math_PI, Math_sqrt.
    rewrite (@leb_false a 0), (@leb_false b 0) by lra. reflexivity.
  - set (F := 1 + _) in *.
    assert (Hp : 0 < PI * (a + b)) by nra.
    split; nra.
Qed.

(** X16.  In exact arithmetic the ellipse circumference does not depend on
    which semi-axis is given first and is never negative.  For semi-axes
    between 0.001 and 1000000 it lies between the circumference
    [PI * (a + b)] of the circle of the mean radius and 14/11 of it, up to
    0.051: 0.05 from the rounding to one decimal, the rest is room for the
    rounding of binary64. *)
Theorem computeChestCircumference_symmetric_bounded (a b : R) :
  computeChestCircumference a b = computeChestCircumference b a
  /\ 0 <= computeChestCircumference a b
  /\ (0.001 <= a <= 1000000 -> 0.001 <= b <= 1000000 ->
      PI * (a + b) - 0.051 <= computeChestCircumference a b
      <= 14 / 11 * (PI * (a + b)) + 0.051).
Proof.
  split; [| split].
  - unfold computeChestCircumference. num_R.
    rewrite (orb_comm (a <=? 0)).
    replace ((b - a) * (b - a)) with ((a - b) * (a - b)) by ring.
    rewrite (Rplus_comm b a). reflexivity.
  - destruct (Rlt_dec 0 a) as [Ha | Ha];
      [destruct (Rlt_dec 0 b) as [Hb | Hb] |].
    + destruct (computeChestCircumference_value Ha Hb) as [v [-> [Hlo _]]].
      unfold r. num_R.
      apply Rmult_le_pos; [| lra].
      unfold Math_round. apply IZR_le, Zfloor_lub. simpl.
      pose proof PI_RGT_0. nra.
    + unfold computeChestCircumference. num_R.
      rewrite (@leb_true b 0) by lra. rewrite orb_true_r. lra.
    + unfold computeChestCircumference. num_R.
      rewrite (@leb_true a 0) by lra. cbn [orb]. lra.
  - intros [Ha _] [Hb _].
    destruct (@computeChestCircumference_value a b ltac:(lra) ltac:(lra))
      as [v [-> [Hlo Hhi]]].
    destruct (r_rounds v) as [k [_ Hr]]. lra.
Qed.

Lemma computeChestCircumference_symmetric_bounded_witness :
  PI * (20 + 12) - 0.051 <= computeChestCircumference 20 12
  <= 14 / 11 * (PI * (20 + 12)) + 0.051.
Proof.
  apply (proj2 (proj2 (computeChestCircumference_symmetric_bounded 20 12)));
    lra.
Defined.
End CircumferenceFacts.

Section CaptureFacts.
Import Num Measure Camera Capture.
Local Open Scope string_scope.
Local Open Scope Z_scope.

Lemma sliceLast_length (A : Type) (buf : list A) (n : Z) :
  0 <= n ->
  List.length (sliceLast buf n)
  = (if n =? 0 then List.length buf
     else Nat.min (Z.to_nat n) (List.length buf)).
Proof.
  intro Hn. unfold sliceLast. rewrite length_skipn.
  destruct (Z.eqb_spec n 0) as [-> | Hne].
  - cbn. lia.
  - destruct (Z.ltb_spec (- n) 0); lia.
Qed.

Lemma pushBounded_length_eq (A : Type) (buf : list A) (x : A) :
  (List.length buf <= MAX_BUFFER)%nat ->
  List.length (pushBounded buf x)
  = Nat.min (S (List.length buf)) MAX_BUFFER.
Proof.
  intro Hle. unfold pushBounded.
  destruct (Nat.ltb_spec MAX_BUFFER (List.length (buf ++ [x])))
    as [Hlt | Hge]; rewrite length_app in *; cbn [List.length] in *.
  - destruct buf as [| b rest]; cbn [app tl List.length] in *.
    + unfold MAX_BUFFER in *. lia.
    + rewrite length_app. cbn [List.length]. lia.
  - lia.
Qed.

Lemma sessionInvariant_initial (mode : CameraMode) (requiredGoodFrames : Z) :
  sessionInvariant mode requiredGoodFrames initial.
Proof.
  unfold sessionInvariant, modeBufferLength, MAX_BUFFER.
  destruct mode as [[ | | | ] | | ]; cbn; repeat split;
    first [lia | discriminate].
Qed.

Lemma sessionInvariant_tick (mode : CameraMode) (requiredGoodFrames : Z)
    (st : CameraState) (frame : Frame) (st' : CameraState) :
  sessionInvariant mode requiredGoodFrames st ->
  tick mode requiredGoodFrames st frame = Ok st' ->
  sessionInvariant mode requiredGoodFrames st'.
Proof.
  intros [Hmax [Hcount [Hready Hbuf]]] E.
  apply tick_outcome_of in E. unfold tick_outcome in E.
  unfold sessionInvariant.
  destruct (verdict mode frame).
  - destruct E as [Hc [Hr [Hraw Hface]]].
    unfold modeBufferLength. rewrite Hc, Hr, Hraw, Hface.
    destruct mode as [[ | | | ] | | ]; cbn; repeat split;
      first [lia | discriminate].
  - destruct E as [Hc [Hr [Hraw Hface]]].
    assert (Hlen : modeBufferLength mode st' = modeBufferLength mode st)
      by (unfold modeBufferLength; rewrite Hraw, Hface; reflexivity).
    rewrite Hlen, Hr.
    destruct (Z.ltb_spec (goodFrameCountRef st') requiredGoodFrames).
    + repeat split; first [assumption | lia | discriminate].
    + repeat split; first [assumption | lia | tauto].
  - destruct E as [Hc [Hr Hpush]].
    assert (Hlen : modeBufferLength mode st'
                   = Nat.min (S (modeBufferLength mode st)) MAX_BUFFER).
    { unfold modeBufferLength in *.
      destruct mode as [[ | | | ] | | ];
        destruct Hpush as [_ [x ->]]; apply pushBounded_length_eq;
        exact Hmax. }
    rewrite Hlen, Hr. unfold MAX_BUFFER in *.
    destruct (Z.geb_spec (goodFrameCountRef st') requiredGoodFrames).
    + repeat split; lia.
    + repeat split; first [lia | intro Hc'; specialize (Hready Hc'); lia].
Qed.

Lemma session_keeps_invariant (mode : CameraMode) (requiredGoodFrames : Z)
    (frames : list Frame) (st : CameraState) :
  run mode requiredGoodFrames initial frames = Ok st ->
  sessionInvariant mode requiredGoodFrames st.
Proof.
  intro E.
  destruct (@run_invariant mode requiredGoodFrames
              (sessionInvariant mode requiredGoodFrames)
              (@sessionInvariant_tick mode requiredGoodFrames)
              frames initial
              (sessionInvariant_initial mode requiredGoodFrames))
    as [st' [E' H]].
  rewrite E in E'. injection E' as <-. exact H.
Qed.

Lemma capturedFrameCount_ready (mode : CameraMode) (requiredGoodFrames : Z)
    (st : CameraState) :
  0 <= requiredGoodFrames ->
  sessionInvariant mode requiredGoodFrames st ->
  canCapture st = true ->
  (1 <= capturedFrameCount mode requiredGoodFrames st)%nat
  /\ (1 <= requiredGoodFrames ->
      capturedFrameCount mode requiredGoodFrames st
      = Z.to_nat (Z.min requiredGoodFrames (Z.of_nat MAX_BUFFER))).
Proof.
  intros Hreq [Hmax [Hcount [Hready Hbuf]]] Hc.
  specialize (Hready Hc). specialize (Hbuf Hc).
  assert (Hn : capturedFrameCount mode requiredGoodFrames st
               = (if requiredGoodFrames =? 0 then modeBufferLength mode st
                  else Nat.min (Z.to_nat requiredGoodFrames)
                         (modeBufferLength mode st))).
  { unfold capturedFrameCount, modeBufferLength.
    destruct mode as [[ | | | ] | | ]; apply sliceLast_length; exact Hreq. }
  rewrite Hn. unfold MAX_BUFFER in *.
  destruct (Z.eqb_spec requiredGoodFrames 0); split; lia.
Qed.

(** X17.  Once the ready signal is on, the first capture delivers a
    measurement.  In every session started from the mounted component with
    a threshold of at least 0, when [canCapture] is set and no capture is in
    progress ([isCapturing] is false), [handleCapture] finds frames to
    average, calls [onCapture] with a measurement and leaves [isCapturing]
    set; with a threshold of at least 1 it averages exactly
    [min requiredGoodFrames 60] buffered frames.  While [isCapturing] is
    set, [handleCapture] returns without calling [onCapture]. *)
Theorem ready_capture_delivers (mode : CameraMode) (requiredGoodFrames : Z)
    (userHeightCm : R) (frames : list Frame) (st : CameraState) :
  0 <= requiredGoodFrames ->
  run mode requiredGoodFrames initial frames = Ok st ->
  canCapture st = true ->
  (exists m,
     handleCapture mode requiredGoodFrames userHeightCm false st
     = Ok (true, Some m))
  /\ (1 <= requiredGoodFrames ->
      capturedFrameCount mode requiredGoodFrames st
      = Z.to_nat (Z.min requiredGoodFrames 60))
  /\ handleCapture mode requiredGoodFrames userHeightCm true st
     = Ok (true, None).
Proof.
  intros Hreq E Hc.
  pose proof (@session_keeps_invariant mode requiredGoodFrames frames st E)
    as Hinv.
  destruct (@capturedFrameCount_ready mode requiredGoodFrames st Hreq Hinv Hc)
    as [Hpos Hexact].
  split; [| split; [exact Hexact | reflexivity]].
  unfold handleCapture, capturedFrameCount in *.
  destruct mode as [[ | | | ] | | ].
  1: { destruct (sliceLast (faceFrameBuffer st) requiredGoodFrames)
         as [| f rest] eqn:Es; [cbn in Hpos; lia |].
       unfold averageFaceMeasurements.
       cbn [List.length Nat.eqb bind]. eexists. reflexivity. }
  all: destruct (sliceLast (rawFrameBuffer st) requiredGoodFrames)
         as [| f rest] eqn:Es; [cbn in Hpos; lia |];
    unfold averageRawMeasurements;
    cbn [List.length Nat.eqb bind]; eexists; reflexivity.
Qed.

Lemma run_accepted (mode : CameraMode) (requiredGoodFrames : Z) :
  1 <= requiredGoodFrames ->
  forall frames st,
    0 <= goodFrameCountRef st <= requiredGoodFrames ->
    (canCapture st = true <-> requiredGoodFrames <= goodFrameCountRef st) ->
    Forall (fun frame => verdict mode frame = Accepted) frames ->
    exists st',
      run mode requiredGoodFrames st frames = Ok st'
      /\ goodFrameCountRef st'
         = Z.min (goodFrameCountRef st + Z.of_nat (List.length frames))
             requiredGoodFrames
      /\ (canCapture st' = true
          <-> requiredGoodFrames
              <= goodFrameCountRef st + Z.of_nat (List.length frames)).
Proof.
  intros Hreq frames.
  induction frames as [| frame rest IH]; intros st Hrange Hready Hall.
  - exists st. split; [reflexivity |]. cbn [List.length Z.of_nat].
    rewrite Z.add_0_r. split; [lia | exact Hready].
  - inversion Hall as [| ? ? Hacc Hrest]; subst.
    destruct (tick_cases mode requiredGoodFrames st frame) as [st1 [E1 H1]].
    unfold tick_outcome in H1. rewrite Hacc in H1.
    destruct H1 as [Hc [Hr _]].
    assert (Hready1 : canCapture st1 = true
                      <-> requiredGoodFrames <= goodFrameCountRef st1).
    { rewrite Hr.
      destruct (Z.geb_spec (goodFrameCountRef st1) requiredGoodFrames).
      - split; [lia | reflexivity].
      - rewrite Hready. lia. }
    destruct (IH st1 ltac:(lia) Hready1 Hrest) as [st' [E' [Hc' Hr']]].
    exists st'. cbn [run]. rewrite E1. cbn [bind].
    split; [exact E' |].
    change (List.length (frame :: rest)) with (S (List.length rest)).
    rewrite Nat2Z.inj_succ. split; [lia |]. rewrite Hr'. lia.
Qed.

(** X18.  How long the user has to hold still.  With a threshold of at
    least 1, a session of accepted frames only is ready exactly from the
    [requiredGoodFrames]-th frame on; and after one rejected frame at the
    threshold, it takes [min 2 requiredGoodFrames] accepted frames to be
    ready again. *)
Theorem accepted_streak_unlocks (mode : CameraMode) (requiredGoodFrames : Z) :
  1 <= requiredGoodFrames ->
  (forall frames,
     Forall (fun frame => verdict mode frame = Accepted) frames ->
     exists st,
       run mode requiredGoodFrames initial frames = Ok st
       /\ goodFrameCountRef st
          = Z.min (Z.of_nat (List.length frames)) requiredGoodFrames
       /\ (canCapture st = true
           <-> requiredGoodFrames <= Z.of_nat (List.length frames)))
  /\ (forall st rejected frames,
        goodFrameCountRef st = requiredGoodFrames ->
        verdict mode rejected = Rejected ->
        Forall (fun frame => verdict mode frame = Accepted) frames ->
        exists st',
          run mode requiredGoodFrames st (rejected :: frames) = Ok st'
          /\ (canCapture st' = true
              <-> Z.min 2 requiredGoodFrames
                  <= Z.of_nat (List.length frames))).
Proof.
  intro Hreq. split.
  - intros frames Hall.
    destruct (@run_accepted mode requiredGoodFrames Hreq frames initial)
      as [st [E [Hc Hr]]]; try assumption.
    + cbn. lia.
    + cbn. split; [discriminate | lia].
    + exists st. cbn in Hc, Hr. auto.
  - intros st rejected frames Hc Hrej Hall.
    destruct (tick_cases mode requiredGoodFrames st rejected)
      as [st1 [E1 H1]].
    unfold tick_outcome in H1. rewrite Hrej in H1.
    destruct H1 as [Hc1 [Hr1 _]].
    assert (Hlt : goodFrameCountRef st1 < requiredGoodFrames) by lia.
    destruct (@run_accepted mode requiredGoodFrames Hreq frames st1)
      as [st' [E' [Hc' Hr']]]; try assumption.
    + lia.
    + rewrite Hr1.
      destruct (Z.ltb_spec (goodFrameCountRef st1) requiredGoodFrames);
        [| lia].
      split; [discriminate | lia].
    + exists st'. cbn [run]. rewrite E1. cbn [bind].
      split; [exact E' |]. rewrite Hr'. lia.
Qed.

Lemma accepted_streak_unlocks_witness :
  exists st,
    run (of_scan scan_full_body) 2 initial [goodFrame; goodFrame] = Ok st
    /\ goodFrameCountRef st = Z.min 2 2
    /\ (canCapture st = true <-> 2 <= 2).
Proof.
  destruct (@accepted_streak_unlocks (of_scan scan_full_body) 2) as [H _].
  - lia.
  - apply (H [goodFrame; goodFrame]).
    repeat constructor; apply goodFrame_verdict.
Defined.

Lemma ready_capture_delivers_witness :
  exists st,
    run (of_scan scan_full_body) 2 initial [goodFrame; goodFrame] = Ok st
    /\ canCapture st = true
    /\ (exists m,
          handleCapture (of_scan scan_full_body) 2 175 false st
          = Ok (true, Some m))
    /\ (1 <= 2 ->
        capturedFrameCount (of_scan scan_full_body) 2 st
        = Z.to_nat (Z.min 2 60))
    /\ handleCapture (of_scan scan_full_body) 2 175 true st
       = Ok (true, None).
Proof.
  destruct (@run_accepted (of_scan scan_full_body) 2 ltac:(lia)
              [goodFrame; goodFrame] initial)
    as [st [E [_ Hr]]].
  - cbn. lia.
  - cbn. split; [discriminate | lia].
  - repeat constructor; apply goodFrame_verdict.
  - assert (Hc : canCapture st = true) by (apply Hr; cbn; lia).
    exists st. split; [exact E |]. split; [exact Hc |].
    apply (@ready_capture_delivers (of_scan scan_full_body) 2 175
             [goodFrame; goodFrame] st); [lia | exact E | exact Hc].
Defined.
End CaptureFacts.

Section PipelineFacts.
Import Num Measure Camera Capture Badges.
Local Open Scope string_scope.
Local Open Scope R_scope.

Ltac landmark_at landmarks idx :=
  let lm := fresh "lm" in
  let E := fresh "E" in
  destruct (@at_index_defined landmarks idx) as [lm E]; [lia |];
  rewrite ?E.

Lemma extractUpperBodyMeasurements_leg
    (landmarks : list Landmark) (w h : R) (raw : RawMeasurements R) :
  (33 <= List.length landmarks)%nat ->
  extractUpperBodyMeasurements landmarks w h = Ok raw ->
  legLengthPx raw = 0.
Proof.
  intro Hge.
  landmark_at landmarks 0%nat. landmark_at landmarks 7%nat.
  landmark_at landmarks 8%nat. landmark_at landmarks 11%nat.
  landmark_at landmarks 12%nat. landmark_at landmarks 15%nat.
  landmark_at landmarks 16%nat. landmark_at landmarks 23%nat.
  landmark_at landmarks 24%nat.
  unfold extractUpperBodyMeasurements.
  rewrite ?E, ?E0, ?E1, ?E2, ?E3, ?E4, ?E5, ?E6, ?E7.
  cbn [dist midpoint prop bind lm_x lm_y].
  intros [= <-]. reflexivity.
Qed.

Lemma pushBounded_Forall (A : Type) (P : A -> Prop) (buf : list A) (x : A) :
  Forall P buf -> P x -> Forall P (pushBounded buf x).
Proof.
  intros Hbuf Hx. unfold pushBounded.
  assert (Hall : Forall P (buf ++ [x]))
    by (apply Forall_app; split; [exact Hbuf | constructor; [exact Hx | constructor]]).
  destruct (MAX_BUFFER <? List.length (buf ++ [x]))%nat; [| exact Hall].
  destruct (buf ++ [x])%list as [| y rest]; [constructor |].
  inversion Hall; assumption.
Qed.

Lemma sliceLast_Forall (A : Type) (P : A -> Prop) (buf : list A) (n : Z) :
  Forall P buf -> Forall P (sliceLast buf n).
Proof.
  intro Hbuf. unfold sliceLast.
  set (k := Z.to_nat _).
  rewrite <- (firstn_skipn k buf) in Hbuf.
  apply Forall_app in Hbuf. exact (proj2 Hbuf).
Qed.

(** Outside full-body mode every frame the loop buffers has leg length 0. *)
Lemma tick_keeps_leg_zero (mode : CameraMode) (requiredGoodFrames : Z)
    (st : CameraState) (frame : Frame) (st' : CameraState) :
  mode <> of_scan scan_full_body ->
  Forall (fun raw => legLengthPx raw = 0) (rawFrameBuffer st) ->
  tick mode requiredGoodFrames st frame = Ok st' ->
  Forall (fun raw => legLengthPx raw = 0) (rawFrameBuffer st').
Proof.
  intros Hmode Hbuf. unfold tick.
  destruct (result frame) as [landmarks |];
    [| intros [= <-]; constructor].
  destruct (checkLandmarkQualityForMode_returns
              landmarks (liveW frame) (liveH frame) mode)
    as [q [Eq Hlen]].
  rewrite Eq. cbn [bind].
  destruct (valid q); [| intros [= <-]; exact Hbuf].
  specialize (Hlen eq_refl).
  destruct (@extractors_return landmarks (liveW frame) (liveH frame) Hlen)
    as [_ [[upper Eupper] [f Ef]]].
  pose proof (@extractUpperBodyMeasurements_leg landmarks (liveW frame)
                (liveH frame) upper Hlen Eupper) as Hleg.
  destruct mode as [[ | | | ] | | ]; try contradiction;
    rewrite ?Eupper, ?Ef; cbn [bind fst snd];
    intros [= <-]; cbn [rawFrameBuffer];
    first [exact Hbuf | apply pushBounded_Forall; assumption].
Qed.

Lemma session_keeps_leg_zero (mode : CameraMode) (requiredGoodFrames : Z)
    (frames : list Frame) (st : CameraState) :
  mode <> of_scan scan_full_body ->
  run mode requiredGoodFrames initial frames = Ok st ->
  Forall (fun raw => legLengthPx raw = 0) (rawFrameBuffer st).
Proof.
  intros Hmode E.
  destruct (@run_invariant mode requiredGoodFrames
              (fun st => Forall (fun raw => legLengthPx raw = 0)
                           (rawFrameBuffer st))
              (fun st frame st' H E' =>
                 @tick_keeps_leg_zero mode requiredGoodFrames st frame st'
                   Hmode H E')
              frames initial (Forall_nil _))
    as [st' [E' H]].
  rewrite E in E'. injection E' as <-. exact H.
Qed.

Lemma r_0 (x : R) : r (0 * x) = 0.
Proof.
  unfold r. num_R. unfold Math_round. rewrite !Rmult_0_l.
  rewrite (@Zfloor_half_small 0) by lra. lra.
Qed.

Lemma r2_0 (x : R) : r2 (0 / x) = 0.
Proof.
  unfold r2. num_R. unfold Math_round, Rdiv. rewrite !Rmult_0_l.
  rewrite (@Zfloor_half_small 0) by lra. lra.
Qed.

Lemma scaleMeasurements_no_legs
    (raw : RawMeasurements R) (userHeightCm : R) (mode : ScanMode) :
  legLengthPx raw = 0 ->
  legLengthCm (scaleMeasurements raw userHeightCm mode) = 0
  /\ legToTorsoRatio (scaleMeasurements raw userHeightCm mode) = 0.
Proof.
  intro Hleg. unfold scaleMeasurements.
  cbn [legLengthCm legToTorsoRatio]. rewrite Hleg.
  split; [apply r_0 |].
  destruct (num_ltb _ _); [| reflexivity].
  rewrite r_0. apply r2_0.
Qed.

(** X19.  A scan without legs is always a "long torso".  In every mode
    other than full-body the loop buffers frames with leg length 0 (the
    frames have a non-zero height, which the extractor divides by), so
    whatever [handleCapture] delivers has [legLengthCm = 0] and
    [legToTorsoRatio = 0], and [computeBadges] gives it the "long-torso"
    badge and never "long-legged", "proportional-body" or
    "sprinter-build". *)
Theorem capture_without_legs_is_long_torso
    (mode : CameraMode) (requiredGoodFrames : Z) (userHeightCm : R)
    (frames : list Frame) (st : CameraState)
    (isCapturing isCapturing' : bool) (m : Measurements R) :
  mode <> of_scan scan_full_body ->
  Forall (fun frame => liveH frame <> 0) frames ->
  run mode requiredGoodFrames initial frames = Ok st ->
  handleCapture mode requiredGoodFrames userHeightCm isCapturing st
  = Ok (isCapturing', Some m) ->
  legLengthCm m = 0
  /\ legToTorsoRatio m = 0
  /\ In "long-torso" (badgeIds m)
  /\ ~ In "long-legged" (badgeIds m)
  /\ ~ In "proportional-body" (badgeIds m)
  /\ ~ In "sprinter-build" (badgeIds m).
Proof.
  intros Hmode _ E Hcap.
  pose proof (@session_keeps_leg_zero mode requiredGoodFrames frames st
                Hmode E) as Hbuf.
  assert (Hm : legLengthCm m = 0 /\ legToTorsoRatio m = 0).
  { unfold handleCapture in Hcap.
    destruct isCapturing; [discriminate |].
    destruct mode as [[ | | | ] | | ]; try contradiction.
    1: { destruct (List.length _ =? 0)%nat; [discriminate |].
         destruct (averageFaceMeasurements _); [| discriminate].
         cbn [bind] in Hcap. injection Hcap as _ <-. split; reflexivity. }
    all: destruct (List.length _ =? 0)%nat; [discriminate |];
      destruct (averageRawMeasurements
                  (sliceLast (rawFrameBuffer st) requiredGoodFrames))
        as [avg | msg] eqn:Eavg; [| discriminate];
      cbn [bind] in Hcap; injection Hcap as _ <-;
      apply scaleMeasurements_no_legs;
      assert (Hz : 0 <= legLengthPx avg <= 0);
      [ apply (@average_field_bounds _ avg (@legLengthPx R) 0 0 Eavg);
        [ unfold rawFields; cbn; tauto
        | intros f Hf;
          pose proof (@sliceLast_Forall _ _ _ requiredGoodFrames Hbuf)
            as Hslice;
          rewrite Forall_forall in Hslice; rewrite (Hslice f Hf); lra ]
      | lra ]. }
  destruct Hm as [Hleg Hratio].
  pose proof (leg_badge_thresholds m) as [L1 [L2 L3]].
  pose proof (sprinter_badge_threshold m) as S1.
  rewrite L1, L2, L3, S1, Hratio.
  repeat split; try assumption; lra.
Qed.

Lemma upperBodyFrame_verdict :
  verdict (of_scan scan_upper_body) upperBodyFrame = Accepted.
Proof.
  unfold verdict, upperBodyFrame. cbn [result liveW liveH].
  unfold checkLandmarkQualityForMode, checkUpperBodyQuality, allVisible,
    UPPER_BODY_LANDMARKS, upperBodyPose, at_index.
  cbn [List.length map seq Nat.ltb Nat.leb Nat.eqb orb nth_error forallb].
  rewrite !seen_isVisible.
  cbn [andb negb prop bind lm_x lm_y seen].
  unfold Math_min, Math_max, Num.gtb.
  rewrite Rmin_left, Rmax_left by lra.
  rewrite (@ltb_false 0.3 0.05), (@ltb_false (1 - 0.05) 0.7),
    (@ltb_false (0.7 - 0.3) 0.22) by lra.
  reflexivity.
Qed.

Lemma capture_without_legs_is_long_torso_witness :
  exists st m,
    run (of_scan scan_upper_body) 2 initial [upperBodyFrame; upperBodyFrame]
    = Ok st
    /\ handleCapture (of_scan scan_upper_body) 2 175 false st
       = Ok (true, Some m)
    /\ legLengthCm m = 0
    /\ legToTorsoRatio m = 0
    /\ In "long-torso" (badgeIds m)
    /\ ~ In "long-legged" (badgeIds m)
    /\ ~ In "proportional-body" (badgeIds m)
    /\ ~ In "sprinter-build" (badgeIds m).
Proof.
  destruct (@run_accepted (of_scan scan_upper_body) 2 ltac:(lia)
              [upperBodyFrame; upperBodyFrame] initial)
    as [st [E [_ Hr]]].
  - cbn. lia.
  - cbn. split; [discriminate | lia].
  - repeat constructor; apply upperBodyFrame_verdict.
  - assert (Hc : canCapture st = true) by (apply Hr; cbn; lia).
    pose proof (@session_keeps_invariant (of_scan scan_upper_body) 2
                  [upperBodyFrame; upperBodyFrame] st E) as Hinv.
    destruct (@capturedFrameCount_ready (of_scan scan_upper_body) 2 st
                ltac:(lia) Hinv Hc) as [Hpos _].
    assert (Hcap : exists m,
               handleCapture (of_scan scan_upper_body) 2 175 false st
               = Ok (true, Some m)).
    { unfold handleCapture, capturedFrameCount in *.
      destruct (sliceLast (rawFrameBuffer st) 2) as [| f rest];
        [cbn in Hpos; lia |].
      unfold averageRawMeasurements.
      cbn [List.length Nat.eqb bind]. eexists. reflexivity. }
    destruct Hcap as [m Hcap].
    exists st, m. split; [exact E |]. split; [exact Hcap |].
    apply (@capture_without_legs_is_long_torso (of_scan scan_upper_body) 2
             175 [upperBodyFrame; upperBodyFrame] st false true m);
      [discriminate | | exact E | exact Hcap].
    repeat constructor; cbn; lra.
Defined.
End PipelineFacts.

Section BinaryOrder.
Import SpecFloat.
Local Open Scope Z_scope.

Ltac order_cases :=
  unfold SFltb, SFcompare;
  repeat match goal with
    | |- context [Pos.compare_cont Eq ?a ?b] =>
        change (Pos.compare_cont Eq a b) with (Pos.compare a b)
    end;
  repeat match goal with
    | |- context [Z.compare ?a ?b] => destruct (Z.compare_spec a b)
    | |- context [Pos.compare ?a ?b] => destruct (Pos.compare_spec a b)
    end;
  cbn [CompOpp];
  try reflexivity; try discriminate; intros; exfalso; lia.

Lemma SFltb_irrefl (x : spec_float) : SFltb x x = false.
Proof.
  destruct x as [[|] | [|] | | [|] m e]; try reflexivity; order_cases.
Qed.

Lemma SFltb_trans (x y z : spec_float) :
  SFltb x y = true -> SFltb y z = true -> SFltb x z = true.
Proof.
  destruct x as [[|] | [|] | | [|] mx ex], y as [[|] | [|] | | [|] my ey],
    z as [[|] | [|] | | [|] mz ez];
    try reflexivity; try discriminate; try (intros; assumption);
    order_cases.
Qed.

Lemma SFltb_negtrans (x y z : spec_float) :
  x <> S754_nan -> y <> S754_nan -> z <> S754_nan ->
  SFltb x y = false -> SFltb y z = false -> SFltb x z = false.
Proof.
  destruct x as [[|] | [|] | | [|] mx ex], y as [[|] | [|] | | [|] my ey],
    z as [[|] | [|] | | [|] mz ez];
    intros Hx Hy Hz; try contradiction;
    try reflexivity; try discriminate; try (intros; assumption);
    order_cases.
Qed.

Lemma not_nan (d : PrimFloat.float) :
  PrimFloat.is_nan d = false -> FloatOps.Prim2SF d <> S754_nan.
Proof.
  unfold PrimFloat.is_nan. rewrite FloatAxioms.eqb_spec. intros H E.
  rewrite E in H. discriminate.
Qed.

(** On binary64 numbers none of which is NaN, [<] is a strict weak
    order. *)
Lemma comparable_binary64 (ds : list PrimFloat.float) :
  (forall d, In d ds -> PrimFloat.is_nan d = false) -> comparable ds.
Proof.
  intro Hnan. unfold comparable.
  cbn [num_ltb Number_binary64]. repeat split.
  - intros a _. rewrite FloatAxioms.ltb_spec. apply SFltb_irrefl.
  - intros a b c _ _ _. rewrite !FloatAxioms.ltb_spec. apply SFltb_trans.
  - intros a b c Ha Hb Hc. rewrite !FloatAxioms.ltb_spec.
    apply SFltb_negtrans; apply not_nan; apply Hnan; assumption.
Qed.
End BinaryOrder.

Section ChartFacts.
Import Num MetricChart.

Section AnyNumber.
Context {N : Type} `{Number N}.

Lemma distance_In (xs : list N) (value : N) (j : nat) :
  (j < List.length xs)%nat ->
  In (distance value (nth j xs num_zero)) (map (distance value) xs).
Proof. intro Hj. apply in_map, nth_In. exact Hj. Qed.

Lemma closer_fold (xs : list N) (value : N) :
  comparable (map (distance value) xs) ->
  forall l pre best,
    xs = (pre ++ l)%list ->
    firstNearest xs value (List.length pre) best ->
    firstNearest xs value (List.length xs)
      (fold_left (closer xs value)
         (combine (seq (List.length pre) (List.length l)) l) best).
Proof.
  intros [Hirr [Htrans Hneg]].
  induction l as [| x l' IH]; intros pre best Hxs Hinv.
  - cbn. rewrite app_nil_r in Hxs. subst xs. exact Hinv.
  - cbn [List.length seq combine fold_left].
    assert (Hxs' : xs = ((pre ++ [x]) ++ l')%list)
      by (rewrite <- app_assoc; exact Hxs).
    assert (Hlen : List.length (pre ++ [x]) = S (List.length pre))
      by (rewrite length_app; cbn; lia).
    assert (Hk : (List.length pre < List.length xs)%nat)
      by (rewrite Hxs, length_app; cbn; lia).
    rewrite <- Hlen. apply IH; [exact Hxs' |].
    rewrite Hlen.
    assert (Hx : nth (List.length pre) xs num_zero = x)
      by (rewrite Hxs; apply nth_middle).
    destruct Hinv as [Hlt [Hmin Hfirst]].
    assert (Hb : (best < List.length xs)%nat) by lia.
    unfold closer. fold (distance value x).
    fold (distance value (nth best xs num_zero)).
    rewrite <- Hx.
    set (dk := distance value (nth (List.length pre) xs num_zero)).
    set (db := distance value (nth best xs num_zero)).
    pose proof (@distance_In xs value _ Hk) as Ik. fold dk in Ik.
    pose proof (@distance_In xs value _ Hb) as Ib. fold db in Ib.
    destruct (num_ltb dk db) eqn:Hcloser.
    + unfold firstNearest. fold dk.
      split; [lia |]. split.
      * intros j Hj. destruct (Nat.eq_dec j (List.length pre)) as [-> | Hne].
        -- fold dk. apply Hirr. exact Ik.
        -- assert (Hj' : (j < List.length pre)%nat) by lia.
           pose proof (@distance_In xs value j ltac:(lia)) as Ij.
           specialize (Hmin j Hj'). fold db in Hmin.
           destruct (num_ltb (distance value (nth j xs num_zero)) dk)
             eqn:Hjk; [| reflexivity].
           rewrite (Htrans _ _ _ Ij Ik Ib Hjk Hcloser) in Hmin.
           discriminate.
      * intros j Hj.
        pose proof (@distance_In xs value j ltac:(lia)) as Ij.
        specialize (Hmin j Hj). fold db in Hmin.
        destruct (num_ltb dk (distance value (nth j xs num_zero)))
          eqn:Hkj; [reflexivity |].
        rewrite (Hneg _ _ _ Ik Ij Ib Hkj Hmin) in Hcloser.
        discriminate.
    + unfold firstNearest. fold db.
      split; [lia |]. split; [| exact Hfirst].
      intros j Hj. destruct (Nat.eq_dec j (List.length pre)) as [-> | Hne].
      * exact Hcloser.
      * apply Hmin. lia.
Qed.

Lemma closestIdx_firstNearest (xs : list N) (value : N) :
  xs <> [] ->
  comparable (map (distance value) xs) ->
  firstNearest xs value (List.length xs) (closestIdx xs value).
Proof.
  intros Hne Hcmp. destruct xs as [| x0 rest]; [contradiction |].
  unfold closestIdx.
  cbn [List.length seq combine fold_left].
  assert (H0 : closer (x0 :: rest) value 0 (0%nat, x0) = 0%nat).
  { unfold closer. destruct (num_ltb _ _); reflexivity. }
  rewrite H0.
  apply (@closer_fold (x0 :: rest) value Hcmp rest [x0] 0%nat);
    [reflexivity |].
  unfold firstNearest. cbn [List.length].
  split; [lia |]. split.
  - intros j Hj. assert (j = 0%nat) as -> by lia.
    apply (proj1 Hcmp). cbn. left. reflexivity.
  - intros j Hj. lia.
Qed.
End AnyNumber.

Local Open Scope R_scope.

Lemma ltb_true_inv (x y : R) : Num.ltb x y = true -> x < y.
Proof. destruct (ltb_spec x y); [trivial | discriminate]. Qed.

Lemma ltb_false_inv (x y : R) : Num.ltb x y = false -> y <= x.
Proof. destruct (ltb_spec x y); [discriminate | lra]. Qed.

Lemma comparable_R (ds : list R) : comparable ds.
Proof.
  unfold comparable. num_R. repeat split.
  - intros a _. apply ltb_false. lra.
  - intros a b c _ _ _ Hab Hbc.
    destruct (ltb_spec a b) as [Hab' |]; [| discriminate].
    destruct (ltb_spec b c) as [Hbc' |]; [| discriminate].
    apply ltb_true. lra.
  - intros a b c _ _ _ Hab Hbc.
    destruct (ltb_spec a b) as [| Hab']; [discriminate |].
    destruct (ltb_spec b c) as [| Hbc']; [discriminate |].
    apply ltb_false. lra.
Qed.

(** X20.  The chart marks the sample whose computed distance to the user's
    value is least.  In any arithmetic in which [<] is a strict weak order
    on the computed distances [Math.abs(x - value)], on a non-empty list
    [closestIdx] is a valid index, no entry has a computed distance less
    than that of the entry it points at, and every earlier entry has a
    greater one (ties of the computed distance go to the first).  The
    reals are such an arithmetic, and there this is the entry nearest to
    [value]; binary64 is one whenever no computed distance is NaN. *)
Theorem closestIdx_nearest :
  (forall (N : Type) (A : Number N) (xs : list N) (value : N),
      xs <> [] ->
      comparable (map (distance value) xs) ->
      firstNearest xs value (List.length xs) (closestIdx xs value))
  /\ (forall (xs : list R) (value : R),
         xs <> [] ->
         (closestIdx xs value < List.length xs)%nat
         /\ (forall j, (j < List.length xs)%nat ->
               Rabs (nth (closestIdx xs value) xs 0 - value)
               <= Rabs (nth j xs 0 - value))
         /\ (forall j, (j < closestIdx xs value)%nat ->
               Rabs (nth (closestIdx xs value) xs 0 - value)
               < Rabs (nth j xs 0 - value)))
  /\ (forall (xs : list PrimFloat.float) (value : PrimFloat.float),
         xs <> [] ->
         (forall x, In x xs ->
                    PrimFloat.is_nan (distance value x) = false) ->
         firstNearest xs value (List.length xs) (closestIdx xs value)).
Proof.
  split; [| split].
  - intros N A xs value. apply closestIdx_firstNearest.
  - intros xs value Hne.
    destruct (@closestIdx_firstNearest R _ xs value Hne (comparable_R _))
      as [Hlt [Hmin Hfirst]].
    split; [exact Hlt |]. split.
    + intros j Hj. specialize (Hmin j Hj).
      apply ltb_false_inv in Hmin. exact Hmin.
    + intros j Hj. specialize (Hfirst j Hj).
      apply ltb_true_inv in Hfirst. exact Hfirst.
  - intros xs value Hne Hnan.
    apply closestIdx_firstNearest; [exact Hne |].
    apply comparable_binary64. intros d Hd.
    apply in_map_iff in Hd. destruct Hd as [x [<- Hx]].
    exact (Hnan x Hx).
Qed.
End ChartFacts.

Section ChartBinary64.
Import PrimFloat MetricChart.
#[local] Set Warnings "-inexact-float".

(** Next to 1e16 the binary64 numbers are 2 apart: 3 and 4 have the same
    computed distance to it, and the marker stays on the first. *)
Lemma closestIdx_nearest_witness :
  firstNearest [3; 4]%float 1e16%float 2
    (closestIdx [3; 4]%float 1e16%float)
  /\ closestIdx [3; 4]%float 1e16%float = 0%nat
  /\ (distance 1e16 3 = distance 1e16 4)%float.
Proof.
  split; [| split; vm_compute; reflexivity].
  apply (proj2 (proj2 closestIdx_nearest) [3; 4]%float 1e16%float).
  - discriminate.
  - intros x Hx. cbn [In] in Hx.
    destruct Hx as [<- | [<- | []]]; vm_compute; reflexivity.
Defined.
End ChartBinary64.

Section ScanModeFacts.
Import Camera Capture ScanModes.
Local Open Scope string_scope.
Local Open Scope Z_scope.

(** X21.  Every scan mode has its option, and the frame buffer is large
    enough for it.  [getScanModeOption] finds for each mode an option with
    that id, whose [requiredGoodFrames] is between 20 and 30; so in a
    session run with that threshold, whatever the camera mode, a capture
    taken when ready averages exactly [requiredGoodFrames] frames. *)
Theorem scan_mode_option_fits_buffer (mode : ScanMode) :
  exists opt,
    getScanModeOption mode = Some opt
    /\ option_id opt = mode
    /\ 20 <= option_requiredGoodFrames opt <= 30
    /\ forall cameraMode frames st,
         run cameraMode (option_requiredGoodFrames opt) initial frames
         = Ok st ->
         canCapture st = true ->
         capturedFrameCount cameraMode (option_requiredGoodFrames opt) st
         = Z.to_nat (option_requiredGoodFrames opt).
Proof.
  assert (Hfit : forall req cameraMode frames st,
             1 <= req <= 60 ->
             run cameraMode req initial frames = Ok st ->
             canCapture st = true ->
             capturedFrameCount cameraMode req st = Z.to_nat req).
  { intros req cameraMode frames st Hreq E Hc.
    pose proof (@session_keeps_invariant cameraMode req frames st E) as Hinv.
    destruct (@capturedFrameCount_ready cameraMode req st
                ltac:(lia) Hinv Hc) as [_ Hexact].
    rewrite Hexact by lia. unfold MAX_BUFFER. f_equal. lia. }
  destruct mode; eexists; (split; [reflexivity |]);
    cbn [option_id option_requiredGoodFrames];
    (split; [reflexivity |]); (split; [lia |]);
    intros cameraMode frames st; apply Hfit; lia.
Qed.
End ScanModeFacts.

Section SanityFacts.
Import Num Measure Camera Capture.
Local Open Scope string_scope.
Local Open Scope R_scope.

Ltac landmark_at landmarks idx :=
  let lm := fresh "lm" in
  let E := fresh "E" in
  destruct (@at_index_defined landmarks idx) as [lm E]; [lia |];
  rewrite ?E.

Lemma extractors_nonneg (landmarks : list Landmark) (w h : R)
    (raw : RawMeasurements R) :
  (33 <= List.length landmarks)%nat ->
  extractRawMeasurements landmarks w h = Ok raw
  \/ extractUpperBodyMeasurements landmarks w h = Ok raw ->
  forall p, In p rawFields -> 0 <= p raw.
Proof.
  intro Hge.
  landmark_at landmarks 0%nat. landmark_at landmarks 7%nat.
  landmark_at landmarks 8%nat. landmark_at landmarks 11%nat.
  landmark_at landmarks 12%nat. landmark_at landmarks 15%nat.
  landmark_at landmarks 16%nat. landmark_at landmarks 23%nat.
  landmark_at landmarks 24%nat. landmark_at landmarks 27%nat.
  landmark_at landmarks 28%nat.
  unfold extractRawMeasurements, extractUpperBodyMeasurements.
  rewrite ?E, ?E0, ?E1, ?E2, ?E3, ?E4, ?E5, ?E6, ?E7, ?E8, ?E9.
  cbn [dist midpoint prop bind lm_x lm_y]. unfold Math_sqrt.
  intros [[= <-] | [= <-]] p Hp; unfold rawFields in Hp; cbn [In] in Hp;
    repeat (destruct Hp as [<- | Hp];
            [cbn [shoulderWidthPx hipWidthPx legLengthPx torsoLengthPx
                  armLengthPx wingspanPx bodyHeightPx];
             first [ apply sqrt_pos
                   | lra
                   | match goal with
                     | |- 0 <= (sqrt ?a + sqrt ?b) / 2 =>
                         pose proof (sqrt_pos a); pose proof (sqrt_pos b);
                         lra
                     end ] |]);
    destruct Hp.
Qed.

Lemma running_sum_lower (lo : R) (xs : list R) :
  (forall x, In x xs -> lo <= x) ->
  forall s, s + INR (List.length xs) * lo <= fold_left Rplus xs s.
Proof.
  induction xs as [| x rest IH]; intros Hall s.
  - cbn. lra.
  - cbn [fold_left].
    assert (Hx : lo <= x) by (apply Hall; left; reflexivity).
    assert (Hrest : forall y, In y rest -> lo <= y)
      by (intros y Hy; apply Hall; right; exact Hy).
    specialize (IH Hrest (s + x)).
    change (List.length (x :: rest)) with (S (List.length rest)).
    rewrite S_INR. lra.
Qed.

Lemma average_field_lower
    (frames : list (RawMeasurements R)) (avg : RawMeasurements R)
    (p : RawMeasurements R -> R) (lo : R) :
  averageRawMeasurements frames = Ok avg ->
  In p rawFields ->
  (forall f, In f frames -> lo <= p f) ->
  lo <= p avg.
Proof.
  intros E Hp Hall.
  rewrite (@field_of_average p Hp frames avg E).
  assert (Hn : 0 < INR (List.length frames)).
  { unfold averageRawMeasurements in E.
    destruct frames; [discriminate |]. apply lt_0_INR. cbn. lia. }
  pose proof (@running_sum_lower lo (map p frames)) as Hb.
  rewrite length_map in Hb.
  assert (Hmap : forall x, In x (map p frames) -> lo <= x).
  { intros x Hx. apply in_map_iff in Hx. destruct Hx as [f [<- Hf]].
    exact (Hall f Hf). }
  specialize (Hb Hmap 0).
  apply Rmult_le_reg_r with (INR (List.length frames)); [exact Hn |].
  unfold Rdiv. rewrite Rmult_assoc, Rinv_l by lra. lra.
Qed.

Lemma Math_round_nonneg (x : R) : 0 <= x -> 0 <= Math_round x.
Proof.
  intro Hx. unfold Math_round. apply IZR_le.
  apply Zfloor_lub. simpl. lra.
Qed.

Lemma r_nonneg (x : R) : 0 <= x -> 0 <= r x.
Proof.
  intro Hx. unfold r. num_R.
  pose proof (@Math_round_nonneg (x * 10) ltac:(lra)). lra.
Qed.

Lemma r2_nonneg (x : R) : 0 <= x -> 0 <= r2 x.
Proof.
  intro Hx. unfold r2. num_R.
  pose proof (@Math_round_nonneg (x * 100) ltac:(lra)). lra.
Qed.

Lemma ratio_nonneg (a b : R) :
  0 <= a -> 0 <= (if 0 <? b then r2 (a / b) else 0).
Proof.
  intro Ha. destruct (ltb_spec 0 b) as [Hb | Hb]; [| lra].
  apply r2_nonneg. unfold Rdiv.
  apply Rmult_le_pos; [exact Ha |]. left. apply Rinv_0_lt_compat. exact Hb.
Qed.

Lemma scaleMeasurements_nonneg
    (raw : RawMeasurements R) (userHeightCm : R) (mode : ScanMode) :
  0 <= userHeightCm ->
  (forall p, In p rawFields -> 0 <= p raw) ->
  nonNegative (scaleMeasurements raw userHeightCm mode).
Proof.
  intros HH Hraw.
  assert (Hs := Hraw (@shoulderWidthPx R)).
  assert (Hh := Hraw (@hipWidthPx R)).
  assert (Hl := Hraw (@legLengthPx R)).
  assert (Ht := Hraw (@torsoLengthPx R)).
  assert (Ha := Hraw (@armLengthPx R)).
  assert (Hw := Hraw (@wingspanPx R)).
  unfold rawFields in *. cbn [In] in *.
  unfold nonNegative, scaleMeasurements.
  cbn [shoulderWidthCm hipWidthCm legLengthCm torsoLengthCm armLengthCm
       wingspanCm shoulderToHipRatio legToTorsoRatio armspanToHeightRatio
       scaleFactor].
  num_R.
  set (sf := if 0 <? bodyHeightPx raw then _ else 1).
  assert (Hsf : 0 <= sf).
  { unfold sf.
    destruct (ltb_spec 0 (bodyHeightPx raw)) as [Hb | Hb]; [| lra].
    unfold Rdiv. apply Rmult_le_pos.
    - destruct mode; try lra; apply Rmult_le_pos; lra.
    - left. apply Rinv_0_lt_compat. exact Hb. }
  assert (Hr : forall x, 0 <= x -> 0 <= r (x * sf))
    by (intros x Hx; apply r_nonneg; apply Rmult_le_pos; assumption).
  repeat match goal with
         | |- _ /\ _ => split
         end;
    first [ apply Hr; tauto
          | apply ratio_nonneg; apply Hr; tauto
          | exact Hsf ].
Qed.

(** Every frame the loop buffers has non-negative pixel lengths. *)
Lemma tick_keeps_nonneg (mode : CameraMode) (requiredGoodFrames : Z)
    (st : CameraState) (frame : Frame) (st' : CameraState) :
  Forall (fun raw => forall p, In p rawFields -> 0 <= p raw)
    (rawFrameBuffer st) ->
  tick mode requiredGoodFrames st frame = Ok st' ->
  Forall (fun raw => forall p, In p rawFields -> 0 <= p raw)
    (rawFrameBuffer st').
Proof.
  intros Hbuf. unfold tick.
  destruct (result frame) as [landmarks |];
    [| intros [= <-]; constructor].
  destruct (checkLandmarkQualityForMode_returns
              landmarks (liveW frame) (liveH frame) mode)
    as [q [Eq Hlen]].
  rewrite Eq. cbn [bind].
  destruct (valid q); [| intros [= <-]; exact Hbuf].
  specialize (Hlen eq_refl).
  destruct (@extractors_return landmarks (liveW frame) (liveH frame) Hlen)
    as [[raw Eraw] [[upper Eupper] [f Ef]]].
  pose proof (@extractors_nonneg landmarks (liveW frame) (liveH frame) raw
                Hlen (or_introl Eraw)) as Hraw.
  pose proof (@extractors_nonneg landmarks (liveW frame) (liveH frame) upper
                Hlen (or_intror Eupper)) as Hupper.
  destruct mode as [[ | | | ] | | ];
    rewrite ?Eraw, ?Eupper, ?Ef; cbn [bind fst snd];
    intros [= <-]; cbn [rawFrameBuffer];
    first [exact Hbuf | apply pushBounded_Forall; assumption].
Qed.

(** X22.  A capture never reports a negative length or ratio.  For a
    user height of at least 0 and frames of non-zero height (the extractors
    divide by it), whatever [handleCapture] delivers after a session has
    every length, every ratio and the scale factor at least 0. *)
Theorem captured_measurement_nonnegative
    (mode : CameraMode) (requiredGoodFrames : Z) (userHeightCm : R)
    (frames : list Frame) (st : CameraState)
    (isCapturing isCapturing' : bool) (m : Measurements R) :
  0 <= userHeightCm ->
  Forall (fun frame => liveH frame <> 0) frames ->
  run mode requiredGoodFrames initial frames = Ok st ->
  handleCapture mode requiredGoodFrames userHeightCm isCapturing st
  = Ok (isCapturing', Some m) ->
  nonNegative m.
Proof.
  intros HH _ E Hcap.
  assert (Hbuf : Forall (fun raw => forall p, In p rawFields -> 0 <= p raw)
                   (rawFrameBuffer st)).
  { destruct (@run_invariant mode requiredGoodFrames
                (fun st => Forall (fun raw => forall p, In p rawFields ->
                                                        0 <= p raw)
                             (rawFrameBuffer st))
                (@tick_keeps_nonneg mode requiredGoodFrames)
                frames initial (Forall_nil _))
      as [st' [E' H]].
    rewrite E in E'. injection E' as <-. exact H. }
  unfold handleCapture in Hcap.
  destruct isCapturing; [discriminate |].
  destruct mode as [[ | | | ] | | ].
  1: { destruct (List.length _ =? 0)%nat; [discriminate |].
       destruct (averageFaceMeasurements _); [| discriminate].
       cbn [bind] in Hcap. injection Hcap as _ <-.
       unfold nonNegative. cbn. repeat split; lra. }
  all: destruct (List.length _ =? 0)%nat; [discriminate |];
    destruct (averageRawMeasurements
                (sliceLast (rawFrameBuffer st) requiredGoodFrames))
      as [avg | msg] eqn:Eavg; [| discriminate];
    cbn [bind] in Hcap; injection Hcap as _ <-;
    apply scaleMeasurements_nonneg; [exact HH |];
    intros p Hp;
    apply (@average_field_lower _ avg p 0 Eavg Hp);
    intros f Hf;
    pose proof (@sliceLast_Forall _ _ _ requiredGoodFrames Hbuf) as Hslice;
    rewrite Forall_forall in Hslice; exact (Hslice f Hf p Hp).
Qed.

Lemma captured_measurement_nonnegative_witness :
  exists st m,
    run (of_scan scan_full_body) 2 initial [goodFrame; goodFrame] = Ok st
    /\ handleCapture (of_scan scan_full_body) 2 175 false st
       = Ok (true, Some m)
    /\ nonNegative m.
Proof.
  destruct (@run_accepted (of_scan scan_full_body) 2 ltac:(lia)
              [goodFrame; goodFrame] initial)
    as [st [E [_ Hr]]].
  - cbn. lia.
  - cbn. split; [discriminate | lia].
  - repeat constructor; apply goodFrame_verdict.
  - assert (Hc : canCapture st = true) by (apply Hr; cbn; lia).
    pose proof (@session_keeps_invariant (of_scan scan_full_body) 2
                  [goodFrame; goodFrame] st E) as Hinv.
    destruct (@capturedFrameCount_ready (of_scan scan_full_body) 2 st
                ltac:(lia) Hinv Hc) as [Hpos _].
    assert (Hcap : exists m,
               handleCapture (of_scan scan_full_body) 2 175 false st
               = Ok (true, Some m)).
    { unfold handleCapture, capturedFrameCount in *.
      destruct (sliceLast (rawFrameBuffer st) 2) as [| f rest];
        [cbn in Hpos; lia |].
      unfold averageRawMeasurements.
      cbn [List.length Nat.eqb bind]. eexists. reflexivity. }
    destruct Hcap as [m Hcap].
    exists st, m. split; [exact E |]. split; [exact Hcap |].
    apply (@captured_measurement_nonnegative (of_scan scan_full_body) 2
             175 [goodFrame; goodFrame] st false true m);
      [lra | | exact E | exact Hcap].
    repeat constructor; cbn; lra.
Defined.
End SanityFacts.
